(** * hfjscli: the resilient file-transfer engine

    A shallow embedding of the transfer client ([src/client/hf-client.ts]),
    the batch manager ([class BatchManager]), the file-system helpers
    ([class FileSystemUtils] of [src/utils/files.ts]) and the pattern
    resolver ([src/utils/pattern-resolver.ts]), with the properties of the
    specification stated and proved over it.

    Conventions.
    - A JavaScript [number] that holds a count, an index or a size is a [nat]
      or a [Z]; [RetryConfig.maxRetries] is a [Z] because nothing in the code
      keeps it from being negative.
    - A string is a [string]; [includes], [startsWith] and [trim] are
      written out on it.
    - An [async] function is a function from the world before the call to
      its outcome and the world after it ([Async]); [await] is the bind of
      that monad, [try]/[catch] is [tryCatch].
    - The remote hub and the operating system are not part of the
      repository: the hub is a record of response functions ([Env]) indexed
      by the number of calls made so far (a scripted mock), the file system
      is a finite map from paths to nodes.  The calls are logged in the
      world; what [console.error] prints is not. *)

From stdpp Require Import base option list gmap strings pretty.
From Stdlib Require Import ZArith Lia Ascii Init.Byte.

#[local] Set Warnings "-abstract-large-number".

#[local] Open Scope string_scope.
#[local] Open Scope Z_scope.

(* ================================================================== *)
(** ** JavaScript strings *)
(* ================================================================== *)

Module JsString.

(** [hay.includes(needle)] *)
Fixpoint includes (hay needle : string) : bool :=
  match hay with
  | EmptyString => String.prefix needle hay
  | String _ rest => String.prefix needle hay || includes rest needle
  end.

(** [s.startsWith(p)] *)
Definition startsWith (s p : string) : bool := String.prefix p s.

(** The code units below 256 that [String.prototype.trim] removes:
    TAB, LF, VT, FF, CR, SPACE and NBSP. *)
Definition isWhiteSpace (c : ascii) : bool :=
  let n := nat_of_ascii c in
  ((9 <=? n)%nat && (n <=? 13)%nat) || (n =? 32)%nat || (n =? 160)%nat.

Fixpoint trimStart (s : string) : string :=
  match s with
  | EmptyString => EmptyString
  | String c rest => if isWhiteSpace c then trimStart rest else s
  end.

(** [trimEnd] drops the white space that ends the string. *)
Fixpoint trimEnd (s : string) : string :=
  match s with
  | EmptyString => EmptyString
  | String c rest =>
      match trimEnd rest with
      | EmptyString => if isWhiteSpace c then EmptyString else String c EmptyString
      | rest' => String c rest'
      end
  end.

(** [s.trim()] *)
Definition trim (s : string) : string := trimEnd (trimStart s).

(** The string of one double quote. *)
Definition dquote : string := String (ascii_of_nat 34) EmptyString.

(** Truthiness of a string that may be [undefined]: [undefined] and the
    empty string are falsy. *)
Definition truthy (o : option string) : bool :=
  match o with
  | Some (String _ _) => true
  | _ => false
  end.

(** [a || b] on strings that may be [undefined], [b] being a string. *)
Definition orElse (a : option string) (b : string) : string :=
  match a with
  | Some (String c r) => String c r
  | _ => b
  end.

End JsString.

(* ================================================================== *)
(** ** Thrown values, outcomes and the [Async] monad *)
(* ================================================================== *)

(** [ErrorType] of [src/types/index.ts]. *)
Inductive ErrorType :=
| AUTHENTICATION_ERROR
| NETWORK_ERROR
| FILE_NOT_FOUND
| PERMISSION_ERROR
| VALIDATION_ERROR
| RATE_LIMIT_ERROR.

(** An object that the code throws or catches.  [err_instanceofError] is
    [error instanceof Error]; [err_type] is the [type] property ([None] when
    ["type" in error] is false): the objects that [createError] builds are
    plain objects with a [type], the objects that [new Error(..)] builds are
    [Error] instances without one. *)
Record JsError := mkJsError {
  err_instanceofError : bool;
  err_name : string;
  err_message : option string;
  err_type : option ErrorType;
  err_suggestions : list string
}.

(** [new Error(message)] *)
Definition newError (message : string) : JsError :=
  {| err_instanceofError := true; err_name := "Error";
     err_message := Some message; err_type := None; err_suggestions := [] |}.

(** The [TypeError] of the engine for reading [property] of [undefined]. *)
Definition typeErrorReading (property : string) : JsError :=
  {| err_instanceofError := true; err_name := "TypeError";
     err_message :=
       Some ("Cannot read properties of undefined (reading '" +:+ property +:+ "')");
     err_type := None; err_suggestions := [] |}.

(** [undefined.message] *)
Definition typeErrorOfUndefined : JsError := typeErrorReading "message".

(** The [AbortError] of Node.js: the error of a stream that was destroyed
    without a reason. *)
Definition abortError : JsError :=
  {| err_instanceofError := true; err_name := "AbortError";
     err_message := Some "The operation was aborted";
     err_type := None; err_suggestions := [] |}.

(** [error.toString()], which is also [`${error}`]. *)
Definition errorToString (e : JsError) : string :=
  if err_instanceofError e then
    match err_message e with
    | Some (String c r) =>
        match err_name e with
        | EmptyString => String c r
        | name => name +:+ ": " +:+ String c r
        end
    | _ => err_name e
    end
  else "[object Object]".

(** What a [throw] carries: an object, or [undefined] (the value of a
    [let] that was never assigned). *)
Inductive Thrown :=
| ThrownUndefined
| ThrownError (e : JsError).

(** How a promise settles. *)
Inductive Outcome (A : Type) :=
| Resolved (v : A)
| Rejected (t : Thrown).
Arguments Resolved {A} v.
Arguments Rejected {A} t.

Definition isResolved {A} (o : Outcome A) : bool :=
  match o with Resolved _ => true | Rejected _ => false end.

(** How the promise of [Promise.all] settles: with all the values, or with
    the reason of the promise that rejects first in time.  Which one that
    is the order of the array does not tell: it is one of [reasons], the
    reasons of the promises that reject, in the order of the array. *)
Inductive AllSettled (A : Type) :=
| AllResolved (values : list A)
| FirstRejected (reasons : list Thrown).
Arguments AllResolved {A} values.
Arguments FirstRejected {A} reasons.

(** An asynchronous computation over a world [W]. *)
Definition Async (W A : Type) : Type := W -> Outcome A * W.

Section AsyncMonad.
Context {W : Type}.

Definition ret {A} (v : A) : Async W A := fun w => (Resolved v, w).

Definition throw {A} (t : Thrown) : Async W A := fun w => (Rejected t, w).

Definition bind {A B} (m : Async W A) (k : A -> Async W B) : Async W B :=
  fun w =>
    match m w with
    | (Resolved v, w1) => k v w1
    | (Rejected t, w1) => (Rejected t, w1)
    end.

(** [try { body } catch (error) { handler }] *)
Definition tryCatch {A} (body : Async W A) (handler : Thrown -> Async W A)
  : Async W A :=
  fun w =>
    match body w with
    | (Resolved v, w1) => (Resolved v, w1)
    | (Rejected t, w1) => handler t w1
    end.

(** Reading the world. *)
Definition gets {A} (f : W -> A) : Async W A := fun w => (Resolved (f w), w).
End AsyncMonad.

Declare Scope async_scope.
Delimit Scope async_scope with async.
Notation "'let*' x ':=' m 'in' k" := (bind m (fun x => k))
  (at level 10, x name, m at level 100, k at level 200) : async_scope.
Notation "'do' m 'in' k" := (bind m (fun _ => k))
  (at level 10, m at level 100, k at level 200) : async_scope.
#[local] Open Scope async_scope.

(* ================================================================== *)
(** ** The retry executor *)
(* ================================================================== *)

(** [interface RetryConfig] *)
Record RetryConfig := mkRetryConfig {
  maxRetries : Z;
  baseDelay : Z;
  maxDelay : Z
}.

(** [DEFAULT_RETRY_CONFIG] *)
Definition DEFAULT_RETRY_CONFIG : RetryConfig :=
  {| maxRetries := 3; baseDelay := 1000; maxDelay := 10000 |}.

(** [error.message?.includes(code)] *)
Definition messageIncludes (error : JsError) (code : string) : bool :=
  match err_message error with
  | Some m => JsString.includes m code
  | None => false
  end.

(** [HFClient.shouldNotRetry] *)
Definition shouldNotRetry (error : JsError) : bool :=
  if messageIncludes error "401" || messageIncludes error "403" then true
  else if messageIncludes error "400" || messageIncludes error "422" then true
  else if messageIncludes error "404" then true
  else false.

(** The delay of [withRetry] before the jitter is added:
    [Math.min(baseDelay * Math.pow(2, attempt), maxDelay)]. *)
Definition backoffDelay (cfg : RetryConfig) (attempt : Z) : Z :=
  Z.min (baseDelay cfg * 2 ^ attempt) (maxDelay cfg).

Section WithRetry.
Context {W T : Type}.
Variable cfg : RetryConfig.
(** [this.sleep(jitteredDelay)]; the jitter, [Math.random() * 1000], is
    left to the world: [sleep] receives the delay without it. *)
Variable sleep : Z -> W -> W.
Variable operation : Async W T.

(** The [for] loop of [withRetry].  [remaining] is the number of values
    of [attempt] from the current one up to [maxRetries]: the loop test
    [attempt <= maxRetries] holds exactly when it is not zero. *)
Fixpoint retryLoop (remaining : nat) (attempt : Z) (lastError : Thrown)
  : Async W T :=
  fun w =>
    match remaining with
    | O => (Rejected lastError, w)
    | S remaining' =>
        match operation w with
        | (Resolved v, w1) => (Resolved v, w1)
        | (Rejected error, w1) =>
            match error with
            | ThrownUndefined =>
                (Rejected (ThrownError typeErrorOfUndefined), w1)
            | ThrownError e =>
                if shouldNotRetry e then (Rejected error, w1)
                else if attempt =? maxRetries cfg then (Rejected error, w1)
                else
                  retryLoop remaining' (attempt + 1) error
                    (sleep (backoffDelay cfg attempt) w1)
            end
        end
    end.

(** [HFClient.withRetry] *)
Definition withRetry : Async W T :=
  retryLoop (Z.to_nat (maxRetries cfg + 1)) 0 ThrownUndefined.
End WithRetry.

(** Counting the invocations of an operation: the world is paired with a
    counter that every invocation increments (the [mock.calls.length] of a
    [jest.fn] that wraps the operation). *)
Definition counted {W T} (operation : Async W T) : Async (nat * W) T :=
  fun '(n, w) => let '(r, w1) := operation w in (r, (S n, w1)).

Definition sleepCounted {W} (sleep : Z -> W -> W) : Z -> nat * W -> nat * W :=
  fun d '(n, w) => (n, sleep d w).

(* ================================================================== *)
(** ** The world: file system, remote hub, logs *)
(* ================================================================== *)

(** A node of the file system. *)
Inductive Node :=
| File (content : list byte)
| Directory.

(** The file system: the nodes by path, and what the operating system
    refuses ([EACCES], [EPERM], [EBUSY], ...) for a path, with the error it
    answers: the [stat] of the path, opening it (to read it or to write
    it), and unlinking it. *)
Record FileSystem := mkFileSystem {
  nodes : gmap string Node;
  deniesStat : string -> option JsError;
  deniesOpen : string -> option JsError;
  deniesUnlink : string -> option JsError
}.

(** [interface ResolvedFile] and [interface PatternResolution] of
    [pattern-resolver.ts]. *)
Record ResolvedFile := mkResolvedFile {
  rf_path : string;
  rf_size : nat;
  rf_fileName : string
}.

Record PatternResolution := mkPatternResolution {
  pr_totalFiles : nat;
  pr_totalSize : nat;
  pr_files : list ResolvedFile
}.

(** A file of an upload: [{ path, content }]. *)
Record HubFile := mkHubFile {
  hf_path : string;
  hf_content : list byte
}.

(** The parameters of [hfUploadFile], [hfUploadFiles] and [listFiles]. *)
Record UploadFileParams := mkUploadFileParams {
  uf_repo : string;
  uf_file : HubFile;
  uf_commitTitle : string;
  uf_useXet : bool;
  uf_accessToken : option string
}.

Record UploadFilesParams := mkUploadFilesParams {
  ufs_repo : string;
  ufs_files : list HubFile;
  ufs_commitTitle : string;
  ufs_useXet : bool;
  ufs_accessToken : option string
}.

Record ListFilesParams := mkListFilesParams {
  lf_repoName : string;
  lf_repoType : string;
  lf_accessToken : option string
}.

(** The answer of an upload: [{ commit?: { oid } }]. *)
Record CommitOutput := mkCommitOutput {
  commit : option string
}.

(** The remote hub and the other libraries the code calls.  The [nat] of a
    hub function is the number of calls made to it before this one, so
    that a hub may answer the same request differently over time. *)
Record Env := mkEnv {
  hfUploadFile : nat -> UploadFileParams -> Outcome CommitOutput;
  hfUploadFiles : nat -> UploadFilesParams -> Outcome CommitOutput;
  (** [listFiles(..)[Symbol.asyncIterator]().next()]: the path of the
      first entry, [None] when the listing is empty. *)
  listFilesNext : nat -> ListFilesParams -> Outcome (option string);
  (** [fg.async(pattern, { cwd, onlyFiles, absolute, .. })] *)
  fgAsync : string -> string -> Outcome (list string);
  (** [process.cwd()] *)
  processCwd : string
}.

Record World := mkWorld {
  fs : FileSystem;
  uploadFileCalls : list UploadFileParams;
  uploadFilesCalls : list UploadFilesParams;
  listFilesCalls : list ListFilesParams;
  sleeps : list Z;
  (** the paths given to the [stat] of [files.ts] *)
  statCalls : list string;
  (** the lines of [console.warn] *)
  warnings : list string
}.

Definition setFs (f : FileSystem) (w : World) : World :=
  mkWorld f (uploadFileCalls w) (uploadFilesCalls w) (listFilesCalls w)
    (sleeps w) (statCalls w) (warnings w).

Definition logUploadFile (p : UploadFileParams) (w : World) : World :=
  mkWorld (fs w) (uploadFileCalls w ++ [p]) (uploadFilesCalls w)
    (listFilesCalls w) (sleeps w) (statCalls w) (warnings w).

Definition logUploadFiles (p : UploadFilesParams) (w : World) : World :=
  mkWorld (fs w) (uploadFileCalls w) (uploadFilesCalls w ++ [p])
    (listFilesCalls w) (sleeps w) (statCalls w) (warnings w).

Definition logListFiles (p : ListFilesParams) (w : World) : World :=
  mkWorld (fs w) (uploadFileCalls w) (uploadFilesCalls w)
    (listFilesCalls w ++ [p]) (sleeps w) (statCalls w) (warnings w).

(** [HFClient.sleep] *)
Definition sleep (ms : Z) (w : World) : World :=
  mkWorld (fs w) (uploadFileCalls w) (uploadFilesCalls w) (listFilesCalls w)
    (sleeps w ++ [ms]) (statCalls w) (warnings w).

Definition logStat (p : string) (w : World) : World :=
  mkWorld (fs w) (uploadFileCalls w) (uploadFilesCalls w) (listFilesCalls w)
    (sleeps w) (statCalls w ++ [p]) (warnings w).

(** [console.warn(line)] *)
Definition consoleWarn (line : string) (w : World) : World :=
  mkWorld (fs w) (uploadFileCalls w) (uploadFilesCalls w) (listFilesCalls w)
    (sleeps w) (statCalls w) (warnings w ++ [line]).

(** The errors of the operating system. *)
Definition enoent (syscall path : string) : JsError :=
  newError ("ENOENT: no such file or directory, " +:+ syscall +:+ " '" +:+ path +:+ "'").

Definition eisdir (syscall : string) : JsError :=
  newError ("EISDIR: illegal operation on a directory, " +:+ syscall).

(** [path.basename(p)] of Node.js on POSIX: the last segment of [p] that is
    not empty.  [cur] is the segment being read, [last] the last segment
    that was closed by a slash. *)
Fixpoint basenameFrom (p cur last : string) : string :=
  match p with
  | EmptyString => match cur with EmptyString => last | _ => cur end
  | String c rest =>
      if Ascii.eqb c "/"%char
      then basenameFrom rest EmptyString
             (match cur with EmptyString => last | _ => cur end)
      else basenameFrom rest (cur +:+ String c EmptyString) last
  end.

Definition basename (p : string) : string :=
  basenameFrom p EmptyString EmptyString.

(** [Math.ceil(n / d)] on counts. *)
Definition ceilDiv (n d : nat) : nat :=
  (n / d + (if n mod d =? 0 then 0 else 1))%nat.

(** [l.slice(start, end)] for [0 <= start] and [0 <= end]. *)
Definition slice {A} (l : list A) (start end_ : nat) : list A :=
  take (end_ - start) (drop start l).

(* ================================================================== *)
(** ** [src/client/hf-client.ts] *)
(* ================================================================== *)

Module HFClient.

(** The fields of the class. *)
Record t := mk {
  accessToken : option string;
  retryConfig : RetryConfig
}.

(** [new HFClient(token)] *)
Definition new (token : option string) : t :=
  {| accessToken := token; retryConfig := DEFAULT_RETRY_CONFIG |}.

Record UploadOptions := mkUploadOptions {
  uo_repoId : string;
  uo_filePath : string;
  uo_token : option string;
  uo_repoType : string;
  uo_message : option string
}.

Record MultiUploadOptions := mkMultiUploadOptions {
  mo_repoId : string;
  mo_filePaths : list string;
  mo_token : option string;
  mo_repoType : string;
  mo_message : option string
}.

Record UploadResult := mkUploadResult {
  ur_success : bool;
  ur_fileUrl : option string;
  ur_commitSha : option string;
  ur_error : option string
}.

Record MultiUploadResult := mkMultiUploadResult {
  mr_success : bool;
  mr_filesUploaded : nat;
  mr_totalFiles : nat;
  mr_commitSha : option string;
  mr_failedFiles : option (list string);
  mr_error : option string
}.

(** [HFClient.createError] *)
Definition createError (type : ErrorType) (message : string)
    (suggestion : option string) : JsError :=
  {| err_instanceofError := false; err_name := EmptyString;
     err_message := Some message; err_type := Some type;
     err_suggestions :=
       if JsString.truthy suggestion
       then [JsString.orElse suggestion EmptyString] else [] |}.

(** [HFClient.isValidRepoType] *)
Definition isValidRepoType (repoType : string) : bool :=
  bool_decide (repoType ∈ ["model"; "dataset"; "space"]).

(** [!s || s.trim() === ""] *)
Definition isBlank (s : string) : bool :=
  negb (JsString.truthy (Some s)) || String.eqb (JsString.trim s) EmptyString.

Definition repoIdRequired : JsError :=
  createError VALIDATION_ERROR "Repository ID is required"
    (Some ("Please provide a valid repository ID in the format " +:+ JsString.dquote
           +:+ "username/repo-name" +:+ JsString.dquote)).

Definition invalidRepoType (repoType : string) : JsError :=
  createError VALIDATION_ERROR ("Invalid repository type: " +:+ repoType)
    (Some "Repository type must be one of: model, dataset, space").

(** [HFClient.validateUploadInputs] *)
Definition validateUploadInputs (options : UploadOptions) : Outcome unit :=
  if isBlank (uo_repoId options) then Rejected (ThrownError repoIdRequired)
  else if isBlank (uo_filePath options) then
    Rejected (ThrownError
      (createError VALIDATION_ERROR "File path is required"
         (Some "Please provide a valid file path to upload")))
  else if negb (isValidRepoType (uo_repoType options)) then
    Rejected (ThrownError (invalidRepoType (uo_repoType options)))
  else Resolved tt.

(** [HFClient.validateMultiUploadInputs] *)
Definition validateMultiUploadInputs (options : MultiUploadOptions)
  : Outcome unit :=
  if isBlank (mo_repoId options) then Rejected (ThrownError repoIdRequired)
  else if (length (mo_filePaths options) =? 0)%nat then
    Rejected (ThrownError
      (createError VALIDATION_ERROR "At least one file path is required"
         (Some "Please provide valid file paths to upload")))
  else if existsb isBlank (mo_filePaths options) then
    Rejected (ThrownError
      (createError VALIDATION_ERROR "File path cannot be empty"
         (Some "Please provide valid file paths to upload")))
  else if negb (isValidRepoType (mo_repoType options)) then
    Rejected (ThrownError (invalidRepoType (mo_repoType options)))
  else Resolved tt.

(** [HFClient.handleError]; reading [message] of [undefined] throws. *)
Definition handleError (error : Thrown) : Outcome JsError :=
  match error with
  | ThrownUndefined => Rejected (ThrownError typeErrorOfUndefined)
  | ThrownError e =>
      if err_instanceofError e && bool_decide (is_Some (err_type e))
      then Resolved e
      else
        let message := JsString.orElse (err_message e) (errorToString e) in
        if JsString.includes message "401" || JsString.includes message "403"
           || JsString.includes message "authentication"
        then Resolved (createError AUTHENTICATION_ERROR "Authentication failed"
               (Some "Please check your Hugging Face token and ensure it has the necessary permissions."))
        else if JsString.includes message "404"
        then Resolved (createError FILE_NOT_FOUND "Repository or file not found"
               (Some "Please check the repository ID and file path are correct."))
        else if JsString.includes message "429"
                || JsString.includes message "rate limit"
        then Resolved (createError RATE_LIMIT_ERROR "Rate limit exceeded"
               (Some "Please wait a moment before trying again."))
        else if JsString.includes message "ENOENT"
                || JsString.includes message "EACCES"
        then Resolved (createError PERMISSION_ERROR "File system permission error"
               (Some "Please check file permissions and ensure the directory is writable."))
        else Resolved (createError NETWORK_ERROR
               ("Network or API error: " +:+ message)
               (Some "Please check your internet connection and try again."))
  end.

(** [fs.pathExists(p)] *)
Definition pathExists (w : World) (p : string) : bool :=
  match deniesStat (fs w) p with
  | Some _ => false
  | None => bool_decide (is_Some (nodes (fs w) !! p))
  end.

(** [HFClient.createStreamingFileBlob]: [fs.stat] for the length, then
    the whole content, read through the stream by [response.blob()]; the
    error of [fs.createReadStream] (the file cannot be opened, or it is a
    directory) is the error of the stream, with which [blob()] rejects. *)
Definition createStreamingFileBlob (w : World) (filePath : string)
  : Outcome (list byte) :=
  match deniesStat (fs w) filePath with
  | Some e => Rejected (ThrownError e)
  | None =>
      match nodes (fs w) !! filePath with
      | None => Rejected (ThrownError (enoent "stat" filePath))
      | Some node =>
          match deniesOpen (fs w) filePath with
          | Some e => Rejected (ThrownError e)
          | None =>
              match node with
              | Directory => Rejected (ThrownError (eisdir "read"))
              | File content => Resolved content
              end
          end
      end
  end.

(** [options.token || this.accessToken], kept when it is truthy. *)
Definition tokenFor (this : t) (token : option string) : option string :=
  if JsString.truthy token then token
  else if JsString.truthy (accessToken this) then accessToken this
  else None.

(** The call of [hfUploadFile], logged. *)
Definition callUploadFile (env : Env) (p : UploadFileParams)
  : Async World CommitOutput :=
  fun w => (hfUploadFile env (length (uploadFileCalls w)) p, logUploadFile p w).

(** The call of [hfUploadFiles], logged. *)
Definition callUploadFiles (env : Env) (p : UploadFilesParams)
  : Async World CommitOutput :=
  fun w => (hfUploadFiles env (length (uploadFilesCalls w)) p, logUploadFiles p w).

(** The call of [listFiles] and of [next] on its iterator, logged. *)
Definition callListFiles (env : Env) (p : ListFilesParams)
  : Async World unit :=
  fun w =>
    match listFilesNext env (length (listFilesCalls w)) p with
    | Resolved _ => (Resolved tt, logListFiles p w)
    | Rejected t => (Rejected t, logListFiles p w)
    end.

Definition liftOutcome {A} (o : Outcome A) : Async World A := fun w => (o, w).

(** The [uploadOptions] that the operation of [uploadFile] builds. *)
Definition uploadOptionsOf (this : t) (options : UploadOptions)
    (streamingBlob : list byte) : UploadFileParams :=
  {| uf_repo := uo_repoId options;
     uf_file := {| hf_path := basename (uo_filePath options);
                   hf_content := streamingBlob |};
     uf_commitTitle :=
       JsString.orElse (uo_message options)
         ("Upload " +:+ basename (uo_filePath options));
     uf_useXet := true;
     uf_accessToken := tokenFor this (uo_token options) |}.

(** [HFClient.uploadFile] *)
Definition uploadFile (this : t) (env : Env) (options : UploadOptions)
  : Async World UploadResult :=
  tryCatch
    (do liftOutcome (validateUploadInputs options) in
     let* found := gets (fun w => pathExists w (uo_filePath options)) in
     if negb found then
       throw (ThrownError
         (createError FILE_NOT_FOUND
            ("Local file not found: " +:+ uo_filePath options)
            (Some "Please check the file path and ensure the file exists.")))
     else
       let* streamingBlob :=
         (fun w => (createStreamingFileBlob w (uo_filePath options), w)) in
       let* result :=
         withRetry (retryConfig this) sleep
           (callUploadFile env (uploadOptionsOf this options streamingBlob)) in
       ret {| ur_success := true;
              ur_fileUrl :=
                Some ("https://huggingface.co/" +:+ uo_repoId options
                      +:+ "/blob/main/" +:+ basename (uo_filePath options));
              ur_commitSha := Some (JsString.orElse (commit result) "unknown");
              ur_error := None |})
    (fun error =>
       let* e := liftOutcome (handleError error) in
       ret {| ur_success := false; ur_fileUrl := None; ur_commitSha := None;
              ur_error := err_message e |}).

(** The local variables of [uploadFiles] that the loop changes. *)
Record BatchState := mkBatchState {
  filesProcessed : nat;
  failedFiles : list string;
  commitSha : string
}.

(** The callback of [batchFiles.map]: what it pushes to [failedFiles],
    and how its promise settles. *)
Definition prepareFile (w : World) (filePath : string)
  : list string * Outcome (option HubFile) :=
  if negb (pathExists w filePath) then ([filePath], Resolved None)
  else
    match createStreamingFileBlob w filePath with
    | Resolved streamingBlob =>
        ([], Resolved (Some {| hf_path := basename filePath;
                               hf_content := streamingBlob |}))
    | Rejected t => ([], Rejected t)
    end.

(** [Promise.all] of promises that settle as [l] tells: all the values
    when every promise resolves, and otherwise the rejection of the one
    that rejects first in time, one of the rejections of [l]. *)
Fixpoint promiseAll {A} (l : list (Outcome A)) : AllSettled A :=
  match l with
  | [] => AllResolved []
  | Resolved v :: rest =>
      match promiseAll rest with
      | AllResolved vs => AllResolved (v :: vs)
      | FirstRejected reasons => FirstRejected reasons
      end
  | Rejected t :: rest =>
      match promiseAll rest with
      | AllResolved _ => FirstRejected [t]
      | FirstRejected reasons => FirstRejected (t :: reasons)
      end
  end.

(** [HF API limit] *)
Definition batchSize : nat := 1000.

(** The files of batch [batchIndex]. *)
Definition batchFilesOf (filePaths : list string) (batchIndex : nat)
  : list string :=
  let totalFiles := length filePaths in
  let startIndex := (batchIndex * batchSize)%nat in
  let endIndex := Nat.min (startIndex + batchSize) totalFiles in
  slice filePaths startIndex endIndex.

(** The [uploadOptions] of the batch [batchIndex], built in the operation
    that [withRetry] runs. *)
Definition batchUploadOptions (this : t) (options : MultiUploadOptions)
    (totalBatches batchIndex : nat) (validFiles : list HubFile)
  : UploadFilesParams :=
  {| ufs_repo := mo_repoId options;
     ufs_files := validFiles;
     ufs_commitTitle :=
       JsString.orElse (mo_message options)
         ("Upload batch " +:+ pretty (batchIndex + 1)%nat +:+ "/"
          +:+ pretty totalBatches +:+ " ("
          +:+ pretty (length validFiles) +:+ " files)");
     ufs_useXet := true;
     ufs_accessToken := tokenFor this (mo_token options) |}.

(** The body of the [for] loop of [uploadFiles].  The callbacks of
    [map] run to their end whatever [Promise.all] does, and their checks
    of existence settle before any blob fails: the pushes of the missing
    files come first, then the push of the [catch]. *)
Definition processBatch (this : t) (env : Env) (options : MultiUploadOptions)
    (totalBatches batchIndex : nat) (st : BatchState) (w : World)
  : BatchState * World :=
  let batchFiles := batchFilesOf (mo_filePaths options) batchIndex in
  let prepared := map (prepareFile w) batchFiles in
  let st1 :=
    {| filesProcessed := filesProcessed st;
       failedFiles := failedFiles st ++ concat (map fst prepared);
       commitSha := commitSha st |} in
  let failed (w1 : World) :=
    ({| filesProcessed := filesProcessed st1;
        failedFiles := failedFiles st1 ++ batchFiles;
        commitSha := commitSha st1 |}, w1) in
  match promiseAll (map snd prepared) with
  | FirstRejected _ => failed w
  | AllResolved files =>
      let validFiles := omap id files in
      if (length validFiles =? 0)%nat then (st1, w)
      else
        match
          withRetry (retryConfig this) sleep
            (callUploadFiles env
               (batchUploadOptions this options totalBatches batchIndex
                  validFiles)) w
        with
        | (Resolved result, w1) =>
            ({| filesProcessed := (filesProcessed st1 + length validFiles)%nat;
                failedFiles := failedFiles st1;
                commitSha := JsString.orElse (commit result) (commitSha st1) |},
             w1)
        | (Rejected _, w1) => failed w1
        end
  end.

(** The [for] loop of [uploadFiles]; [remaining] is
    [totalBatches - batchIndex]. *)
Fixpoint batchLoop (this : t) (env : Env) (options : MultiUploadOptions)
    (totalBatches remaining batchIndex : nat) (st : BatchState) (w : World)
  : BatchState * World :=
  match remaining with
  | O => (st, w)
  | S remaining' =>
      let '(st1, w1) :=
        processBatch this env options totalBatches batchIndex st w in
      batchLoop this env options totalBatches remaining' (S batchIndex) st1 w1
  end.

(** [HFClient.uploadFiles] *)
Definition uploadFiles (this : t) (env : Env) (options : MultiUploadOptions)
  : Async World MultiUploadResult :=
  tryCatch
    (do liftOutcome (validateMultiUploadInputs options) in
     fun w =>
       let totalFiles := length (mo_filePaths options) in
       let totalBatches := ceilDiv totalFiles batchSize in
       let '(st, w1) :=
         batchLoop this env options totalBatches totalBatches 0%nat
           {| filesProcessed := 0; failedFiles := []; commitSha := "unknown" |}
           w in
       let success := (0 <? filesProcessed st)%nat in
       (Resolved
          {| mr_success := success;
             mr_filesUploaded := filesProcessed st;
             mr_totalFiles := totalFiles;
             mr_commitSha :=
               if success && negb (String.eqb (commitSha st) "unknown")
               then Some (commitSha st) else None;
             mr_failedFiles :=
               if (0 <? length (failedFiles st))%nat
               then Some (failedFiles st) else None;
             mr_error := None |}, w1))
    (fun error =>
       let* e := liftOutcome (handleError error) in
       ret {| mr_success := false;
              mr_filesUploaded := 0;
              mr_totalFiles := length (mo_filePaths options);
              mr_commitSha := None;
              mr_failedFiles := Some (mo_filePaths options);
              mr_error := err_message e |}).

(** How a byte stream ends: it is done, or it breaks with a reason after
    its chunks.  The bytes are written to a file as they come, and the
    break stops the writing: [flushed] is the number of the bytes of the
    chunks that have reached the file by then. *)
Inductive StreamEnd :=
| StreamDone
| StreamError (reason : Thrown) (flushed : nat).

(** The stream of a blob: the chunks it delivers, then its end. *)
Record ByteStream := mkByteStream {
  chunks : list (list byte);
  ending : StreamEnd
}.

(** A downloaded blob; [blob.stream()] may be null. *)
Record Blob := mkBlob {
  blobStream : option ByteStream
}.

(** [pipeline(Readable.fromWeb(stream), fs.createWriteStream(localPath))]:
    the file is opened (created, or emptied).  When the stream is done
    all its chunks are in the file and the promise resolves.  When the
    stream breaks the file holds the bytes that have reached it by then,
    and the promise rejects with the reason of the stream, or with an
    [AbortError] when there is no reason. *)
Definition pipeline (stream : ByteStream) (localPath : string)
  : Async World unit :=
  fun w =>
    match deniesOpen (fs w) localPath with
    | Some e => (Rejected (ThrownError e), w)
    | None =>
        match nodes (fs w) !! localPath with
        | Some Directory => (Rejected (ThrownError (eisdir "open")), w)
        | _ =>
            let written (content : list byte) :=
              setFs
                (mkFileSystem
                   (<[localPath := File content]> (nodes (fs w)))
                   (deniesStat (fs w)) (deniesOpen (fs w)) (deniesUnlink (fs w)))
                w in
            match ending stream with
            | StreamDone => (Resolved tt, written (concat (chunks stream)))
            | StreamError reason flushed =>
                (Rejected
                   (match reason with
                    | ThrownUndefined => ThrownError abortError
                    | ThrownError e => ThrownError e
                    end),
                 written (take flushed (concat (chunks stream))))
            end
        end
    end.

(** [fs.unlink(p)] *)
Definition unlink (p : string) : Async World unit :=
  fun w =>
    match deniesUnlink (fs w) p with
    | Some e => (Rejected (ThrownError e), w)
    | None =>
        match nodes (fs w) !! p with
        | None => (Rejected (ThrownError (enoent "unlink" p)), w)
        | Some Directory => (Rejected (ThrownError (eisdir "unlink")), w)
        | Some (File _) =>
            (Resolved tt,
             setFs
               (mkFileSystem (delete p (nodes (fs w)))
                  (deniesStat (fs w)) (deniesOpen (fs w)) (deniesUnlink (fs w)))
               w)
        end
    end.

(** The bytes that the [data] listener counts. *)
Definition totalBytes (stream : ByteStream) : nat :=
  length (concat (chunks stream)).

(** [HFClient.streamBlobToFile] *)
Definition streamBlobToFile (blob : Blob) (localPath : string)
  : Async World nat :=
  match blobStream blob with
  | None => throw (ThrownError (newError "Blob stream is null"))
  | Some stream =>
      tryCatch
        (do pipeline stream localPath in ret (totalBytes stream))
        (fun error =>
           do tryCatch (unlink localPath) (fun _ => ret tt) in
           throw error)
  end.

(** The [listOptions] that the operation of [validateRepository] builds. *)
Definition listOptionsOf (this : t) (repoId repoType : string)
  : ListFilesParams :=
  {| lf_repoName := repoId;
     lf_repoType := repoType;
     lf_accessToken :=
       if JsString.truthy (accessToken this) then accessToken this else None |}.

(** [HFClient.validateRepository] *)
Definition validateRepository (this : t) (env : Env)
    (repoId repoType : string) : Async World bool :=
  tryCatch
    (do withRetry (retryConfig this) sleep
          (callListFiles env (listOptionsOf this repoId repoType)) in
     ret true)
    (fun _ => ret false).

End HFClient.

(* ================================================================== *)
(** ** [class BatchManager] *)
(* ================================================================== *)

Module BatchManager.

(** The [for] loop of [createBatches].  The loop runs for ever when
    [batchSize] is 0 and there is a file; [fuel] bounds the iterations,
    and [None] is a loop that needs more. *)
Fixpoint createBatchesLoop (fuel : nat) (files : list ResolvedFile)
    (batchSize i : nat) (batches : list (list ResolvedFile))
  : option (list (list ResolvedFile)) :=
  if (i <? length files)%nat then
    match fuel with
    | O => None
    | S fuel' =>
        createBatchesLoop fuel' files batchSize (i + batchSize)%nat
          (batches ++ [slice files i (i + batchSize)%nat])
    end
  else Some batches.

(** [BatchManager.createBatches] *)
Definition createBatches (files : list ResolvedFile) (batchSize : nat)
  : option (list (list ResolvedFile)) :=
  createBatchesLoop (length files) files batchSize 0%nat [].

End BatchManager.

(* ================================================================== *)
(** ** [src/utils/files.ts] *)
(* ================================================================== *)

Module FileSystemUtils.

(** What [stat] answers. *)
Record Stats := mkStats {
  isFile : bool;
  size : nat
}.

(** The promisified [fs.stat]. *)
Definition stat (filePath : string) : Async World Stats :=
  fun w =>
    let w1 := logStat filePath w in
    match deniesStat (fs w) filePath with
    | Some e => (Rejected (ThrownError e), w1)
    | None =>
        match nodes (fs w) !! filePath with
        | None => (Rejected (ThrownError (enoent "stat" filePath)), w1)
        | Some Directory => (Resolved {| isFile := false; size := 4096 |}, w1)
        | Some (File content) =>
            (Resolved {| isFile := true; size := length content |}, w1)
        end
    end.

(** [FileSystemUtils.getFileSize]; [error.message.includes] throws when
    the error has no message. *)
Definition getFileSize (filePath : string) : Async World nat :=
  tryCatch
    (let* stats := stat filePath in
     if negb (isFile stats)
     then throw (ThrownError (newError ("Path is not a file: " +:+ filePath)))
     else ret (size stats))
    (fun error =>
       match error with
       | ThrownError e =>
           if err_instanceofError e then
             match err_message e with
             | None => throw (ThrownError (typeErrorReading "includes"))
             | Some m =>
                 if JsString.includes m "Path is not a file" then throw error
                 else
                   throw (ThrownError
                     (newError ("Cannot get file size for " +:+ filePath
                                +:+ ": " +:+ m)))
             end
           else
             throw (ThrownError
               (newError ("Cannot get file size for " +:+ filePath
                          +:+ ": Unknown error")))
       | ThrownUndefined =>
           throw (ThrownError
             (newError ("Cannot get file size for " +:+ filePath
                        +:+ ": Unknown error")))
       end).

(** [FileSystemUtils.getFileName] *)
Definition getFileName (filePath : string) : string := basename filePath.

End FileSystemUtils.

(* ================================================================== *)
(** ** [src/utils/pattern-resolver.ts] *)
(* ================================================================== *)

Module PatternResolver.

(** The [options] of [resolvePattern]; [None] is a key left out. *)
Record Options := mkOptions {
  cwd : option string;
  maxFiles : option Z
}.

(** [`${error}`] for what a [catch] receives. *)
Definition thrownToString (t : Thrown) : string :=
  match t with
  | ThrownUndefined => "undefined"
  | ThrownError e => errorToString e
  end.

(** [`${error.message}`] *)
Definition messageText (e : JsError) : string :=
  match err_message e with
  | Some m => m
  | None => "undefined"
  end.

(** The message of the error for a pattern that matches too much. *)
Definition tooManyMessage (matched : nat) (maxFiles : Z) : string :=
  "Pattern matched " +:+ pretty matched
  +:+ " files, which exceeds the maximum limit of " +:+ pretty maxFiles
  +:+ ". Please use a more specific pattern.".

Definition failedPrefix (pattern : string) : string :=
  "Failed to resolve pattern " +:+ JsString.dquote +:+ pattern
  +:+ JsString.dquote +:+ ": ".

(** The [for] loop over [matchedPaths]. *)
Fixpoint statLoop (matchedPaths : list string) (files : list ResolvedFile)
    (totalSize : nat) : Async World (list ResolvedFile * nat) :=
  match matchedPaths with
  | [] => ret (files, totalSize)
  | filePath :: rest =>
      fun w =>
        match FileSystemUtils.getFileSize filePath w with
        | (Resolved size, w1) =>
            statLoop rest
              (files ++ [{| rf_path := filePath; rf_size := size;
                            rf_fileName := FileSystemUtils.getFileName filePath |}])
              (totalSize + size)%nat w1
        | (Rejected error, w1) =>
            statLoop rest files totalSize
              (consoleWarn
                 ("Warning: Could not read file " +:+ filePath +:+ ": "
                  +:+ thrownToString error) w1)
        end
  end.

(** [PatternResolver.resolvePattern] *)
Definition resolvePattern (env : Env) (pattern : string) (options : Options)
  : Async World PatternResolution :=
  let cwd := default (processCwd env) (cwd options) in
  let maxFiles := default 10000 (maxFiles options) in
  tryCatch
    (let* matchedPaths := (fun w => (fgAsync env pattern cwd, w)) in
     if Z.of_nat (length matchedPaths) >? maxFiles then
       throw (ThrownError
         (newError (tooManyMessage (length matchedPaths) maxFiles)))
     else
       let* r := statLoop matchedPaths [] 0%nat in
       ret {| pr_totalFiles := length (fst r);
              pr_totalSize := snd r;
              pr_files := fst r |})
    (fun error =>
       match error with
       | ThrownError e =>
           if err_instanceofError e
           then throw (ThrownError
                  (newError (failedPrefix pattern +:+ messageText e)))
           else throw (ThrownError
                  (newError (failedPrefix pattern +:+ "Unknown error")))
       | ThrownUndefined =>
           throw (ThrownError
             (newError (failedPrefix pattern +:+ "Unknown error")))
       end).

End PatternResolver.

(* ================================================================== *)
(** ** Vocabulary of the properties *)
(* ================================================================== *)

(** The operation fails at every invocation, with an error that is not
    terminal. *)
Definition alwaysFailsRetryable {W T} (operation : Async W T) : Prop :=
  forall w, exists e w1,
    operation w = (Rejected (ThrownError e), w1) /\ shouldNotRetry e = false.

(** The files of a batch that the check of existence rejects. *)
Definition missingFiles (w : World) (batchFiles : list string) : list string :=
  List.filter (fun p => negb (HFClient.pathExists w p)) batchFiles.

(** The calls of [hfUploadFiles] made between two worlds. *)
Definition newUploadFilesCalls (before after : World) : list UploadFilesParams :=
  drop (length (uploadFilesCalls before)) (uploadFilesCalls after).

(** The matched paths whose size [getFileSize] can read, and the others. *)
Definition readable (w : World) (p : string) : bool :=
  isResolved (fst (FileSystemUtils.getFileSize p w)).

(** The line that [resolvePattern] warns with for a path. *)
Definition warningFor (w : World) (p : string) : string :=
  match fst (FileSystemUtils.getFileSize p w) with
  | Resolved _ => EmptyString
  | Rejected error =>
      "Warning: Could not read file " +:+ p +:+ ": "
      +:+ PatternResolver.thrownToString error
  end.

(** [failedFiles] of a result, the empty list when the key is left out. *)
Definition failedFilesOf (r : HFClient.MultiUploadResult) : list string :=
  default [] (HFClient.mr_failedFiles r).

(** The files of a batch as a call carries them: the files that exist,
    each with its base name and its blob. *)
Definition hubFilesOf (w : World) (batchFiles : list string) : list HubFile :=
  omap (fun p =>
          match snd (HFClient.prepareFile w p) with
          | Resolved file => file
          | Rejected _ => None
          end) batchFiles.

(** A batch is sent to the hub when the blob of every file of it that
    exists can be built, and one of its files exists. *)
Definition batchIsSent (w : World) (batchFiles : list string) : bool :=
  forallb (fun p => isResolved (snd (HFClient.prepareFile w p))) batchFiles
  && (0 <? length (hubFilesOf w batchFiles))%nat.

(** The request of batch [i] of an upload. *)
Definition batchRequest (this : HFClient.t)
    (options : HFClient.MultiUploadOptions) (w : World) (i : nat)
  : UploadFilesParams :=
  let l := HFClient.mo_filePaths options in
  HFClient.batchUploadOptions this options
    (ceilDiv (length l) HFClient.batchSize) i
    (hubFilesOf w (HFClient.batchFilesOf l i)).

(** An answer of the hub after which the retry executor calls no more: a
    result, or a failure that is not retried. *)
Definition answerIsFinal (answer : Outcome CommitOutput) : bool :=
  match answer with
  | Resolved _ => true
  | Rejected ThrownUndefined => true
  | Rejected (ThrownError e) => shouldNotRetry e
  end.

(** [k] calls are what the retry executor makes of one request, given
    [attempts] attempts, when the hub has answered [base] calls before:
    there is a call when there is an attempt, every call but the last is
    answered with a failure that is retried, and the last answer is final
    unless the attempts are used up. *)
Definition retried (attempts : nat) (answers : nat -> Outcome CommitOutput)
    (base k : nat) : Prop :=
  (k <= attempts)%nat
  /\ (0 < attempts -> 0 < k)%nat
  /\ (forall j, (S j < k)%nat -> answerIsFinal (answers (base + j)%nat) = false)
  /\ (0 < k -> k < attempts ->
      answerIsFinal (answers (base + k - 1)%nat) = true)%nat.

(** The calls that the hub has answered before the first call of batch
    [i], when batch [j] makes [count j] calls. *)
Definition callsBefore (base : nat) (count : nat -> nat) (i : nat) : nat :=
  (base + list_sum (map count (seq 0 i)))%nat.

(** [count] tells the calls of every batch of an upload in the world [w]:
    none for a batch that is not sent, and for a batch that is sent the
    calls of the retry executor. *)
Definition countsCalls (this : HFClient.t) (env : Env)
    (options : HFClient.MultiUploadOptions) (w : World) (count : nat -> nat)
  : Prop :=
  let l := HFClient.mo_filePaths options in
  forall i, (i < ceilDiv (length l) HFClient.batchSize)%nat ->
    if batchIsSent w (HFClient.batchFilesOf l i)
    then retried (Z.to_nat (maxRetries (HFClient.retryConfig this) + 1))
           (fun n => hfUploadFiles env n (batchRequest this options w i))
           (callsBefore (length (uploadFilesCalls w)) count i) (count i)
    else count i = 0%nat.

(** Batch [i] is uploaded: it made a call, and the hub accepted the last
    one. *)
Definition batchUploaded (this : HFClient.t) (env : Env)
    (options : HFClient.MultiUploadOptions) (w : World) (count : nat -> nat)
    (i : nat) : bool :=
  (0 <? count i)%nat
  && isResolved
       (hfUploadFiles env
          (callsBefore (length (uploadFilesCalls w)) count i + count i - 1)%nat
          (batchRequest this options w i)).

(* ================================================================== *)
(** ** Concrete worlds, used to run the definitions *)
(* ================================================================== *)

Module Examples.

(** A file system with the given nodes that refuses nothing. *)
Definition fsOf (l : list (string * Node)) : FileSystem :=
  {| nodes := list_to_map l;
     deniesStat := fun _ => None;
     deniesOpen := fun _ => None;
     deniesUnlink := fun _ => None |}.

(** The world before anything was called. *)
Definition worldOf (f : FileSystem) : World :=
  {| fs := f; uploadFileCalls := []; uploadFilesCalls := [];
     listFilesCalls := []; sleeps := []; statCalls := []; warnings := [] |}.

Definition networkError : JsError := newError "Network error".
Definition unauthorized : JsError := newError "401 Unauthorized".
Definition notFound : JsError := newError "404 Not Found".

(** An operation that fails at every invocation with a network error. *)
Definition networkDown : Async unit nat :=
  fun w => (Rejected (ThrownError networkError), w).

(** An operation that the hub refuses with a 401. *)
Definition refused : Async unit nat :=
  fun w => (Rejected (ThrownError unauthorized), w).

Definition noSleep : Z -> unit -> unit := fun _ w => w.

(** Two files under [/data]. *)
Definition twoFiles : FileSystem :=
  fsOf [("/data/a.bin", File [x61]); ("/data/b.bin", File [x62; x63])].

(** A hub that accepts everything, and a hub that cannot be reached. *)
Definition hubUp : Env :=
  {| hfUploadFile := fun _ _ => Resolved {| commit := Some "c0ffee" |};
     hfUploadFiles := fun _ _ => Resolved {| commit := Some "c0ffee" |};
     listFilesNext := fun _ _ => Resolved (Some "README.md");
     fgAsync := fun _ _ => Resolved [];
     processCwd := "/work" |}.

Definition hubDown : Env :=
  {| hfUploadFile := fun _ _ => Rejected (ThrownError networkError);
     hfUploadFiles := fun _ _ => Rejected (ThrownError networkError);
     listFilesNext := fun _ _ => Rejected (ThrownError networkError);
     fgAsync := fun _ _ => Resolved [];
     processCwd := "/work" |}.

Definition client : HFClient.t := HFClient.new (Some "hf_token").

Definition uploadOf (filePaths : list string) : HFClient.MultiUploadOptions :=
  {| HFClient.mo_repoId := "user/repo";
     HFClient.mo_filePaths := filePaths;
     HFClient.mo_token := None;
     HFClient.mo_repoType := "model";
     HFClient.mo_message := None |}.

Definition uploadTwo : HFClient.MultiUploadOptions :=
  uploadOf ["/data/a.bin"; "/data/b.bin"].

Definition uploadGone : HFClient.MultiUploadOptions :=
  uploadOf ["/data/gone.bin"].

Definition uploadWithGone : HFClient.MultiUploadOptions :=
  uploadOf ["/data/a.bin"; "/data/gone.bin"].

(** A hub that accepts an upload and answers without a commit. *)
Definition hubNoCommit : Env :=
  {| hfUploadFile := fun _ _ => Resolved {| commit := None |};
     hfUploadFiles := fun _ _ => Resolved {| commit := None |};
     listFilesNext := fun _ _ => Resolved None;
     fgAsync := fun _ _ => Resolved [];
     processCwd := "/work" |}.

(** A hub on which the repository is not found. *)
Definition hubNotFound : Env :=
  {| hfUploadFile := fun _ _ => Rejected (ThrownError notFound);
     hfUploadFiles := fun _ _ => Rejected (ThrownError notFound);
     listFilesNext := fun _ _ => Rejected (ThrownError notFound);
     fgAsync := fun _ _ => Resolved [];
     processCwd := "/work" |}.

(** The directory of the scenario of the specification, and a glob that
    matched [a.txt], [b.txt] and a file that is gone by the time of the
    [stat]. *)
Definition txtFiles : FileSystem :=
  fsOf [("/work/a.txt", File (repeat x61 10));
        ("/work/b.txt", File (repeat x62 20));
        ("/work/c.bin", File (repeat x63 5))].

Definition globTxt : Env :=
  {| hfUploadFile := fun _ _ => Rejected (ThrownError networkError);
     hfUploadFiles := fun _ _ => Rejected (ThrownError networkError);
     listFilesNext := fun _ _ => Rejected (ThrownError networkError);
     fgAsync := fun _ _ =>
       Resolved ["/work/a.txt"; "/work/gone.txt"; "/work/b.txt"];
     processCwd := "/work" |}.

(** A glob that matches [n] files. *)
Definition globMany (n : nat) : Env :=
  {| hfUploadFile := fun _ _ => Rejected (ThrownError networkError);
     hfUploadFiles := fun _ _ => Rejected (ThrownError networkError);
     listFilesNext := fun _ _ => Rejected (ThrownError networkError);
     fgAsync := fun _ _ => Resolved (replicate n "/work/f.txt");
     processCwd := "/work" |}.

(** A glob that fails on a directory it may not read. *)
Definition globDenied : Env :=
  {| hfUploadFile := fun _ _ => Rejected (ThrownError networkError);
     hfUploadFiles := fun _ _ => Rejected (ThrownError networkError);
     listFilesNext := fun _ _ => Rejected (ThrownError networkError);
     fgAsync := fun _ _ =>
       Rejected (ThrownError
         (newError "EACCES: permission denied, scandir '/work/private'"));
     processCwd := "/work" |}.

Definition defaultOptions : PatternResolver.Options :=
  {| PatternResolver.cwd := None; PatternResolver.maxFiles := None |}.

(** A hub whose single-file upload fails twice and then succeeds, and a
    hub that refuses the token. *)
Definition hubFlaky : Env :=
  {| hfUploadFile := fun n _ =>
       if (n <? 2)%nat then Rejected (ThrownError networkError)
       else Resolved {| commit := Some "test-commit-sha" |};
     hfUploadFiles := fun _ _ => Rejected (ThrownError networkError);
     listFilesNext := fun _ _ => Rejected (ThrownError networkError);
     fgAsync := fun _ _ => Resolved [];
     processCwd := "/work" |}.

Definition hubUnauthorized : Env :=
  {| hfUploadFile := fun _ _ => Rejected (ThrownError unauthorized);
     hfUploadFiles := fun _ _ => Rejected (ThrownError unauthorized);
     listFilesNext := fun _ _ => Rejected (ThrownError unauthorized);
     fgAsync := fun _ _ => Resolved [];
     processCwd := "/work" |}.

(** A hub that accepts the first multi-file call and no other. *)
Definition hubFirstCallOnly : Env :=
  {| hfUploadFile := fun _ _ => Rejected (ThrownError networkError);
     hfUploadFiles := fun n _ =>
       if (n =? 0)%nat then Resolved {| commit := Some "c0ffee" |}
       else Rejected (ThrownError networkError);
     listFilesNext := fun _ _ => Rejected (ThrownError networkError);
     fgAsync := fun _ _ => Resolved [];
     processCwd := "/work" |}.

(** [new HFClient("test-token", { maxRetries, baseDelay: 10, maxDelay: 100 })] *)
Definition clientWith (maxRetries : Z) : HFClient.t :=
  {| HFClient.accessToken := Some "test-token";
     HFClient.retryConfig := mkRetryConfig maxRetries 10 100 |}.

(** [n] empty files [/data/f0], [/data/f1], ... *)
Definition manyPaths (n : nat) : list string :=
  map (fun i => "/data/f" +:+ pretty i) (seq 0 n).

Definition manyFiles (n : nat) : FileSystem :=
  fsOf (map (fun p => (p, File [])) (manyPaths n)).

Definition uploadOne : HFClient.UploadOptions :=
  {| HFClient.uo_repoId := "user/repo";
     HFClient.uo_filePath := "/data/a.bin";
     HFClient.uo_token := None;
     HFClient.uo_repoType := "model";
     HFClient.uo_message := None |}.

(** A download whose stream breaks after two chunks, before any of their
    bytes has reached the file. *)
Definition connectionReset : JsError := newError "ECONNRESET: socket hang up".

Definition brokenStream : HFClient.ByteStream :=
  {| HFClient.chunks := [[x68; x65]; [x6c]];
     HFClient.ending := HFClient.StreamError (ThrownError connectionReset) 0 |}.

Definition brokenBlob : HFClient.Blob :=
  {| HFClient.blobStream := Some brokenStream |}.

(** A file system whose operating system refuses to unlink under
    [/locked] (a directory where entries may be created and not removed). *)
Definition eperm : JsError := newError "EPERM: operation not permitted, unlink".

Definition lockedFs : FileSystem :=
  {| nodes := ∅;
     deniesStat := fun _ => None;
     deniesOpen := fun _ => None;
     deniesUnlink :=
       fun p => if JsString.startsWith p "/locked/" then Some eperm else None |}.

End Examples.

(* ================================================================== *)
(** ** Further vocabulary *)
(* ================================================================== *)

(** The eight texts that [HFClient.handleError] looks for in a message. *)
Definition handleErrorKeywords : list string :=
  ["401"; "403"; "authentication"; "404"; "429"; "rate limit";
   "ENOENT"; "EACCES"].

(** No text of [handleErrorKeywords] occurs in [m]. *)
Definition noKeyword (m : string) : bool :=
  forallb (fun k => negb (JsString.includes m k)) handleErrorKeywords.

(** An operation on the world that leaves the log of the sleeps alone. *)
Definition keepsSleeps {T} (operation : Async World T) : Prop :=
  forall w, sleeps (snd (operation w)) = sleeps w.

(** The delays of the first [n] retries. *)
Definition backoffDelays (cfg : RetryConfig) (n : nat) : list Z :=
  map (fun j => backoffDelay cfg (Z.of_nat j)) (seq 0 n).

(* ================================================================== *)
(** ** [src/client/hf-client.ts]: downloads *)
(* ================================================================== *)

Module Download.

(** [interface DownloadOptions] *)
Record DownloadOptions := mkDownloadOptions {
  do_repoId : string;
  do_filePath : string;
  do_token : option string;
  do_repoType : string;
  do_localDir : option string
}.

(** [interface DownloadResult] *)
Record DownloadResult := mkDownloadResult {
  dr_success : bool;
  dr_localPath : option string;
  dr_fileSize : option nat;
  dr_error : option string
}.

(** The parameters of [hfDownloadFile]. *)
Record DownloadFileParams := mkDownloadFileParams {
  df_repo : string;
  df_path : string;
  df_xet : bool;
  df_accessToken : option string
}.

(** What [downloadFile] calls outside the repository: [path.join] and
    [path.dirname] of Node.js, [fs.ensureDir] of fs-extra, and
    [hfDownloadFile] of the hub, which answers with a blob or with nothing
    ([null]); the [nat] is the number of calls made before. *)
Record Lib := mkLib {
  pathJoin : string -> string -> string;
  pathDirname : string -> string;
  ensureDir : string -> Async World unit;
  hfDownloadFile : nat -> DownloadFileParams -> Outcome (option HFClient.Blob)
}.

(** The world with the log of the calls of [hfDownloadFile]. *)
Record DWorld := mkDWorld {
  world : World;
  downloadFileCalls : list DownloadFileParams
}.

(** An operation on the world, run in the world with the log. *)
Definition lift {A} (m : Async World A) : Async DWorld A :=
  fun dw =>
    let '(o, w1) := m (world dw) in (o, mkDWorld w1 (downloadFileCalls dw)).

(** [HFClient.sleep] in the world with the log. *)
Definition sleepD (ms : Z) (dw : DWorld) : DWorld :=
  mkDWorld (sleep ms (world dw)) (downloadFileCalls dw).

(** [HFClient.validateDownloadInputs] *)
Definition validateDownloadInputs (options : DownloadOptions) : Outcome unit :=
  if HFClient.isBlank (do_repoId options)
  then Rejected (ThrownError HFClient.repoIdRequired)
  else if HFClient.isBlank (do_filePath options) then
    Rejected (ThrownError
      (HFClient.createError VALIDATION_ERROR "File path is required"
         (Some "Please provide a valid file path to download")))
  else if negb (HFClient.isValidRepoType (do_repoType options)) then
    Rejected (ThrownError (HFClient.invalidRepoType (do_repoType options)))
  else Resolved tt.

(** The [downloadOptions] that the operation of [downloadFile] builds. *)
Definition downloadOptionsOf (this : HFClient.t) (options : DownloadOptions)
  : DownloadFileParams :=
  {| df_repo := do_repoId options;
     df_path := do_filePath options;
     df_xet := true;
     df_accessToken := HFClient.tokenFor this (do_token options) |}.

(** The call of [hfDownloadFile], logged. *)
Definition callDownloadFile (lib : Lib) (p : DownloadFileParams)
  : Async DWorld (option HFClient.Blob) :=
  fun dw =>
    (hfDownloadFile lib (length (downloadFileCalls dw)) p,
     mkDWorld (world dw) (downloadFileCalls dw ++ [p])).

(** [path.join(options.localDir || process.cwd(), path.basename(filePath))] *)
Definition localPathOf (env : Env) (lib : Lib) (options : DownloadOptions)
  : string :=
  pathJoin lib (JsString.orElse (do_localDir options) (processCwd env))
    (basename (do_filePath options)).

(** [HFClient.downloadFile] *)
Definition downloadFile (this : HFClient.t) (env : Env) (lib : Lib)
    (options : DownloadOptions) : Async DWorld DownloadResult :=
  tryCatch
    (do (fun dw => (validateDownloadInputs options, dw)) in
     let localPath := localPathOf env lib options in
     do lift (ensureDir lib (pathDirname lib localPath)) in
     let* response :=
       withRetry (HFClient.retryConfig this) sleepD
         (callDownloadFile lib (downloadOptionsOf this options)) in
     match response with
     | None =>
         throw (ThrownError (newError "Download failed: No response received"))
     | Some blob =>
         let* fileSize := lift (HFClient.streamBlobToFile blob localPath) in
         ret {| dr_success := true;
                dr_localPath := Some localPath;
                dr_fileSize := Some fileSize;
                dr_error := None |}
     end)
    (fun error =>
       let* e := (fun dw => (HFClient.handleError error, dw)) in
       ret {| dr_success := false; dr_localPath := None; dr_fileSize := None;
              dr_error := err_message e |}).

End Download.

(* ================================================================== *)
(** ** [src/utils/files.ts]: the checks of a path *)
(* ================================================================== *)

Module FileChecks.

(** The promisified [fs.access(p, fs.constants.F_OK)]: it fails where
    [stat] fails. *)
Definition access (filePath : string) : Async World unit :=
  fun w =>
    match deniesStat (fs w) filePath with
    | Some e => (Rejected (ThrownError e), w)
    | None =>
        match nodes (fs w) !! filePath with
        | None => (Rejected (ThrownError (enoent "access" filePath)), w)
        | Some _ => (Resolved tt, w)
        end
    end.

(** [FileSystemUtils.exists] *)
Definition exists_ (filePath : string) : Async World bool :=
  tryCatch (do access filePath in ret true) (fun _ => ret false).

(** [FileSystemUtils.isFile] *)
Definition isFile (filePath : string) : Async World bool :=
  tryCatch
    (let* stats := FileSystemUtils.stat filePath in
     ret (FileSystemUtils.isFile stats))
    (fun _ => ret false).

(** The result of a validation; [None] is an [error] left out. *)
Record Validation := mkValidation {
  valid : bool;
  error : option string
}.

(** [FileSystemUtils.validateFilePath]; [resolve] is [path.resolve] of
    Node.js in the current directory of the process. *)
Definition validateFilePath (resolve : string -> string) (filePath : string)
  : Async World Validation :=
  if HFClient.isBlank filePath then
    ret {| valid := false; error := Some "File path cannot be empty" |}
  else
    let normalizedPath := resolve filePath in
    let* exists' := exists_ normalizedPath in
    if negb exists' then
      ret {| valid := false;
             error := Some ("File does not exist: " +:+ normalizedPath) |}
    else
      let* isFile' := isFile normalizedPath in
      if negb isFile' then
        ret {| valid := false;
               error := Some ("Path is not a file: " +:+ normalizedPath) |}
      else ret {| valid := true; error := None |}.

End FileChecks.

(* ================================================================== *)
(** ** [src/utils/pattern-resolver.ts]: the check of a pattern *)
(* ================================================================== *)

Module PatternChecks.

(** [toLowerCase] on a code unit below 256: the letters [A] to [Z] and the
    letters from U+00C0 to U+00DE, without the sign U+00D7, move by 32. *)
Definition toLowerCaseUnit (c : ascii) : ascii :=
  let n := nat_of_ascii c in
  if ((65 <=? n)%nat && (n <=? 90)%nat)
     || ((192 <=? n)%nat && (n <=? 222)%nat && negb (n =? 215)%nat)
  then ascii_of_nat (n + 32)
  else c.

(** [s.toLowerCase()] *)
Fixpoint toLowerCase (s : string) : string :=
  match s with
  | EmptyString => EmptyString
  | String c rest => String (toLowerCaseUnit c) (toLowerCase rest)
  end.

Definition dangerousPatterns : list string :=
  ["/**/*"; "/etc/**/*"; "/usr/**/*"; "/var/**/*"; "/home/**/*"; "~/**/*"].

(** [PatternResolver.isValidPattern] *)
Definition isValidPattern (pattern : string) : bool :=
  if HFClient.isBlank pattern then false
  else
    let normalizedPattern := JsString.trim (toLowerCase pattern) in
    negb (existsb
            (fun dangerous =>
               JsString.startsWith normalizedPattern (toLowerCase dangerous))
            dangerousPatterns).

End PatternChecks.

(* ================================================================== *)
(** ** [src/utils/batch-manager.ts]: [processBatches] *)
(* ================================================================== *)

Module BatchRun.

(** [interface BatchProgress] *)
Record BatchProgress := mkBatchProgress {
  currentBatch : nat;
  totalBatches : nat;
  filesProcessed : nat;
  totalFiles : nat;
  currentBatchSize : nat
}.

(** [Partial<BatchOperationOptions>]; [None] is a key left out. *)
Record BatchOperationOptions := mkBatchOperationOptions {
  batchSize : option nat;
  maxConcurrency : option nat;
  delayBetweenBatches : option Z
}.

(** What a run of [processBatches] leaves behind: the calls of the
    processor with their arguments, the sleeps, and the lines of
    [console.log]. *)
Record Trace := mkTrace {
  processorCalls : list (list ResolvedFile * BatchProgress);
  slept : list Z;
  logged : list string
}.

Definition logCall (batch : list ResolvedFile) (progress : BatchProgress)
    (tr : Trace) : Trace :=
  mkTrace (processorCalls tr ++ [(batch, progress)]) (slept tr) (logged tr).

(** [BatchManager.sleep] *)
Definition sleep (ms : Z) (tr : Trace) : Trace :=
  mkTrace (processorCalls tr) (slept tr ++ [ms]) (logged tr).

(** [console.log(line)] *)
Definition consoleLog (line : string) (tr : Trace) : Trace :=
  mkTrace (processorCalls tr) (slept tr) (logged tr ++ [line]).

(** The loop over the groups, seen after a number of iterations: it has
    ended, a [Promise.all] has rejected (with one of [reasons]), or it is
    still running; [tr] is what it has left behind by then. *)
Inductive Groups (T : Type) :=
| GroupsDone (results : list T) (done_ : nat) (tr : Trace)
| GroupsRejected (reasons : list Thrown) (tr : Trace)
| GroupsRunning (tr : Trace).
Arguments GroupsDone {T} results done_ tr.
Arguments GroupsRejected {T} reasons tr.
Arguments GroupsRunning {T} tr.

(** A run of [processBatches], seen likewise: it has returned a promise
    that resolves with the results or rejects with one of the reasons, or
    it is still in a loop. *)
Inductive Run (T : Type) :=
| Returned (result : AllSettled T) (tr : Trace)
| Running (tr : Trace).
Arguments Returned {T} result tr.
Arguments Running {T} tr.

Section Processor.
Context {T : Type}.

(** [BatchProcessor<T>]: how the promise of a call settles; the [nat] is
    the number of calls made before. *)
Variable processor : nat -> list ResolvedFile -> BatchProgress -> Outcome T.

Variable batches : list (list ResolvedFile).
Variable nBatches nFiles : nat.

(** The inner [for] loop that calls the processor for the batches [j],
    [j + 1], ... of a group; [count] is [endIndex - j].  [batches[j]] is
    read below [batches.length] only. *)
Fixpoint callLoop (done_ : nat) (count j : nat) (tr : Trace)
  : list (Outcome T) * Trace :=
  match count with
  | O => ([], tr)
  | S count' =>
      let batch := nth j batches [] in
      let progress :=
        {| currentBatch := j + 1;
           totalBatches := nBatches;
           filesProcessed := done_;
           totalFiles := nFiles;
           currentBatchSize := length batch |} in
      let promise := processor (length (processorCalls tr)) batch progress in
      let '(promises, tr1) := callLoop done_ count' (S j) (logCall batch progress tr) in
      (promise :: promises, tr1)
  end.

(** The inner [for] loop that updates [filesProcessed]. *)
Fixpoint countLoop (count j : nat) (done_ : nat) : nat :=
  match count with
  | O => done_
  | S count' => countLoop count' (S j) (done_ + length (nth j batches []))%nat
  end.

(** The outer [for] loop, over the groups.  It runs for ever when
    [maxConcurrency] is 0; [fuel] bounds the iterations that are
    observed. *)
Fixpoint groupLoop (fuel : nat) (maxConcurrency' : nat) (delay : Z)
    (i : nat) (results : list T) (done_ : nat) (tr : Trace)
  : Groups T :=
  if (i <? nBatches)%nat then
    match fuel with
    | O => GroupsRunning tr
    | S fuel' =>
        let endIndex := Nat.min (i + maxConcurrency') nBatches in
        let '(batchPromises, tr1) := callLoop done_ (endIndex - i) i tr in
        match HFClient.promiseAll batchPromises with
        | FirstRejected reasons => GroupsRejected reasons tr1
        | AllResolved batchResults =>
            let done1 := countLoop (endIndex - i) i done_ in
            let tr2 :=
              if (0 <? delay) && (endIndex <? nBatches)%nat
              then sleep delay tr1 else tr1 in
            groupLoop fuel' maxConcurrency' delay (i + maxConcurrency')%nat
              (results ++ batchResults) done1 tr2
        end
    end
  else GroupsDone results done_ tr.

End Processor.

(** [BatchManager.processBatches].  The loop over the groups is observed
    for as many iterations as there are batches, which is enough for it to
    end when [maxConcurrency] is not 0. *)
Definition processBatches {T} (files : list ResolvedFile)
    (processor : nat -> list ResolvedFile -> BatchProgress -> Outcome T)
    (options : BatchOperationOptions) (tr : Trace)
  : Run T :=
  let batchSize' := default 1000%nat (batchSize options) in
  let maxConcurrency' := default 1%nat (maxConcurrency options) in
  let delay := default 100 (delayBetweenBatches options) in
  if (length files =? 0)%nat then Returned (AllResolved []) tr
  else
    match BatchManager.createBatches files batchSize' with
    | None => Running tr
    | Some batches =>
        let nBatches := length batches in
        let nFiles := length files in
        let tr1 :=
          consoleLog
            ("Processing " +:+ pretty nFiles +:+ " files in "
             +:+ pretty nBatches +:+ " batch(es) (max " +:+ pretty batchSize'
             +:+ " files per batch)") tr in
        match
          groupLoop processor batches nBatches nFiles nBatches
            maxConcurrency' delay 0%nat [] 0%nat tr1
        with
        | GroupsRunning tr2 => Running tr2
        | GroupsRejected reasons tr2 => Returned (FirstRejected reasons) tr2
        | GroupsDone results done_ tr2 =>
            Returned (AllResolved results)
              (consoleLog
                 ("Successfully processed " +:+ pretty done_
                  +:+ " files in " +:+ pretty nBatches +:+ " batch(es)") tr2)
        end
    end.

End BatchRun.

(** The batch [j] of [files] cut by [size], and the progress that
    [processBatches] passes with it when [conc] batches run together:
    [filesProcessed] counts the batches before the group of [j]. *)
Definition batchAt (files : list ResolvedFile) (size j : nat)
  : list ResolvedFile :=
  take size (drop (j * size) files).

Definition progressAt (files : list ResolvedFile) (size conc j : nat)
  : BatchRun.BatchProgress :=
  {| BatchRun.currentBatch := j + 1;
     BatchRun.totalBatches := ceilDiv (length files) size;
     BatchRun.filesProcessed := j / conc * conc * size;
     BatchRun.totalFiles := length files;
     BatchRun.currentBatchSize := length (batchAt files size j) |}.

(* ================================================================== *)
(** ** Further concrete worlds *)
(* ================================================================== *)

Module MoreExamples.

(** A download that arrives whole: five bytes in two chunks. *)
Definition helloStream : HFClient.ByteStream :=
  {| HFClient.chunks := [[x68; x65]; [x6c; x6c; x6f]];
     HFClient.ending := HFClient.StreamDone |}.

Definition helloBlob : HFClient.Blob :=
  {| HFClient.blobStream := Some helloStream |}.

(** The directory of a path with a slash that is not its first character. *)
Definition dirnameOf (p : string) : string :=
  String.substring 0 (String.length p - String.length (basename p) - 1) p.

(** The library of a POSIX system where every directory can be made, and a
    hub that answers every download with [answer]. *)
Definition libOf (answer : nat -> Outcome (option HFClient.Blob)) : Download.Lib :=
  {| Download.pathJoin := fun a b => a +:+ "/" +:+ b;
     Download.pathDirname := dirnameOf;
     Download.ensureDir := fun _ => ret tt;
     Download.hfDownloadFile := fun n _ => answer n |}.

Definition downloadModel : Download.DownloadOptions :=
  {| Download.do_repoId := "user/repo";
     Download.do_filePath := "weights/model.bin";
     Download.do_token := None;
     Download.do_repoType := "model";
     Download.do_localDir := Some "/downloads" |}.

Definition dworldOf (f : FileSystem) : Download.DWorld :=
  {| Download.world := Examples.worldOf f; Download.downloadFileCalls := [] |}.

(** A destination that is there and may not be opened. *)
Definition eacces : JsError :=
  newError "EACCES: permission denied, open '/downloads/model.bin'".

Definition readOnlyFs : FileSystem :=
  {| nodes := {["/downloads/model.bin" := File [x6f; x6c; x64]]};
     deniesStat := fun _ => None;
     deniesOpen := fun p =>
       if String.eqb p "/downloads/model.bin" then Some eacces else None;
     deniesUnlink := fun _ => None |}.

(** Two files with the same name in two directories. *)
Definition sameNames : FileSystem :=
  Examples.fsOf [("/a/config.json", File [x61]); ("/b/config.json", File [x62])].

(** [n] files [/data/f0], [/data/f1], ... of 0, 1, ... bytes. *)
Definition resolvedFiles (n : nat) : list ResolvedFile :=
  map (fun i => {| rf_path := "/data/f" +:+ pretty i; rf_size := i;
                   rf_fileName := "f" +:+ pretty i |}) (seq 0 n).

(** A processor that answers with the number of the batch. *)
Definition numbering (n : nat) (batch : list ResolvedFile)
    (progress : BatchRun.BatchProgress) : Outcome nat :=
  Resolved (BatchRun.currentBatch progress).

(** A processor whose call number [k] fails, and no other. *)
Definition failingAt (k : nat) (n : nat) (batch : list ResolvedFile)
    (progress : BatchRun.BatchProgress) : Outcome nat :=
  if (n =? k)%nat then Rejected (ThrownError Examples.networkError)
  else Resolved (BatchRun.currentBatch progress).

Definition emptyTrace : BatchRun.Trace := BatchRun.mkTrace [] [] [].

End MoreExamples.

(* ================================================================== *)
(** * Properties *)
(* ================================================================== *)

#[local] Open Scope list_scope.

(** ** Strings *)

Lemma string_app_cons (c : ascii) (p q : string) : String c p +:+ q = String c (p +:+ q).
Proof. reflexivity. Qed.
Lemma string_app_nil_l (q : string) : EmptyString +:+ q = q.
Proof. reflexivity. Qed.
Lemma prefix_app (p s : string) :
  String.prefix p s = true <-> exists post, s = p +:+ post.
Proof.
  revert s. induction p as [|c p IH]; intros s.
  - split; [intros _; by exists s | intros _; by destruct s].
  - destruct s as [|d s]; simpl.
    + split; [done | intros [post H]; discriminate].
    + destruct (ascii_dec c d) as [Heq|Hne].
      * subst d. rewrite IH.
        split; intros [post H]; exists post; rewrite string_app_cons in *; congruence.
      * split; [done | intros [post H]; rewrite string_app_cons in H; congruence].
Qed.
(** [includes] finds exactly the substrings. *)
Lemma includes_substring (hay needle : string) :
  JsString.includes hay needle = true
  <-> exists pre post, hay = pre +:+ needle +:+ post.
Proof.
  induction hay as [|c hay IH].
  - unfold JsString.includes. rewrite prefix_app. split.
    + intros [post H]. by exists EmptyString, post.
    + intros [pre [post H]]. destruct pre; [|discriminate].
      rewrite string_app_nil_l in H. by exists post.
  - change (JsString.includes (String c hay) needle)
      with (String.prefix needle (String c hay) || JsString.includes hay needle).
    rewrite orb_true_iff, IH, prefix_app. split.
    + intros [[post H]|[pre [post H]]].
      * by exists EmptyString, post.
      * exists (String c pre), post. rewrite string_app_cons. by rewrite H.
    + intros [pre [post H]]. destruct pre as [|d pre].
      * left. by exists post.
      * right. exists pre, post. rewrite string_app_cons in H. congruence.
Qed.

(** ** The retry executor *)

(** [shouldNotRetry] holds exactly for a message that carries one of the
    five codes. *)
Lemma shouldNotRetry_codes (e : JsError) :
  shouldNotRetry e = true
  <-> exists code, code ∈ ["401"; "403"; "400"; "422"; "404"]
                   /\ messageIncludes e code = true.
Proof.
  unfold shouldNotRetry. split.
  - destruct (messageIncludes e "401") eqn:H1;
      [intros _; exists "401"; split; [set_solver | done]|].
    destruct (messageIncludes e "403") eqn:H2;
      [intros _; exists "403"; split; [set_solver | done]|].
    destruct (messageIncludes e "400") eqn:H3;
      [intros _; exists "400"; split; [set_solver | done]|].
    destruct (messageIncludes e "422") eqn:H4;
      [intros _; exists "422"; split; [set_solver | done]|].
    destruct (messageIncludes e "404") eqn:H5;
      [intros _; exists "404"; split; [set_solver | done]|].
    done.
  - intros [code [Hin Hinc]].
    repeat (apply elem_of_cons in Hin as [->|Hin]);
      [..|by apply elem_of_nil in Hin]; rewrite Hinc;
      repeat (rewrite ?orb_true_r; simpl); try done;
      repeat (case_match; try done).
Qed.

Section RetryProperties.
Context {W T : Type}.
Variable sleepW : Z -> W -> W.
Variable operation : Async W T.

Lemma counted_run (n : nat) (w w1 : W) (r : Outcome T) :
  operation w = (r, w1) -> counted operation (n, w) = (r, (S n, w1)).
Proof. intros H. unfold counted. by rewrite H. Qed.

Lemma retryLoop_step (cfg : RetryConfig) (sl : Z -> nat * W -> nat * W)
    (r : nat) (attempt : Z) (last : Thrown) (e : JsError) (s s1 : nat * W) :
  counted operation s = (Rejected (ThrownError e), s1) ->
  shouldNotRetry e = false ->
  retryLoop cfg sl (counted operation) (S r) attempt last s
  = if attempt =? maxRetries cfg then (Rejected (ThrownError e), s1)
    else retryLoop cfg sl (counted operation) r (attempt + 1) (ThrownError e)
           (sl (backoffDelay cfg attempt) s1).
Proof. intros Hop Hretry. cbn [retryLoop]. by rewrite Hop, Hretry. Qed.

Lemma retryLoop_exhausts (cfg : RetryConfig) :
  alwaysFailsRetryable operation ->
  forall (remaining : nat) (attempt : Z) (last : Thrown) (n : nat) (w : W),
    attempt + Z.of_nat remaining = maxRetries cfg + 1 ->
    (0 < remaining)%nat ->
    exists e w0 w1,
      retryLoop cfg (sleepCounted sleepW) (counted operation)
        remaining attempt last (n, w)
      = (Rejected (ThrownError e), ((n + remaining)%nat, w1))
      /\ operation w0 = (Rejected (ThrownError e), w1)
      /\ shouldNotRetry e = false.
Proof.
  intros Hfail remaining.
  induction remaining as [|r IH]; intros attempt last n w Hsum Hpos; [lia|].
  destruct (Hfail w) as (e & w1 & Hop & Hretry).
  rewrite (retryLoop_step cfg _ r attempt last e (n, w) (S n, w1));
    [|by apply counted_run|done].
  destruct (attempt =? maxRetries cfg) eqn:Hlast.
  - apply Z.eqb_eq in Hlast. assert (r = 0%nat) as -> by lia.
    exists e, w, w1. repeat split; try done. do 2 f_equal. lia.
  - apply Z.eqb_neq in Hlast.
    destruct (IH (attempt + 1) (ThrownError e) (S n)
                (sleepW (backoffDelay cfg attempt) w1))
      as (e' & w0 & w2 & Hrun & Hop' & Hretry'); [lia | lia |].
    exists e', w0, w2.
    change (sleepCounted sleepW (backoffDelay cfg attempt) (S n, w1))
      with (S n, sleepW (backoffDelay cfg attempt) w1).
    rewrite Hrun. repeat split; try done. do 2 f_equal. lia.
Qed.

(** C3. With [maxRetries = k], an operation that fails at every attempt
    with an error that is not terminal is invoked exactly [k + 1] times,
    and [withRetry] then rejects with the error of the last attempt; with
    the default configuration that is 4 invocations. *)
Theorem withRetry_attempts_when_always_failing :
  alwaysFailsRetryable operation ->
  (forall (cfg : RetryConfig) (n : nat) (w : W),
      0 <= maxRetries cfg ->
      exists e w0 w1,
        withRetry cfg (sleepCounted sleepW) (counted operation) (n, w)
        = (Rejected (ThrownError e), ((n + (Z.to_nat (maxRetries cfg) + 1))%nat, w1))
        /\ operation w0 = (Rejected (ThrownError e), w1)
        /\ shouldNotRetry e = false)
  /\ (forall (n : nat) (w : W),
      exists e w1,
        withRetry DEFAULT_RETRY_CONFIG (sleepCounted sleepW) (counted operation) (n, w)
        = (Rejected (ThrownError e), ((n + 4)%nat, w1))).
Proof.
  intros Hfail.
  assert (forall (cfg : RetryConfig) (n : nat) (w : W),
      0 <= maxRetries cfg ->
      exists e w0 w1,
        withRetry cfg (sleepCounted sleepW) (counted operation) (n, w)
        = (Rejected (ThrownError e), ((n + (Z.to_nat (maxRetries cfg) + 1))%nat, w1))
        /\ operation w0 = (Rejected (ThrownError e), w1)
        /\ shouldNotRetry e = false) as Hgen.
  { intros cfg n w Hk. unfold withRetry.
    destruct (retryLoop_exhausts cfg Hfail (Z.to_nat (maxRetries cfg + 1)) 0
                ThrownUndefined n w) as (e & w0 & w1 & Hrun & Hop & Hr);
      [lia | lia |].
    exists e, w0, w1. rewrite Hrun. repeat split; try done.
    do 2 f_equal. lia. }
  split; [exact Hgen|].
  intros n w.
  destruct (Hgen DEFAULT_RETRY_CONFIG n w) as (e & w0 & w1 & Hrun & _);
    [simpl; lia|].
  exists e, w1. rewrite Hrun. done.
Qed.

(** C4. An operation whose first failure carries 401, 403, 400, 422 or
    404 in its message is invoked once, and [withRetry] rejects with the
    very value that the operation rejected with. *)
Theorem withRetry_terminal_error_once (cfg : RetryConfig) (code : string)
    (e : JsError) (n : nat) (w w1 : W) :
  0 <= maxRetries cfg ->
  code ∈ ["401"; "403"; "400"; "422"; "404"] ->
  messageIncludes e code = true ->
  operation w = (Rejected (ThrownError e), w1) ->
  withRetry cfg (sleepCounted sleepW) (counted operation) (n, w)
  = (Rejected (ThrownError e), (S n, w1)).
Proof.
  intros Hk Hcode Hinc Hop.
  assert (shouldNotRetry e = true) as Hterm
    by (apply shouldNotRetry_codes; eauto).
  unfold withRetry.
  destruct (Z.to_nat (maxRetries cfg + 1)) as [|r] eqn:Hr; [lia|].
  cbn [retryLoop]. by rewrite (counted_run n w w1 _ Hop), Hterm.
Qed.
End RetryProperties.

(** With two retries, an operation that always fails with a network error
    is invoked three times; with the default configuration, four times. *)
Lemma withRetry_attempts_witness :
  alwaysFailsRetryable Examples.networkDown
  /\ (exists e w0 w1,
        withRetry (mkRetryConfig 2 10 100) (sleepCounted Examples.noSleep)
          (counted Examples.networkDown) (0%nat, tt)
        = (Rejected (ThrownError e), (3%nat, w1))
        /\ Examples.networkDown w0 = (Rejected (ThrownError e), w1)
        /\ shouldNotRetry e = false)
  /\ (exists e w1,
        withRetry DEFAULT_RETRY_CONFIG (sleepCounted Examples.noSleep)
          (counted Examples.networkDown) (0%nat, tt)
        = (Rejected (ThrownError e), (4%nat, w1))).
Proof.
  assert (alwaysFailsRetryable Examples.networkDown) as Hfail.
  { intros w. exists Examples.networkError, w. split; reflexivity. }
  split; [exact Hfail|].
  destruct (withRetry_attempts_when_always_failing Examples.noSleep
              Examples.networkDown Hfail) as [Hgen Hdefault].
  split.
  - apply (Hgen (mkRetryConfig 2 10 100) 0%nat tt). simpl. lia.
  - apply (Hdefault 0%nat tt).
Defined.

(** A 401 is attempted once, whatever the number of retries. *)
Lemma withRetry_terminal_witness :
  withRetry (mkRetryConfig 2 10 100) (sleepCounted Examples.noSleep)
    (counted Examples.refused) (0%nat, tt)
  = (Rejected (ThrownError Examples.unauthorized), (1%nat, tt)).
Proof.
  apply (withRetry_terminal_error_once Examples.noSleep Examples.refused
           (mkRetryConfig 2 10 100) "401" Examples.unauthorized 0%nat tt tt).
  - simpl. lia.
  - set_solver.
  - reflexivity.
  - reflexivity.
Defined.

(** ** Batches of [uploadFiles] *)

(** [ceilDiv n d] is the least [k] with [n <= d * k]. *)
Lemma ceilDiv_least (n d k : nat) :
  (0 < d)%nat -> (ceilDiv n d <= k)%nat <-> (n <= d * k)%nat.
Proof.
  intros Hd. unfold ceilDiv.
  pose proof (Nat.div_mod_eq n d) as Hdm.
  pose proof (Nat.mod_upper_bound n d ltac:(lia)) as Hmod.
  destruct (Nat.eqb_spec (n mod d) 0) as [H0|H0]; nia.
Qed.

Lemma batchFilesOf_take_drop (l : list string) (i : nat) :
  HFClient.batchFilesOf l i
  = take HFClient.batchSize (drop (i * HFClient.batchSize) l).
Proof.
  unfold HFClient.batchFilesOf, slice.
  set (start := (i * HFClient.batchSize)%nat).
  destruct (Nat.le_gt_cases (start + HFClient.batchSize) (length l)) as [Hle|Hgt].
  - rewrite Nat.min_l by done. f_equal. lia.
  - rewrite Nat.min_r by lia.
    rewrite !take_ge; [done | rewrite length_drop; lia | rewrite length_drop; lia].
Qed.

Lemma batchFilesOf_length (l : list string) (i : nat) :
  length (HFClient.batchFilesOf l i)
  = Nat.min HFClient.batchSize (length l - i * HFClient.batchSize).
Proof. by rewrite batchFilesOf_take_drop, length_take, length_drop. Qed.

(** Consecutive pieces of [size] elements make up a prefix. *)
Lemma pieces_concat {A} (l : list A) (size k : nat) :
  concat (map (fun j => take size (drop (j * size) l)) (seq 0 k))
  = take (k * size) l.
Proof.
  induction k as [|k IH]; [done|].
  rewrite seq_S, map_app, concat_app, IH. cbn [map concat Nat.add].
  rewrite app_nil_r, take_take_drop. f_equal. lia.
Qed.

Lemma batches_concat (l : list string) (k : nat) :
  concat (map (HFClient.batchFilesOf l) (seq 0 k))
  = take (k * HFClient.batchSize) l.
Proof.
  rewrite <- pieces_concat. f_equal. apply map_ext. intros j.
  apply batchFilesOf_take_drop.
Qed.

(** The batches of [uploadFiles] are consecutive pieces of the input. *)
Lemma batches_partition (l : list string) :
  concat (map (HFClient.batchFilesOf l)
            (seq 0 (ceilDiv (length l) HFClient.batchSize))) = l.
Proof.
  rewrite batches_concat. apply take_ge.
  pose proof (proj1 (ceilDiv_least (length l) HFClient.batchSize
                       (ceilDiv (length l) HFClient.batchSize) ltac:(unfold HFClient.batchSize; lia))
                ltac:(lia)) as Hle.
  unfold HFClient.batchSize in *. lia.
Qed.

Lemma batch_nonempty (l : list string) (i : nat) :
  (i < ceilDiv (length l) HFClient.batchSize)%nat ->
  (0 < length (HFClient.batchFilesOf l i))%nat.
Proof.
  intros Hi. rewrite batchFilesOf_length.
  assert (~ (length l <= HFClient.batchSize * i)%nat) as Hn.
  { intros Hle. apply ceilDiv_least in Hle; [lia | unfold HFClient.batchSize; lia]. }
  unfold HFClient.batchSize in *. lia.
Qed.

(** ** The batches of [BatchManager.createBatches] *)

Lemma ceilDiv_zero (d : nat) : (0 < d)%nat -> ceilDiv 0 d = 0%nat.
Proof.
  intros Hd. pose proof (proj2 (ceilDiv_least 0 d 0 Hd) ltac:(lia)). lia.
Qed.

Lemma ceilDiv_step (n d : nat) :
  (0 < d)%nat -> (0 < n)%nat -> ceilDiv n d = S (ceilDiv (n - d) d).
Proof.
  intros Hd Hn.
  pose proof (proj1 (ceilDiv_least (n - d) d (ceilDiv (n - d) d) Hd) ltac:(lia))
    as Hb.
  pose proof (proj1 (ceilDiv_least n d (ceilDiv n d) Hd) ltac:(lia)) as Ha.
  pose proof (proj2 (ceilDiv_least n d (S (ceilDiv (n - d) d)) Hd) ltac:(nia))
    as Hle.
  destruct (ceilDiv n d) as [|a] eqn:Heq; [nia|].
  pose proof (proj2 (ceilDiv_least (n - d) d a Hd) ltac:(nia)). lia.
Qed.

(** With enough fuel the loop of [createBatches] ends, and it has added
    the consecutive pieces of [batchSize] files from [i] on. *)
Lemma createBatchesLoop_run (files : list ResolvedFile) (batchSize : nat) :
  (0 < batchSize)%nat ->
  forall (fuel i : nat) (batches : list (list ResolvedFile)),
    (length files - i <= fuel)%nat ->
    BatchManager.createBatchesLoop fuel files batchSize i batches
    = Some (batches
            ++ map (fun j => take batchSize (drop (i + j * batchSize) files))
                 (seq 0 (ceilDiv (length files - i) batchSize))).
Proof.
  intros Hsize fuel.
  induction fuel as [|fuel IH]; intros i batches Hfuel.
  - cbn [BatchManager.createBatchesLoop].
    destruct (Nat.ltb_spec i (length files)) as [Hlt|Hge]; [lia|].
    replace (length files - i)%nat with 0%nat by lia.
    rewrite ceilDiv_zero by done. cbn [seq map]. by rewrite app_nil_r.
  - cbn [BatchManager.createBatchesLoop].
    destruct (Nat.ltb_spec i (length files)) as [Hlt|Hge].
    + rewrite IH by lia.
      rewrite (ceilDiv_step (length files - i) batchSize) by lia.
      replace (length files - i - batchSize)%nat
        with (length files - (i + batchSize))%nat by lia.
      cbn [seq map]. rewrite <- seq_shift, map_map, <- app_assoc. cbn [app].
      unfold slice. replace (i + batchSize - i)%nat with batchSize by lia.
      do 3 f_equal.
      * by rewrite ?Nat.mul_0_l, ?Nat.add_0_r.
      * apply map_ext. intros j. do 2 f_equal. cbn [Nat.mul]. lia.
    + replace (length files - i)%nat with 0%nat by lia.
      rewrite ceilDiv_zero by done. cbn [seq map]. by rewrite app_nil_r.
Qed.

(** [createBatches] cuts the files into [ceil(N / batchSize)] consecutive
    batches of at most [batchSize] files; for 1000 they are the batches of
    [uploadFiles]. *)
Lemma createBatches_partition (files : list ResolvedFile) (batchSize : nat) :
  (0 < batchSize)%nat ->
  exists batches,
    BatchManager.createBatches files batchSize = Some batches
    /\ concat batches = files
    /\ Forall (fun b => length b <= batchSize)%nat batches
    /\ length batches = ceilDiv (length files) batchSize.
Proof.
  intros Hsize. unfold BatchManager.createBatches.
  rewrite (createBatchesLoop_run files batchSize Hsize) by lia.
  rewrite Nat.sub_0_r. cbn [app Nat.add]. eexists. split; [reflexivity|].
  split.
  - rewrite pieces_concat. apply take_ge.
    pose proof (proj1 (ceilDiv_least (length files) batchSize
                         (ceilDiv (length files) batchSize) Hsize) ltac:(lia)).
    lia.
  - split.
    + apply Forall_map, Forall_forall. intros j _. cbn. rewrite length_take. lia.
    + by rewrite length_map, length_seq.
Qed.

Lemma createBatches_as_uploadFiles (files : list ResolvedFile) :
  exists batches,
    BatchManager.createBatches files HFClient.batchSize = Some batches
    /\ map (map rf_path) batches
       = map (HFClient.batchFilesOf (map rf_path files))
           (seq 0 (ceilDiv (length files) HFClient.batchSize)).
Proof.
  unfold BatchManager.createBatches.
  rewrite (createBatchesLoop_run files HFClient.batchSize) by
    (unfold HFClient.batchSize; lia).
  rewrite Nat.sub_0_r. cbn [app Nat.add]. eexists. split; [reflexivity|].
  rewrite map_map. apply map_ext. intros j.
  by rewrite batchFilesOf_take_drop, <- fmap_drop, <- fmap_take.
Qed.

(** ** Preparing a batch *)

Lemma prepare_pushes (w : World) (batchFiles : list string) :
  concat (map fst (map (HFClient.prepareFile w) batchFiles))
  = missingFiles w batchFiles.
Proof.
  unfold missingFiles.
  induction batchFiles as [|p rest IH]; [done|].
  cbn [map concat List.filter]. rewrite IH. unfold HFClient.prepareFile.
  destruct (HFClient.pathExists w p); cbn [negb fst app]; [|done].
  by destruct (HFClient.createStreamingFileBlob w p).
Qed.

(** When every blob of the batch is built, the valid files are the files
    of the batch that exist. *)
Lemma prepare_valid (w : World) (batchFiles : list string)
    (files : list (option HubFile)) :
  HFClient.promiseAll (map snd (map (HFClient.prepareFile w) batchFiles))
  = AllResolved files ->
  (length (omap id files) + length (missingFiles w batchFiles))%nat
  = length batchFiles.
Proof.
  unfold missingFiles. revert files.
  induction batchFiles as [|p rest IH]; intros files Hall.
  - by injection Hall as <-.
  - cbn [map HFClient.promiseAll List.filter] in Hall |- *.
    unfold HFClient.prepareFile in Hall at 1.
    destruct (HFClient.pathExists w p); cbn [negb snd] in Hall |- *.
    + destruct (HFClient.createStreamingFileBlob w p); cbn [snd] in Hall;
        [|by destruct (HFClient.promiseAll _)].
      destruct (HFClient.promiseAll _) as [vs|] eqn:Hrest; [|done].
      injection Hall as <-. specialize (IH vs eq_refl).
      cbn [omap list_omap id length] in *. lia.
    + destruct (HFClient.promiseAll _) as [vs|] eqn:Hrest; [|done].
      injection Hall as <-. specialize (IH vs eq_refl).
      cbn [omap list_omap id length] in *. lia.
Qed.

Lemma missingFiles_none (w : World) (batchFiles : list string) :
  (forall p, p ∈ batchFiles -> HFClient.pathExists w p = true) ->
  missingFiles w batchFiles = [].
Proof.
  unfold missingFiles. induction batchFiles as [|p rest IH]; intros Hall; [done|].
  cbn [List.filter]. rewrite (Hall p) by set_solver. cbn [negb].
  apply IH. intros q Hq. apply Hall. set_solver.
Qed.

Lemma pathExists_fs (w w1 : World) (p : string) :
  fs w1 = fs w -> HFClient.pathExists w1 p = HFClient.pathExists w p.
Proof. intros H. unfold HFClient.pathExists. by rewrite H. Qed.

Lemma batchFilesOf_elem (l : list string) (i : nat) (p : string) :
  p ∈ HFClient.batchFilesOf l i -> p ∈ l.
Proof.
  rewrite batchFilesOf_take_drop. intros H.
  apply elem_of_take in H as (j & Hj & _).
  apply list_elem_of_lookup. rewrite lookup_drop in Hj. eauto.
Qed.

(** ** [withRetry] on a world *)

Section RetryOnWorld.
Context {T : Type}.
Variable cfg : RetryConfig.

Lemma withRetry_resolves_first {W} (sl : Z -> W -> W) (operation : Async W T)
    (w w1 : W) (v : T) :
  0 <= maxRetries cfg ->
  operation w = (Resolved v, w1) ->
  withRetry cfg sl operation w = (Resolved v, w1).
Proof.
  intros Hk Hop. unfold withRetry.
  destruct (Z.to_nat (maxRetries cfg + 1)) as [|r] eqn:Hr; [lia|].
  cbn [retryLoop]. by rewrite Hop.
Qed.

Lemma retryLoop_never_resolves {W} (sl : Z -> W -> W) (operation : Async W T) :
  (forall w, isResolved (fst (operation w)) = false) ->
  forall remaining attempt last w,
    isResolved (fst (retryLoop cfg sl operation remaining attempt last w)) = false.
Proof.
  intros Hfail remaining.
  induction remaining as [|r IH]; intros attempt last w; [done|].
  cbn [retryLoop]. specialize (Hfail w).
  destruct (operation w) as [[v|[|e]] w1]; [done | done |].
  destruct (shouldNotRetry e); [done|].
  destruct (attempt =? maxRetries cfg); [done|]. apply IH.
Qed.
End RetryOnWorld.

(** What [withRetry] around [hfUploadFiles] changes in the world: it adds
    the same parameters to the log, at most once per attempt. *)
Lemma retryLoop_uploadFiles_log (cfg : RetryConfig) (env : Env)
    (p : UploadFilesParams) :
  forall remaining attempt last w res w1,
    retryLoop cfg sleep (HFClient.callUploadFiles env p)
      remaining attempt last w = (res, w1) ->
    fs w1 = fs w
    /\ exists k, (k <= remaining)%nat
         /\ uploadFilesCalls w1 = uploadFilesCalls w ++ replicate k p.
Proof.
  intros remaining.
  induction remaining as [|r IH]; intros attempt last w res w1 Hrun.
  - injection Hrun as _ <-. split; [done|].
    exists 0%nat. split; [lia|]. by rewrite app_nil_r.
  - cbn [retryLoop] in Hrun.
    destruct (HFClient.callUploadFiles env p w) as [o w2] eqn:Hcall.
    unfold HFClient.callUploadFiles in Hcall. injection Hcall as _ <-.
    assert (fs (logUploadFiles p w) = fs w
            /\ exists k, (k <= S r)%nat
                 /\ uploadFilesCalls (logUploadFiles p w)
                    = uploadFilesCalls w ++ replicate k p) as Hone.
    { split; [done|]. exists 1%nat. split; [lia|done]. }
    destruct o as [v|[|e]];
      [by injection Hrun as _ <- | by injection Hrun as _ <- |].
    destruct (shouldNotRetry e); [by injection Hrun as _ <-|].
    destruct (attempt =? maxRetries cfg); [by injection Hrun as _ <-|].
    apply IH in Hrun as [Hfs (k & Hk & Hlog)].
    split; [by rewrite Hfs|].
    exists (S k). split; [lia|]. rewrite Hlog.
    cbn [sleep uploadFilesCalls logUploadFiles replicate].
    by rewrite <- app_assoc.
Qed.

Lemma withRetry_uploadFiles_log (cfg : RetryConfig) (env : Env)
    (p : UploadFilesParams) (w : World) res w1 :
  withRetry cfg sleep (HFClient.callUploadFiles env p) w = (res, w1) ->
  fs w1 = fs w
  /\ exists k, (k <= Z.to_nat (maxRetries cfg + 1))%nat
       /\ uploadFilesCalls w1 = uploadFilesCalls w ++ replicate k p.
Proof. apply retryLoop_uploadFiles_log. Qed.

(** ** The loop of [uploadFiles] *)

(** The body of the loop, with the pushes of the missing files named. *)
Lemma processBatch_eq (this : HFClient.t) (env : Env)
    (options : HFClient.MultiUploadOptions) (tb i : nat)
    (st : HFClient.BatchState) (w : World) :
  let batch := HFClient.batchFilesOf (HFClient.mo_filePaths options) i in
  let pushed := HFClient.failedFiles st ++ missingFiles w batch in
  HFClient.processBatch this env options tb i st w
  = match HFClient.promiseAll (map snd (map (HFClient.prepareFile w) batch)) with
    | FirstRejected _ =>
        (HFClient.mkBatchState (HFClient.filesProcessed st) (pushed ++ batch)
           (HFClient.commitSha st), w)
    | AllResolved files =>
        if (length (omap id files) =? 0)%nat
        then (HFClient.mkBatchState (HFClient.filesProcessed st) pushed
                (HFClient.commitSha st), w)
        else
          match withRetry (HFClient.retryConfig this) sleep
                  (HFClient.callUploadFiles env
                     (HFClient.batchUploadOptions this options tb i (omap id files))) w
          with
          | (Resolved result, w1) =>
              (HFClient.mkBatchState
                 (HFClient.filesProcessed st + length (omap id files))%nat pushed
                 (JsString.orElse (commit result) (HFClient.commitSha st)), w1)
          | (Rejected _, w1) =>
              (HFClient.mkBatchState (HFClient.filesProcessed st) (pushed ++ batch)
                 (HFClient.commitSha st), w1)
          end
    end.
Proof.
  cbn zeta. unfold HFClient.processBatch. cbn zeta. rewrite prepare_pushes.
  reflexivity.
Qed.

(** An invariant of the body is an invariant of the loop. *)
Lemma batchLoop_invariant (P : nat -> HFClient.BatchState -> World -> Prop)
    (this : HFClient.t) (env : Env) (options : HFClient.MultiUploadOptions)
    (tb bound : nat) :
  (forall i st w, (i < bound)%nat -> P i st w ->
     P (S i) (fst (HFClient.processBatch this env options tb i st w))
             (snd (HFClient.processBatch this env options tb i st w))) ->
  forall remaining i st w,
    (i + remaining <= bound)%nat -> P i st w ->
    P (i + remaining)%nat
      (fst (HFClient.batchLoop this env options tb remaining i st w))
      (snd (HFClient.batchLoop this env options tb remaining i st w)).
Proof.
  intros Hstep remaining.
  induction remaining as [|r IH]; intros i st w Hle HP.
  - by rewrite Nat.add_0_r.
  - cbn [HFClient.batchLoop].
    specialize (Hstep i st w ltac:(lia) HP).
    destruct (HFClient.processBatch this env options tb i st w) as [st1 w1].
    replace (i + S r)%nat with (S i + r)%nat by lia.
    apply IH; [lia | exact Hstep].
Qed.

(** ** [uploadFiles] as a whole *)

Lemma handleError_of_error (e : JsError) :
  exists c, HFClient.handleError (ThrownError e) = Resolved c.
Proof.
  unfold HFClient.handleError.
  repeat (case_match; try by eexists).
Qed.

Lemma validateMultiUploadInputs_throws (options : HFClient.MultiUploadOptions)
    (t : Thrown) :
  HFClient.validateMultiUploadInputs options = Rejected t ->
  exists e, t = ThrownError e.
Proof.
  unfold HFClient.validateMultiUploadInputs.
  repeat case_match; intros Hrej; try discriminate; injection Hrej as <-; by eexists.
Qed.

(** The result for inputs that pass the validation. *)
Lemma uploadFiles_valid (this : HFClient.t) (env : Env)
    (options : HFClient.MultiUploadOptions) (w : World) :
  HFClient.validateMultiUploadInputs options = Resolved tt ->
  let totalFiles := length (HFClient.mo_filePaths options) in
  let totalBatches := ceilDiv totalFiles HFClient.batchSize in
  let run :=
    HFClient.batchLoop this env options totalBatches totalBatches 0%nat
      (HFClient.mkBatchState 0 [] "unknown") w in
  HFClient.uploadFiles this env options w
  = (Resolved
       {| HFClient.mr_success := (0 <? HFClient.filesProcessed (fst run))%nat;
          HFClient.mr_filesUploaded := HFClient.filesProcessed (fst run);
          HFClient.mr_totalFiles := totalFiles;
          HFClient.mr_commitSha :=
            if (0 <? HFClient.filesProcessed (fst run))%nat
               && negb (String.eqb (HFClient.commitSha (fst run)) "unknown")
            then Some (HFClient.commitSha (fst run)) else None;
          HFClient.mr_failedFiles :=
            if (0 <? length (HFClient.failedFiles (fst run)))%nat
            then Some (HFClient.failedFiles (fst run)) else None;
          HFClient.mr_error := None |}, snd run).
Proof.
  intros Hvalid. cbn zeta.
  unfold HFClient.uploadFiles, tryCatch, bind, HFClient.liftOutcome.
  rewrite Hvalid.
  by destruct (HFClient.batchLoop _ _ _ _ _ _ _ _) as [st w1].
Qed.

(** The result for inputs that the validation rejects: nothing is sent. *)
Lemma uploadFiles_invalid (this : HFClient.t) (env : Env)
    (options : HFClient.MultiUploadOptions) (w : World) (t : Thrown) :
  HFClient.validateMultiUploadInputs options = Rejected t ->
  exists c,
    HFClient.uploadFiles this env options w
    = (Resolved
         {| HFClient.mr_success := false;
            HFClient.mr_filesUploaded := 0;
            HFClient.mr_totalFiles := length (HFClient.mo_filePaths options);
            HFClient.mr_commitSha := None;
            HFClient.mr_failedFiles := Some (HFClient.mo_filePaths options);
            HFClient.mr_error := err_message c |}, w).
Proof.
  intros Hinvalid.
  destruct (validateMultiUploadInputs_throws options t Hinvalid) as [e ->].
  destruct (handleError_of_error e) as [c Hc]. exists c.
  unfold HFClient.uploadFiles, tryCatch, bind, HFClient.liftOutcome, ret.
  by rewrite Hinvalid, Hc.
Qed.

Lemma take_batch_length (l : list string) (i : nat) :
  length (take (S i * HFClient.batchSize) l)
  = (length (take (i * HFClient.batchSize) l)
     + length (HFClient.batchFilesOf l i))%nat.
Proof.
  rewrite batchFilesOf_take_drop, <- length_app, take_take_drop.
  do 2 f_equal. unfold HFClient.batchSize. lia.
Qed.

(** The invariant of the loop when every file exists: what was uploaded
    and what failed make up the batches seen so far, and the failed files
    are whole batches. *)
Lemma processBatch_accounting (this : HFClient.t) (env : Env)
    (options : HFClient.MultiUploadOptions) (tb : nat) (w0 : World) :
  (forall p, p ∈ HFClient.mo_filePaths options -> HFClient.pathExists w0 p = true) ->
  forall i st w,
    (fs w = fs w0
     /\ (HFClient.filesProcessed st + length (HFClient.failedFiles st))%nat
        = length (take (i * HFClient.batchSize) (HFClient.mo_filePaths options))
     /\ exists failedBatches,
          Forall (fun j => j < i)%nat failedBatches
          /\ HFClient.failedFiles st
             = concat (map (HFClient.batchFilesOf (HFClient.mo_filePaths options))
                         failedBatches)) ->
    let r := HFClient.processBatch this env options tb i st w in
    fs (snd r) = fs w0
    /\ (HFClient.filesProcessed (fst r) + length (HFClient.failedFiles (fst r)))%nat
       = length (take (S i * HFClient.batchSize) (HFClient.mo_filePaths options))
    /\ exists failedBatches,
         Forall (fun j => j < S i)%nat failedBatches
         /\ HFClient.failedFiles (fst r)
            = concat (map (HFClient.batchFilesOf (HFClient.mo_filePaths options))
                        failedBatches).
Proof.
  intros Hexist i st w (Hfs & Hsum & idxs & Hidx & Hfailed). cbn zeta.
  rewrite processBatch_eq. cbn zeta.
  set (batch := HFClient.batchFilesOf (HFClient.mo_filePaths options) i).
  assert (missingFiles w batch = []) as Hmissing.
  { apply missingFiles_none. intros p Hp.
    rewrite (pathExists_fs w0 w p Hfs). apply Hexist.
    by apply batchFilesOf_elem in Hp. }
  rewrite Hmissing, app_nil_r, take_batch_length. fold batch.
  assert (Forall (fun j => j < S i)%nat idxs) as Hidx'
    by (eapply Forall_impl; [exact Hidx | intros; simpl in *; lia]).
  assert (Forall (fun j => j < S i)%nat (idxs ++ [i])) as Hidx''
    by (apply Forall_app; split; [done | repeat constructor]).
  assert (HFClient.failedFiles st ++ batch
          = concat (map (HFClient.batchFilesOf (HFClient.mo_filePaths options))
                      (idxs ++ [i]))) as Hfailed'.
  { rewrite map_app, concat_app, <- Hfailed. cbn [map concat].
    by rewrite app_nil_r. }
  destruct (HFClient.promiseAll _) as [files|t] eqn:Hall.
  - pose proof (prepare_valid w batch files Hall) as Hvalid.
    rewrite Hmissing in Hvalid. cbn [length] in Hvalid.
    destruct (Nat.eqb_spec (length (omap id files)) 0) as [H0|H0].
    + cbn [fst snd HFClient.filesProcessed HFClient.failedFiles].
      repeat split; [done | lia | by exists idxs].
    + destruct (withRetry _ _ _ w) as [[result|t] w1] eqn:Hrun;
        apply withRetry_uploadFiles_log in Hrun as [Hfs1 _];
        cbn [fst snd HFClient.filesProcessed HFClient.failedFiles].
      * repeat split; [congruence | lia | by exists idxs].
      * repeat split; [congruence | rewrite length_app; lia | by exists (idxs ++ [i])].
  - cbn [fst snd HFClient.filesProcessed HFClient.failedFiles].
    repeat split; [done | rewrite length_app; lia | by exists (idxs ++ [i])].
Qed.

(** ** The calls that [uploadFiles] makes *)

Lemma createStreamingFileBlob_exists (w : World) (p : string) :
  isResolved (HFClient.createStreamingFileBlob w p) = true ->
  HFClient.pathExists w p = true.
Proof.
  unfold HFClient.createStreamingFileBlob, HFClient.pathExists.
  destruct (deniesStat (fs w) p); [done|].
  destruct (nodes (fs w) !! p) as [[content|]|] eqn:Hnode; try done.
  all: intros _; by apply bool_decide_eq_true.
Qed.

Lemma createStreamingFileBlob_fs (w w1 : World) (p : string) :
  fs w1 = fs w ->
  HFClient.createStreamingFileBlob w1 p = HFClient.createStreamingFileBlob w p.
Proof. intros H. unfold HFClient.createStreamingFileBlob. by rewrite H. Qed.

(** When every blob of the batch can be built, [Promise.all] resolves. *)
Lemma prepare_all_ready (w : World) (batchFiles : list string) :
  (forall p, p ∈ batchFiles ->
     isResolved (HFClient.createStreamingFileBlob w p) = true) ->
  exists files,
    HFClient.promiseAll (map snd (map (HFClient.prepareFile w) batchFiles))
    = AllResolved files.
Proof.
  induction batchFiles as [|p rest IH]; intros Hready; [by eexists|].
  destruct IH as [files Hfiles]; [intros q Hq; apply Hready; set_solver|].
  pose proof (Hready p ltac:(set_solver)) as Hp.
  cbn [map HFClient.promiseAll]. rewrite Hfiles.
  unfold HFClient.prepareFile.
  rewrite (createStreamingFileBlob_exists w p Hp). cbn [negb].
  destruct (HFClient.createStreamingFileBlob w p); [by eexists | done].
Qed.

Lemma newUploadFilesCalls_app (w w1 : World) (new : list UploadFilesParams) :
  uploadFilesCalls w1 = uploadFilesCalls w ++ new ->
  newUploadFilesCalls w w1 = new.
Proof.
  intros H. unfold newUploadFilesCalls. rewrite H. apply drop_app_length.
Qed.

(** The invariant of the loop on the log: every call made so far carries
    at most [batchSize] files, and a batch makes at most as many calls as
    [withRetry] makes attempts. *)
Lemma processBatch_calls (this : HFClient.t) (env : Env)
    (options : HFClient.MultiUploadOptions) (tb : nat) (w0 : World) :
  forall i st w,
    (exists new,
        uploadFilesCalls w = uploadFilesCalls w0 ++ new
        /\ Forall (fun p => length (ufs_files p) <= HFClient.batchSize)%nat new
        /\ (length new
            <= i * Z.to_nat (maxRetries (HFClient.retryConfig this) + 1))%nat) ->
    let r := HFClient.processBatch this env options tb i st w in
    exists new,
      uploadFilesCalls (snd r) = uploadFilesCalls w0 ++ new
      /\ Forall (fun p => length (ufs_files p) <= HFClient.batchSize)%nat new
      /\ (length new
          <= S i * Z.to_nat (maxRetries (HFClient.retryConfig this) + 1))%nat.
Proof.
  intros i st w (new & Hlog & Hsize & Hcount). cbn zeta.
  rewrite processBatch_eq. cbn zeta.
  set (batch := HFClient.batchFilesOf (HFClient.mo_filePaths options) i).
  assert (exists new0,
      uploadFilesCalls w = uploadFilesCalls w0 ++ new0
      /\ Forall (fun p => length (ufs_files p) <= HFClient.batchSize)%nat new0
      /\ (length new0
          <= S i * Z.to_nat (maxRetries (HFClient.retryConfig this) + 1))%nat)
    as Hsame by (exists new; repeat split; [done | done | lia]).
  destruct (HFClient.promiseAll _) as [files|t] eqn:Hall; [|done].
  destruct (length (omap id files) =? 0)%nat; [done|].
  pose proof (prepare_valid w batch files Hall) as Hvalid.
  pose proof (batchFilesOf_length (HFClient.mo_filePaths options) i) as Hbatch.
  fold batch in Hbatch.
  destruct (withRetry _ _ _ w) as [res w1] eqn:Hrun.
  apply withRetry_uploadFiles_log in Hrun as [_ (k & Hk & Hlog1)].
  assert (exists new1,
      uploadFilesCalls w1 = uploadFilesCalls w0 ++ new1
      /\ Forall (fun p => length (ufs_files p) <= HFClient.batchSize)%nat new1
      /\ (length new1
          <= S i * Z.to_nat (maxRetries (HFClient.retryConfig this) + 1))%nat)
    as Hnew.
  { eexists (new ++ replicate k _). split; [by rewrite Hlog1, Hlog, app_assoc|].
    split.
    - apply Forall_app. split; [done|]. apply Forall_replicate.
      cbn [ufs_files HFClient.batchUploadOptions]. lia.
    - rewrite length_app, length_replicate. lia. }
  by destruct res.
Qed.

(** The invariant of the loop on the log when nothing goes wrong: one call
    per batch. *)
Lemma processBatch_one_call (this : HFClient.t) (env : Env)
    (options : HFClient.MultiUploadOptions) (tb : nat) (w0 : World) :
  0 <= maxRetries (HFClient.retryConfig this) ->
  (forall p, p ∈ HFClient.mo_filePaths options ->
     isResolved (HFClient.createStreamingFileBlob w0 p) = true) ->
  (forall n q, isResolved (hfUploadFiles env n q) = true) ->
  forall i st w,
    (i < ceilDiv (length (HFClient.mo_filePaths options)) HFClient.batchSize)%nat ->
    fs w = fs w0
    /\ length (uploadFilesCalls w) = (length (uploadFilesCalls w0) + i)%nat ->
    let r := HFClient.processBatch this env options tb i st w in
    fs (snd r) = fs w0
    /\ length (uploadFilesCalls (snd r)) = (length (uploadFilesCalls w0) + S i)%nat.
Proof.
  intros Hk Hready Hhub i st w Hi [Hfs Hlen]. cbn zeta.
  rewrite processBatch_eq. cbn zeta.
  set (batch := HFClient.batchFilesOf (HFClient.mo_filePaths options) i).
  assert (forall p, p ∈ batch ->
            isResolved (HFClient.createStreamingFileBlob w p) = true) as Hbatch.
  { intros p Hp. rewrite (createStreamingFileBlob_fs w0 w p Hfs).
    apply Hready. by apply batchFilesOf_elem in Hp. }
  destruct (prepare_all_ready w batch Hbatch) as [files Hall]. rewrite Hall.
  pose proof (prepare_valid w batch files Hall) as Hvalid.
  rewrite missingFiles_none in Hvalid
    by (intros p Hp; by apply createStreamingFileBlob_exists, Hbatch).
  pose proof (batch_nonempty (HFClient.mo_filePaths options) i Hi) as Hne.
  fold batch in Hne. cbn [length] in Hvalid.
  destruct (Nat.eqb_spec (length (omap id files)) 0) as [H0|H0]; [lia|].
  set (p := HFClient.batchUploadOptions this options tb i (omap id files)).
  specialize (Hhub (length (uploadFilesCalls w)) p).
  destruct (hfUploadFiles env (length (uploadFilesCalls w)) p) as [v|] eqn:Hcall;
    [|done].
  rewrite (withRetry_resolves_first (HFClient.retryConfig this) sleep
             (HFClient.callUploadFiles env p) w (logUploadFiles p w) v Hk)
    by (unfold HFClient.callUploadFiles; by rewrite Hcall).
  cbn [fst snd logUploadFiles fs uploadFilesCalls].
  split; [done|]. rewrite length_app. cbn [length]. lia.
Qed.

(** ** The calls of [uploadFiles], batch by batch *)

(** What [withRetry] around the call of a request leaves in the log: the
    calls of the retry executor, the last of which tells how it settles. *)
Lemma retryLoop_uploadFiles_run (cfg : RetryConfig) (env : Env)
    (p : UploadFilesParams) :
  forall remaining attempt last w res w1,
    (remaining = 0%nat \/ Z.of_nat remaining + attempt = maxRetries cfg + 1) ->
    retryLoop cfg sleep (HFClient.callUploadFiles env p)
      remaining attempt last w = (res, w1) ->
    exists k,
      uploadFilesCalls w1 = uploadFilesCalls w ++ replicate k p
      /\ fs w1 = fs w
      /\ retried remaining (fun n => hfUploadFiles env n p)
           (length (uploadFilesCalls w)) k
      /\ isResolved res
         = (0 <? k)%nat
           && isResolved
                (hfUploadFiles env (length (uploadFilesCalls w) + k - 1)%nat p).
Proof.
  intros remaining.
  induction remaining as [|r IH]; intros attempt last w res w1 Hrel Hrun.
  - injection Hrun as <- <-. exists 0%nat. rewrite app_nil_r.
    split; [done|]. split; [done|]. split; [|done].
    unfold retried. split; [lia|]. split; [lia|]. split; intros; lia.
  - cbn [retryLoop] in Hrun.
    unfold HFClient.callUploadFiles in Hrun at 1.
    set (base := length (uploadFilesCalls w)) in *.
    assert (forall res0 : Outcome CommitOutput,
              answerIsFinal (hfUploadFiles env base p) = true \/ r = 0%nat ->
              isResolved res0 = isResolved (hfUploadFiles env base p) ->
              exists k,
                uploadFilesCalls (logUploadFiles p w)
                = uploadFilesCalls w ++ replicate k p
                /\ fs (logUploadFiles p w) = fs w
                /\ retried (S r) (fun n => hfUploadFiles env n p) base k
                /\ isResolved res0
                   = (0 <? k)%nat
                     && isResolved (hfUploadFiles env (base + k - 1)%nat p))
      as Hone.
    { intros res0 Hfinal Hres. exists 1%nat.
      split; [done|]. split; [done|].
      replace (base + 1 - 1)%nat with base by lia.
      split; [|by rewrite Hres].
      unfold retried. split; [lia|]. split; [lia|].
      split; [intros j Hj; lia|].
      intros _ Hlt. replace (base + 1 - 1)%nat with base by lia.
      destruct Hfinal as [Hfinal|Hzero]; [exact Hfinal | lia]. }
    destruct (hfUploadFiles env base p) as [v|[|e]] eqn:Hanswer.
    + injection Hrun as <- <-. apply Hone; [by left | done].
    + injection Hrun as <- <-. apply Hone; [by left | done].
    + destruct (shouldNotRetry e) eqn:Hterminal.
      { injection Hrun as <- <-. apply Hone; [left; exact Hterminal | done]. }
      destruct (Z.eqb_spec attempt (maxRetries cfg)) as [Hlast|Hmore].
      { injection Hrun as <- <-. apply Hone; [right; lia | done]. }
      apply IH in Hrun as (k & Hlog & Hfs & Hretried & Hres); [|lia].
      cbn [sleep uploadFilesCalls logUploadFiles fs] in Hlog, Hfs, Hretried, Hres.
      rewrite length_app in Hretried, Hres. cbn [length] in Hretried, Hres.
      fold base in Hretried, Hres.
      destruct Hretried as (Hk & Hpos & Hbefore & Hfinal).
      assert (0 < k)%nat as Hk1 by (apply Hpos; lia).
      exists (S k). split; [by rewrite Hlog, <- app_assoc|].
      split; [exact Hfs|]. split.
      * unfold retried. split; [lia|]. split; [lia|]. split.
        -- intros [|j] Hj.
           ++ rewrite Nat.add_0_r, Hanswer. exact Hterminal.
           ++ replace (base + S j)%nat with (base + 1 + j)%nat by lia.
              apply Hbefore. lia.
        -- intros _ Hlt.
           replace (base + S k - 1)%nat with (base + 1 + k - 1)%nat by lia.
           apply Hfinal; lia.
      * rewrite Hres.
        replace (base + S k - 1)%nat with (base + 1 + k - 1)%nat by lia.
        destruct k; [lia | done].
Qed.

Lemma withRetry_uploadFiles_run (cfg : RetryConfig) (env : Env)
    (p : UploadFilesParams) (w w1 : World) (res : Outcome CommitOutput) :
  withRetry cfg sleep (HFClient.callUploadFiles env p) w = (res, w1) ->
  exists k,
    uploadFilesCalls w1 = uploadFilesCalls w ++ replicate k p
    /\ fs w1 = fs w
    /\ retried (Z.to_nat (maxRetries cfg + 1)) (fun n => hfUploadFiles env n p)
         (length (uploadFilesCalls w)) k
    /\ isResolved res
       = (0 <? k)%nat
         && isResolved
              (hfUploadFiles env (length (uploadFilesCalls w) + k - 1)%nat p).
Proof. apply retryLoop_uploadFiles_run. lia. Qed.

(** How the promises of a batch settle together. *)
Lemma prepared_cases (w : World) (batchFiles : list string) :
  match
    HFClient.promiseAll (map snd (map (HFClient.prepareFile w) batchFiles))
  with
  | AllResolved files =>
      omap id files = hubFilesOf w batchFiles
      /\ forallb (fun p => isResolved (snd (HFClient.prepareFile w p))) batchFiles
         = true
  | FirstRejected _ =>
      forallb (fun p => isResolved (snd (HFClient.prepareFile w p))) batchFiles
      = false
  end.
Proof.
  induction batchFiles as [|p rest IH]; [done|].
  cbn [map HFClient.promiseAll forallb]. unfold hubFilesOf. cbn [omap list_omap].
  fold (hubFilesOf w rest).
  destruct (snd (HFClient.prepareFile w p)) as [file|t];
    destruct (HFClient.promiseAll _) as [files|reasons]; cbn [isResolved andb];
    try done.
  destruct IH as [Hfiles Hall]. split; [|exact Hall].
  cbn [omap list_omap id]. rewrite <- Hfiles.
  by destruct file.
Qed.

Lemma prepareFile_fs (w w1 : World) (p : string) :
  fs w1 = fs w -> HFClient.prepareFile w1 p = HFClient.prepareFile w p.
Proof.
  intros Hfs. unfold HFClient.prepareFile.
  by rewrite (pathExists_fs w w1 p Hfs), (createStreamingFileBlob_fs w w1 p Hfs).
Qed.

Lemma hubFilesOf_fs (w w1 : World) (batchFiles : list string) :
  fs w1 = fs w -> hubFilesOf w1 batchFiles = hubFilesOf w batchFiles.
Proof.
  intros Hfs. unfold hubFilesOf.
  induction batchFiles as [|p rest IH]; [done|].
  cbn [omap list_omap]. by rewrite IH, (prepareFile_fs w w1 p Hfs).
Qed.

Lemma batchIsSent_fs (w w1 : World) (batchFiles : list string) :
  fs w1 = fs w -> batchIsSent w1 batchFiles = batchIsSent w batchFiles.
Proof.
  intros Hfs. unfold batchIsSent. rewrite (hubFilesOf_fs w w1 _ Hfs). f_equal.
  induction batchFiles as [|p rest IH]; [done|].
  cbn [forallb]. by rewrite IH, (prepareFile_fs w w1 p Hfs).
Qed.

Lemma missingFiles_fs (w w1 : World) (batchFiles : list string) :
  fs w1 = fs w -> missingFiles w1 batchFiles = missingFiles w batchFiles.
Proof.
  intros Hfs. unfold missingFiles.
  induction batchFiles as [|p rest IH]; [done|].
  cbn [List.filter]. by rewrite IH, (pathExists_fs w w1 p Hfs).
Qed.

(** One turn of the loop of [uploadFiles]: the calls of the batch, what
    it adds to the files uploaded, and what it adds to the failed files. *)
Lemma processBatch_run (this : HFClient.t) (env : Env)
    (options : HFClient.MultiUploadOptions) (tb : nat) (w0 : World)
    (i : nat) (st : HFClient.BatchState) (w : World) :
  let batch := HFClient.batchFilesOf (HFClient.mo_filePaths options) i in
  let request :=
    HFClient.batchUploadOptions this options tb i (hubFilesOf w0 batch) in
  let base := length (uploadFilesCalls w) in
  let r := HFClient.processBatch this env options tb i st w in
  fs w = fs w0 ->
  exists k,
    uploadFilesCalls (snd r) = uploadFilesCalls w ++ replicate k request
    /\ fs (snd r) = fs w0
    /\ (if batchIsSent w0 batch
        then retried (Z.to_nat (maxRetries (HFClient.retryConfig this) + 1))
               (fun n => hfUploadFiles env n request) base k
        else k = 0%nat)
    /\ let uploaded :=
         (0 <? k)%nat
         && isResolved (hfUploadFiles env (base + k - 1)%nat request) in
       HFClient.filesProcessed (fst r)
       = (HFClient.filesProcessed st
          + (if uploaded then length (hubFilesOf w0 batch) else 0))%nat
       /\ HFClient.failedFiles (fst r)
          = HFClient.failedFiles st ++ missingFiles w0 batch
            ++ (if uploaded then []
                else if forallb (fun p =>
                                   isResolved (snd (HFClient.prepareFile w0 p)))
                          batch
                        && (length (hubFilesOf w0 batch) =? 0)%nat
                     then [] else batch).
Proof.
  intros batch request base r Hfs. subst r.
  rewrite processBatch_eq. cbn zeta. fold batch.
  pose proof (prepared_cases w batch) as Hprep.
  rewrite (missingFiles_fs w0 w batch Hfs).
  unfold batchIsSent.
  rewrite (hubFilesOf_fs w0 w batch Hfs) in Hprep.
  assert (forallb (fun p => isResolved (snd (HFClient.prepareFile w p))) batch
          = forallb (fun p => isResolved (snd (HFClient.prepareFile w0 p))) batch)
    as Hforall.
  { clear -Hfs. induction batch as [|p rest IH]; [done|].
    cbn [forallb]. by rewrite IH, (prepareFile_fs w0 w p Hfs). }
  rewrite Hforall in Hprep. clear Hforall.
  destruct (HFClient.promiseAll _) as [files|reasons].
  - destruct Hprep as [Hfiles Hall]. rewrite Hfiles, Hall. cbn [andb].
    destruct (Nat.eqb_spec (length (hubFilesOf w0 batch)) 0) as [Hnone|Hsome].
    + assert ((0 <? length (hubFilesOf w0 batch))%nat = false) as ->
        by (apply Nat.ltb_ge; lia).
      exists 0%nat. cbn [fst snd replicate Nat.ltb Nat.leb andb].
      cbn [HFClient.filesProcessed HFClient.failedFiles].
      rewrite !app_nil_r, Nat.add_0_r. by repeat split.
    + assert ((0 <? length (hubFilesOf w0 batch))%nat = true) as ->
        by (apply Nat.ltb_lt; lia).
      fold request.
      destruct (withRetry (HFClient.retryConfig this) sleep
                  (HFClient.callUploadFiles env request) w)
        as [res w1] eqn:Hrun.
      destruct (withRetry_uploadFiles_run _ env request w w1 res Hrun)
        as (k & Hlog & Hfs1 & Hretried & Hres).
      fold base in Hretried, Hres.
      exists k. rewrite <- Hres.
      destruct res as [result|t]; cbn [fst snd isResolved
        HFClient.filesProcessed HFClient.failedFiles].
      * split; [exact Hlog|]. split; [congruence|]. split; [exact Hretried|].
        by rewrite app_nil_r.
      * split; [exact Hlog|]. split; [congruence|]. split; [exact Hretried|].
        split; [lia|]. by rewrite <- app_assoc.
  - rewrite Hprep. cbn [andb].
    exists 0%nat. cbn [fst snd replicate Nat.ltb Nat.leb andb].
    cbn [HFClient.filesProcessed HFClient.failedFiles].
    rewrite app_nil_r, Nat.add_0_r, <- app_assoc. by repeat split.
Qed.

Lemma callsBefore_ext (base : nat) (count count' : nat -> nat) (i : nat) :
  (forall j, (j < i)%nat -> count' j = count j) ->
  callsBefore base count' i = callsBefore base count i.
Proof.
  intros Hsame. unfold callsBefore. do 2 f_equal.
  apply map_ext_in. intros j Hj. apply in_seq in Hj. apply Hsame. lia.
Qed.

Lemma batchUploaded_ext (this : HFClient.t) (env : Env)
    (options : HFClient.MultiUploadOptions) (w : World)
    (count count' : nat -> nat) (i : nat) :
  (forall j, (j <= i)%nat -> count' j = count j) ->
  batchUploaded this env options w count' i
  = batchUploaded this env options w count i.
Proof.
  intros Hsame. unfold batchUploaded.
  rewrite (callsBefore_ext _ count count' i)
    by (intros j Hj; apply Hsame; lia).
  by rewrite (Hsame i) by lia.
Qed.

Lemma length_concat_replicate {A} (count : nat -> nat) (f : nat -> A) (n : nat) :
  length (concat (map (fun i => replicate (count i) (f i)) (seq 0 n)))
  = list_sum (map count (seq 0 n)).
Proof.
  induction n as [|n IH]; [done|].
  rewrite seq_S, !map_app, concat_app, length_app, list_sum_app, IH.
  cbn [map concat Nat.add]. rewrite app_nil_r, length_replicate.
  change (list_sum [count n]) with (count n + 0)%nat. lia.
Qed.

(** The run of the loop of [uploadFiles], batch by batch. *)
Lemma batchLoop_run (this : HFClient.t) (env : Env)
    (options : HFClient.MultiUploadOptions) (w : World) :
  let l := HFClient.mo_filePaths options in
  let tb := ceilDiv (length l) HFClient.batchSize in
  let run :=
    HFClient.batchLoop this env options tb tb 0%nat
      (HFClient.mkBatchState 0 [] "unknown") w in
  exists count,
    uploadFilesCalls (snd run)
    = uploadFilesCalls w
      ++ concat (map (fun i => replicate (count i) (batchRequest this options w i))
                   (seq 0 tb))
    /\ fs (snd run) = fs w
    /\ countsCalls this env options w count
    /\ HFClient.filesProcessed (fst run)
       = list_sum
           (map (fun i =>
                   if batchUploaded this env options w count i
                   then length (hubFilesOf w (HFClient.batchFilesOf l i))
                   else 0%nat) (seq 0 tb))
    /\ HFClient.failedFiles (fst run)
       = concat
           (map (fun i =>
                   missingFiles w (HFClient.batchFilesOf l i)
                   ++ (if batchUploaded this env options w count i then []
                       else if forallb
                                 (fun p =>
                                    isResolved (snd (HFClient.prepareFile w p)))
                                 (HFClient.batchFilesOf l i)
                               && (length (hubFilesOf w
                                             (HFClient.batchFilesOf l i)) =? 0)%nat
                            then [] else HFClient.batchFilesOf l i))
                (seq 0 tb)).
Proof.
  intros l tb run. subst run.
  set (base := length (uploadFilesCalls w)).
  set (A := Z.to_nat (maxRetries (HFClient.retryConfig this) + 1)).
  set (cond := fun (count : nat -> nat) (j : nat) =>
         if batchIsSent w (HFClient.batchFilesOf l j)
         then retried A (fun n => hfUploadFiles env n (batchRequest this options w j))
                (callsBefore base count j) (count j)
         else count j = 0%nat).
  set (gain := fun (count : nat -> nat) (j : nat) =>
         if batchUploaded this env options w count j
         then length (hubFilesOf w (HFClient.batchFilesOf l j)) else 0%nat).
  set (loss := fun (count : nat -> nat) (j : nat) =>
         missingFiles w (HFClient.batchFilesOf l j)
         ++ (if batchUploaded this env options w count j then []
             else if forallb
                       (fun p => isResolved (snd (HFClient.prepareFile w p)))
                       (HFClient.batchFilesOf l j)
                     && (length (hubFilesOf w (HFClient.batchFilesOf l j)) =? 0)%nat
                  then [] else HFClient.batchFilesOf l j)).
  set (P := fun (i : nat) (st : HFClient.BatchState) (w1 : World) =>
         exists count,
           uploadFilesCalls w1
           = uploadFilesCalls w
             ++ concat (map (fun j => replicate (count j)
                                        (batchRequest this options w j)) (seq 0 i))
           /\ fs w1 = fs w
           /\ (forall j, (j < i)%nat -> cond count j)
           /\ HFClient.filesProcessed st = list_sum (map (gain count) (seq 0 i))
           /\ HFClient.failedFiles st = concat (map (loss count) (seq 0 i))).
  assert (forall i st w1, (i < tb)%nat -> P i st w1 ->
            P (S i) (fst (HFClient.processBatch this env options tb i st w1))
                    (snd (HFClient.processBatch this env options tb i st w1)))
    as Hstep.
  { intros i st w1 _ (count & Hlog & Hfs & Hcond & Hgain & Hloss).
    destruct (processBatch_run this env options tb w i st w1 Hfs)
      as (k & Hlog1 & Hfs1 & Hk & Hfp & Hfailed).
    cbn zeta in Hfp, Hfailed.
    fold l in Hlog1, Hk, Hfp, Hfailed. fold tb in Hlog1, Hk, Hfp, Hfailed.
    change (HFClient.batchUploadOptions this options tb i
              (hubFilesOf w (HFClient.batchFilesOf l i)))
      with (batchRequest this options w i) in Hlog1, Hk, Hfp, Hfailed.
    assert (length (uploadFilesCalls w1) = callsBefore base count i) as Hbase.
    { rewrite Hlog, length_app, length_concat_replicate. reflexivity. }
    rewrite Hbase in Hk, Hfp, Hfailed.
    set (count' := fun j => if (j =? i)%nat then k else count j).
    assert (forall j, (j < i)%nat -> count' j = count j) as Hold.
    { intros j Hj. unfold count'. destruct (Nat.eqb_spec j i); [lia | done]. }
    assert (count' i = k) as Hnew by (unfold count'; by rewrite Nat.eqb_refl).
    assert (forall j, (j <= i)%nat ->
              callsBefore base count' j = callsBefore base count j) as Hbefore.
    { intros j Hj. apply callsBefore_ext. intros m Hm. apply Hold. lia. }
    assert (forall j, (j < i)%nat ->
              batchUploaded this env options w count' j
              = batchUploaded this env options w count j) as Hup.
    { intros j Hj. apply batchUploaded_ext. intros m Hm. apply Hold. lia. }
    assert (batchUploaded this env options w count' i
            = (0 <? k)%nat
              && isResolved
                   (hfUploadFiles env (callsBefore base count i + k - 1)%nat
                      (batchRequest this options w i))) as Hupi.
    { unfold batchUploaded. fold base. by rewrite Hbefore, Hnew by lia. }
    exists count'. rewrite seq_S, !map_app, !concat_app, list_sum_app.
    change (0 + i)%nat with i.
    change (list_sum (map (gain count') [i])) with (gain count' i + 0)%nat.
    cbn [map concat]. rewrite !app_nil_r, Nat.add_0_r.
    split.
    { rewrite Hlog1, Hlog, Hnew, <- app_assoc. do 3 f_equal.
      apply map_ext_in. intros j Hj. apply in_seq in Hj.
      by rewrite Hold by lia. }
    split; [exact Hfs1|]. split.
    { intros j Hj. unfold cond.
      destruct (Nat.eq_dec j i) as [->|Hne].
      - rewrite Hbefore, Hnew by lia. exact Hk.
      - rewrite Hbefore, Hold by lia. apply Hcond. lia. }
    split.
    { rewrite Hfp, Hgain. f_equal.
      - f_equal. apply map_ext_in. intros j Hj. apply in_seq in Hj.
        unfold gain. by rewrite Hup by lia.
      - unfold gain. by rewrite Hupi. }
    rewrite Hfailed, Hloss. f_equal.
    - f_equal. apply map_ext_in. intros j Hj. apply in_seq in Hj.
      unfold loss. by rewrite Hup by lia.
    - unfold loss. by rewrite Hupi. }
  pose proof (batchLoop_invariant P this env options tb tb Hstep tb 0%nat
                (HFClient.mkBatchState 0 [] "unknown") w ltac:(lia)) as Hinv.
  destruct Hinv as (count & Hlog & Hfs & Hcond & Hgain & Hloss).
  { exists (fun _ => 0%nat). cbn. rewrite app_nil_r. repeat split. intros j Hj. lia. }
  cbn [Nat.add] in *.
  exists count. split; [exact Hlog|]. split; [exact Hfs|].
  split; [|split; [exact Hgain | exact Hloss]].
  intros i Hi. apply (Hcond i Hi).
Qed.

Lemma list_sum_if (f : nat -> bool) (g : nat -> nat) (l : list nat) :
  list_sum (map (fun i => if f i then g i else 0%nat) l)
  = list_sum (map g (List.filter f l)).
Proof.
  induction l as [|i l IH]; [done|].
  cbn [map List.filter]. destruct (f i).
  - change (list_sum (g i :: ?x)) with (g i + list_sum x)%nat. cbn [map].
    change (list_sum (g i :: ?x)) with (g i + list_sum x)%nat. by rewrite IH.
  - change (list_sum (0%nat :: ?x)) with (0 + list_sum x)%nat. by rewrite IH.
Qed.

Lemma concat_if {A} (f : nat -> bool) (g : nat -> list A) (l : list nat) :
  concat (map (fun i => if f i then [] else g i) l)
  = concat (map g (List.filter (fun i => negb (f i)) l)).
Proof.
  induction l as [|i l IH]; [done|].
  cbn [map List.filter concat]. destruct (f i); cbn [negb map concat app];
    by rewrite IH.
Qed.

(** The files of a batch whose blobs are all built are its files that
    exist. *)
Lemma hubFilesOf_length (w : World) (batchFiles : list string) :
  forallb (fun p => isResolved (snd (HFClient.prepareFile w p))) batchFiles = true ->
  (length (hubFilesOf w batchFiles) + length (missingFiles w batchFiles))%nat
  = length batchFiles.
Proof.
  intros Hall. pose proof (prepared_cases w batchFiles) as Hprep.
  destruct (HFClient.promiseAll _) as [files|reasons] eqn:Hsettle;
    [|congruence].
  destruct Hprep as [<- _]. by apply prepare_valid.
Qed.

(** The answers of the hub fix the number of calls that [withRetry]
    makes. *)
Lemma retried_unique (attempts : nat) (answers : nat -> Outcome CommitOutput)
    (base k1 k2 : nat) :
  retried attempts answers base k1 -> retried attempts answers base k2 ->
  k1 = k2.
Proof.
  assert (forall a b, retried attempts answers base a ->
            retried attempts answers base b -> ~ (a < b)%nat) as Hlt.
  { intros a b (Ha & Hpos & _ & Hlast) (Hb & _ & Hbefore & _) Hab.
    assert (0 < a)%nat as Hapos by (apply Hpos; lia).
    specialize (Hlast Hapos ltac:(lia)).
    specialize (Hbefore (a - 1)%nat ltac:(lia)).
    replace (base + (a - 1))%nat with (base + a - 1)%nat in Hbefore by lia.
    congruence. }
  intros H1 H2.
  pose proof (Hlt k1 k2 H1 H2). pose proof (Hlt k2 k1 H2 H1). lia.
Qed.

(** So the answers of the hub fix the calls of every batch. *)
Lemma countsCalls_unique (this : HFClient.t) (env : Env)
    (options : HFClient.MultiUploadOptions) (w : World) (count1 count2 : nat -> nat) :
  countsCalls this env options w count1 ->
  countsCalls this env options w count2 ->
  forall i, (i < ceilDiv (length (HFClient.mo_filePaths options))
                   HFClient.batchSize)%nat ->
    count1 i = count2 i.
Proof.
  intros H1 H2 i. induction i as [i IH] using lt_wf_ind. intros Hi.
  specialize (H1 i Hi). specialize (H2 i Hi). cbn zeta in H1, H2.
  destruct (batchIsSent w _); [|congruence].
  rewrite (callsBefore_ext _ count2 count1 i) in H1
    by (intros j Hj; apply IH; lia).
  exact (retried_unique _ _ _ _ _ H1 H2).
Qed.

(** C2. When every input file exists, [uploadFiles] resolves with a result
    in which [filesUploaded] plus the number of failed files is
    [totalFiles], the failed files being whole batches of the input, and
    [success] is [filesUploaded > 0].  Which batches these are the hub
    decides: when the inputs pass the validation, a batch counts as
    uploaded exactly when it was sent and the hub accepted the last call
    that the retry executor made for it; [filesUploaded] is the number of
    the files of the batches uploaded, and the failed files are the files
    of the other batches, in order.  When the validation refuses the
    inputs, nothing is uploaded and every file is failed. *)
Theorem uploadFiles_partial_failure_accounting (this : HFClient.t) (env : Env)
    (options : HFClient.MultiUploadOptions) (w : World) :
  (forall p, p ∈ HFClient.mo_filePaths options -> HFClient.pathExists w p = true) ->
  exists r w1,
    HFClient.uploadFiles this env options w = (Resolved r, w1)
    /\ HFClient.mr_totalFiles r = length (HFClient.mo_filePaths options)
    /\ (HFClient.mr_filesUploaded r + length (failedFilesOf r))%nat
       = HFClient.mr_totalFiles r
    /\ (exists failedBatches,
          failedFilesOf r
          = concat (map (HFClient.batchFilesOf (HFClient.mo_filePaths options))
                      failedBatches))
    /\ HFClient.mr_success r = (0 <? HFClient.mr_filesUploaded r)%nat
    /\ (HFClient.validateMultiUploadInputs options = Resolved tt ->
        exists count,
          countsCalls this env options w count
          /\ HFClient.mr_filesUploaded r
             = list_sum
                 (map (fun i =>
                         length (HFClient.batchFilesOf
                                   (HFClient.mo_filePaths options) i))
                    (List.filter (batchUploaded this env options w count)
                       (seq 0 (ceilDiv (length (HFClient.mo_filePaths options))
                                 HFClient.batchSize))))
          /\ failedFilesOf r
             = concat
                 (map (HFClient.batchFilesOf (HFClient.mo_filePaths options))
                    (List.filter
                       (fun i => negb (batchUploaded this env options w count i))
                       (seq 0 (ceilDiv (length (HFClient.mo_filePaths options))
                                 HFClient.batchSize)))))
    /\ (forall t, HFClient.validateMultiUploadInputs options = Rejected t ->
        HFClient.mr_filesUploaded r = 0%nat
        /\ failedFilesOf r = HFClient.mo_filePaths options).
Proof.
  intros Hexist.
  set (l := HFClient.mo_filePaths options).
  set (tb := ceilDiv (length l) HFClient.batchSize).
  destruct (HFClient.validateMultiUploadInputs options) as [[]|t] eqn:Hvalid.
  - rewrite (uploadFiles_valid this env options w Hvalid). cbn zeta. fold l tb.
    pose proof (batchLoop_invariant
      (fun i st w1 =>
         fs w1 = fs w
         /\ (HFClient.filesProcessed st + length (HFClient.failedFiles st))%nat
            = length (take (i * HFClient.batchSize) l)
         /\ exists failedBatches,
              Forall (fun j => j < i)%nat failedBatches
              /\ HFClient.failedFiles st
                 = concat (map (HFClient.batchFilesOf l) failedBatches))
      this env options tb tb
      (fun i st w1 _ HP => processBatch_accounting this env options tb w Hexist i st w1 HP)
      tb 0%nat (HFClient.mkBatchState 0 [] "unknown") w ltac:(lia)) as Hinv.
    cbn beta in Hinv.
    destruct Hinv as (_ & Hsum & idxs & _ & Hfailed).
    { split; [done|]. split; [done|]. exists []. by split. }
    pose proof (batchLoop_run this env options w) as Hrun.
    cbn zeta in Hrun. fold l tb in Hrun.
    destruct Hrun as (count & _ & _ & Hcount & Hgain & Hloss).
    destruct (HFClient.batchLoop _ _ _ _ _ _ _ _) as [st w1].
    cbn [fst snd Nat.add] in *.
    eexists _, w1. split; [reflexivity|].
    unfold failedFilesOf.
    cbn [HFClient.mr_totalFiles HFClient.mr_filesUploaded HFClient.mr_failedFiles
         HFClient.mr_success].
    assert (length (take (tb * HFClient.batchSize) l) = length l) as Hall.
    { rewrite take_ge; [done|].
      pose proof (proj1 (ceilDiv_least (length l) HFClient.batchSize tb
                           ltac:(unfold HFClient.batchSize; lia)) ltac:(lia)).
      lia. }
    assert (default [] (if (0 <? length (HFClient.failedFiles st))%nat
                        then Some (HFClient.failedFiles st) else None)
            = HFClient.failedFiles st) as ->.
    { destruct (HFClient.failedFiles st); done. }
    split; [done|]. split; [lia|]. split; [by exists idxs|]. split; [done|].
    split; [|done]. intros _. exists count. split; [exact Hcount|].
    assert (forall i, (i < tb)%nat ->
              missingFiles w (HFClient.batchFilesOf l i) = []) as Hnone.
    { intros i _. apply missingFiles_none. intros p Hp.
      apply Hexist. by apply batchFilesOf_elem in Hp. }
    assert (forall i, (i < tb)%nat ->
              forallb (fun p => isResolved (snd (HFClient.prepareFile w p)))
                (HFClient.batchFilesOf l i) = true ->
              length (hubFilesOf w (HFClient.batchFilesOf l i))
              = length (HFClient.batchFilesOf l i)) as Hwhole.
    { intros i Hi Hready.
      pose proof (hubFilesOf_length w _ Hready) as Hlen.
      rewrite (Hnone i Hi) in Hlen. cbn [length] in Hlen. lia. }
    assert (forall i, (i < tb)%nat ->
              batchUploaded this env options w count i = true ->
              forallb (fun p => isResolved (snd (HFClient.prepareFile w p)))
                (HFClient.batchFilesOf l i) = true) as Hsent.
    { intros i Hi Hup. specialize (Hcount i Hi). cbn zeta in Hcount.
      fold l in Hcount. unfold batchIsSent in Hcount.
      destruct (forallb _ (HFClient.batchFilesOf l i)); [done|].
      cbn [andb] in Hcount. unfold batchUploaded in Hup.
      rewrite Hcount in Hup. done. }
    split.
    + rewrite Hgain, list_sum_if. f_equal.
      apply map_ext_in. intros i Hi. apply filter_In in Hi as [Hi Hup].
      apply in_seq in Hi. apply Hwhole; [lia|]. apply Hsent; [lia | exact Hup].
    + rewrite Hloss, <- concat_if. f_equal.
      apply map_ext_in. intros i Hi. apply in_seq in Hi.
      rewrite Hnone by lia. cbn [app].
      destruct (batchUploaded this env options w count i); [done|].
      destruct (forallb _ (HFClient.batchFilesOf l i)) eqn:Hready; [|done].
      rewrite (Hwhole i ltac:(lia) Hready).
      pose proof (batch_nonempty l i ltac:(fold tb; lia)) as Hne.
      destruct (Nat.eqb_spec (length (HFClient.batchFilesOf l i)) 0); [lia|done].
  - destruct (uploadFiles_invalid this env options w t Hvalid) as [c ->].
    eexists _, w. split; [reflexivity|].
    unfold failedFilesOf.
    cbn [HFClient.mr_totalFiles HFClient.mr_filesUploaded HFClient.mr_failedFiles
         HFClient.mr_success default]. fold l.
    split; [done|]. split; [done|].
    split; [exists (seq 0 tb); symmetry; apply batches_partition|].
    split; [done|]. split; [done|]. by intros t0 _.
Qed.

Lemma hubFilesOf_none (w : World) (batchFiles : list string) :
  (forall p, p ∈ batchFiles -> HFClient.pathExists w p = false) ->
  hubFilesOf w batchFiles = [].
Proof.
  unfold hubFilesOf. induction batchFiles as [|p rest IH]; intros Hnone; [done|].
  cbn [omap list_omap]. unfold HFClient.prepareFile at 1.
  rewrite (Hnone p) by set_solver. cbn [negb snd].
  apply IH. intros q Hq. apply Hnone. set_solver.
Qed.

(** C1, as the code has it.  [uploadFiles] cuts the [N] paths into
    [ceil(N / 1000)] consecutive batches of at most 1000 paths; every call
    of the remote [uploadFiles] carries at most 1000 files; there are at
    most [ceil(N / 1000)] times the attempts of [withRetry] such calls,
    and exactly [ceil(N / 1000)] when the inputs are valid, [maxRetries]
    is not negative, every file can be read and every call succeeds.
    When the inputs are valid, the calls are those of the batches in
    order, each batch with its own request: a batch of which no file
    exists, or of which a file cannot be read, makes no call, and for any
    other batch [withRetry] repeats the call while the hub answers with an
    error that may be retried and attempts are left.  When the validation
    refuses the inputs there is no call. *)
Theorem uploadFiles_batches_and_calls (this : HFClient.t) (env : Env)
    (options : HFClient.MultiUploadOptions) (w : World) :
  let l := HFClient.mo_filePaths options in
  let totalBatches := ceilDiv (length l) HFClient.batchSize in
  let calls :=
    newUploadFilesCalls w (snd (HFClient.uploadFiles this env options w)) in
  concat (map (HFClient.batchFilesOf l) (seq 0 totalBatches)) = l
  /\ (forall i, length (HFClient.batchFilesOf l i) <= 1000)%nat
  /\ (forall k, totalBatches <= k <-> length l <= 1000 * k)%nat
  /\ Forall (fun p => length (ufs_files p) <= 1000)%nat calls
  /\ (length calls
      <= totalBatches * Z.to_nat (maxRetries (HFClient.retryConfig this) + 1))%nat
  /\ (HFClient.validateMultiUploadInputs options = Resolved tt ->
      0 <= maxRetries (HFClient.retryConfig this) ->
      (forall p, p ∈ l ->
         isResolved (HFClient.createStreamingFileBlob w p) = true) ->
      (forall n q, isResolved (hfUploadFiles env n q) = true) ->
      length calls = totalBatches)
  /\ (HFClient.validateMultiUploadInputs options = Resolved tt ->
      exists count,
        calls
        = concat (map (fun i => replicate (count i)
                                  (batchRequest this options w i))
                    (seq 0 totalBatches))
        /\ countsCalls this env options w count
        /\ (forall i, (i < totalBatches)%nat ->
              (forall p, p ∈ HFClient.batchFilesOf l i ->
                 HFClient.pathExists w p = false) ->
              count i = 0%nat))
  /\ (forall t, HFClient.validateMultiUploadInputs options = Rejected t ->
      calls = []).
Proof.
  cbn zeta.
  set (l := HFClient.mo_filePaths options).
  set (tb := ceilDiv (length l) HFClient.batchSize).
  split; [apply batches_partition|].
  split; [intros i; rewrite batchFilesOf_length; unfold HFClient.batchSize; lia|].
  split; [intros k; apply (ceilDiv_least (length l) 1000 k); lia|].
  destruct (HFClient.validateMultiUploadInputs options) as [[]|t] eqn:Hvalid.
  - rewrite (uploadFiles_valid this env options w Hvalid). cbn zeta. fold l tb.
    cbn [snd].
    pose proof (batchLoop_invariant
      (fun i st w1 =>
         exists new,
           uploadFilesCalls w1 = uploadFilesCalls w ++ new
           /\ Forall (fun p => length (ufs_files p) <= HFClient.batchSize)%nat new
           /\ (length new
               <= i * Z.to_nat (maxRetries (HFClient.retryConfig this) + 1))%nat)
      this env options tb tb
      (fun i st w1 _ HP => processBatch_calls this env options tb w i st w1 HP)
      tb 0%nat (HFClient.mkBatchState 0 [] "unknown") w ltac:(lia)) as Hinv.
    cbn beta in Hinv.
    destruct Hinv as (new & Hlog & Hsize & Hcount).
    { exists []. rewrite app_nil_r. repeat split; [constructor | simpl; lia]. }
    rewrite (newUploadFilesCalls_app w _ new Hlog).
    split; [exact Hsize|]. split; [exact Hcount|].
    split; [|split; [|done]].
    + intros _ Hk Hready Hhub.
      pose proof (batchLoop_invariant
        (fun i st w1 =>
           fs w1 = fs w
           /\ length (uploadFilesCalls w1) = (length (uploadFilesCalls w) + i)%nat)
        this env options tb tb
        (fun i st w1 Hi HP =>
           processBatch_one_call this env options tb w Hk Hready Hhub i st w1 Hi HP)
        tb 0%nat (HFClient.mkBatchState 0 [] "unknown") w ltac:(lia)) as Hone.
      cbn beta in Hone.
      destruct Hone as [_ Hlen]; [split; [done | lia]|].
      rewrite Hlog, length_app in Hlen. cbn [Nat.add] in Hlen. lia.
    + intros _.
      pose proof (batchLoop_run this env options w) as Hrun.
      cbn zeta in Hrun. fold l tb in Hrun.
      destruct Hrun as (count & Hcalls & _ & Hcounts & _).
      exists count. split; [|split; [exact Hcounts|]].
      * rewrite Hlog in Hcalls. by apply app_inv_head in Hcalls.
      * intros i Hi Hnone. specialize (Hcounts i Hi). cbn zeta in Hcounts.
        fold l in Hcounts. unfold batchIsSent in Hcounts.
        rewrite (hubFilesOf_none w _ Hnone) in Hcounts.
        cbn [length Nat.ltb Nat.leb] in Hcounts.
        by rewrite andb_false_r in Hcounts.
  - destruct (uploadFiles_invalid this env options w t Hvalid) as [c ->].
    cbn [snd]. unfold newUploadFilesCalls. rewrite drop_all.
    split; [constructor|]. split; [simpl; lia|]. split; [done|].
    split; [done|]. by intros t0 _.
Qed.
(** ** Files recorded twice in [failedFiles] *)

(** What a batch adds to the two accumulators, whatever happens to it. *)
Lemma processBatch_grows (this : HFClient.t) (env : Env)
    (options : HFClient.MultiUploadOptions) (tb i : nat)
    (st : HFClient.BatchState) (w : World) :
  let r := HFClient.processBatch this env options tb i st w in
  let batch := HFClient.batchFilesOf (HFClient.mo_filePaths options) i in
  fs (snd r) = fs w
  /\ (HFClient.filesProcessed (fst r)
      <= HFClient.filesProcessed st + length batch)%nat
  /\ exists extra,
       HFClient.failedFiles (fst r) = HFClient.failedFiles st ++ extra
       /\ (HFClient.filesProcessed st + length batch
           <= HFClient.filesProcessed (fst r) + length extra)%nat.
Proof.
  cbn zeta. rewrite processBatch_eq. cbn zeta.
  set (batch := HFClient.batchFilesOf (HFClient.mo_filePaths options) i).
  destruct (HFClient.promiseAll _) as [files|t] eqn:Hall.
  - pose proof (prepare_valid w batch files Hall) as Hvalid.
    destruct (Nat.eqb_spec (length (omap id files)) 0) as [H0|H0].
    + split; [done|].
      cbn [fst HFClient.filesProcessed HFClient.failedFiles]. split; [lia|].
      exists (missingFiles w batch). split; [done | lia].
    + destruct (withRetry _ _ _ w) as [[result|t] w1] eqn:Hrun;
        apply withRetry_uploadFiles_log in Hrun as [Hfs1 _];
        (split; [done|]); cbn [fst HFClient.filesProcessed HFClient.failedFiles];
        (split; [lia|]).
      * exists (missingFiles w batch). split; [done | lia].
      * exists (missingFiles w batch ++ batch).
        split; [by rewrite app_assoc | rewrite length_app; lia].
  - split; [done|].
    cbn [fst HFClient.filesProcessed HFClient.failedFiles]. split; [lia|].
    exists (missingFiles w batch ++ batch).
    split; [by rewrite app_assoc | rewrite length_app; lia].
Qed.

Lemma missingFiles_elem (w : World) (batchFiles : list string) (p : string) :
  p ∈ missingFiles w batchFiles
  <-> p ∈ batchFiles /\ HFClient.pathExists w p = false.
Proof.
  unfold missingFiles.
  rewrite list_elem_of_In, filter_In, <- list_elem_of_In, negb_true_iff. done.
Qed.

Lemma missingFiles_shorter (w : World) (batchFiles : list string) (q : string) :
  q ∈ batchFiles -> HFClient.pathExists w q = true ->
  (length (missingFiles w batchFiles) < length batchFiles)%nat.
Proof.
  unfold missingFiles. intros Hq Hexists.
  induction batchFiles as [|x rest IH]; [by apply elem_of_nil in Hq|].
  pose proof (filter_length_le (fun p => negb (HFClient.pathExists w p)) rest).
  cbn [List.filter].
  apply elem_of_cons in Hq as [<-|Hq].
  - rewrite Hexists. cbn [negb length]. lia.
  - specialize (IH Hq). destruct (negb _); cbn [length]; lia.
Qed.

(** The batch of a missing file that also holds an existing one, when the
    remote call of the batch fails: the missing files are pushed, then the
    whole batch. *)
Lemma processBatch_failed_batch (this : HFClient.t) (env : Env)
    (options : HFClient.MultiUploadOptions) (tb i : nat)
    (st : HFClient.BatchState) (w : World) (q : string) :
  let batch := HFClient.batchFilesOf (HFClient.mo_filePaths options) i in
  q ∈ batch -> HFClient.pathExists w q = true ->
  (forall n files,
     isResolved
       (hfUploadFiles env n (HFClient.batchUploadOptions this options tb i files))
     = false) ->
  let r := HFClient.processBatch this env options tb i st w in
  HFClient.failedFiles (fst r)
  = HFClient.failedFiles st ++ missingFiles w batch ++ batch
  /\ HFClient.filesProcessed (fst r) = HFClient.filesProcessed st.
Proof.
  cbn zeta. intros Hq Hexists Hhub. rewrite processBatch_eq. cbn zeta.
  set (batch := HFClient.batchFilesOf (HFClient.mo_filePaths options) i) in *.
  destruct (HFClient.promiseAll _) as [files|t] eqn:Hall.
  - pose proof (prepare_valid w batch files Hall) as Hvalid.
    pose proof (missingFiles_shorter w batch q Hq Hexists) as Hshort.
    destruct (Nat.eqb_spec (length (omap id files)) 0) as [H0|H0]; [lia|].
    pose proof (retryLoop_never_resolves (HFClient.retryConfig this) sleep
      (HFClient.callUploadFiles env
         (HFClient.batchUploadOptions this options tb i (omap id files)))
      (fun w2 => Hhub _ _)
      (Z.to_nat (maxRetries (HFClient.retryConfig this) + 1)) 0 ThrownUndefined w)
      as Hnever.
    fold (withRetry (HFClient.retryConfig this) sleep
            (HFClient.callUploadFiles env
               (HFClient.batchUploadOptions this options tb i (omap id files))) w)
      in Hnever.
    destruct (withRetry _ _ _ w) as [[result|t] w1]; [done|].
    cbn [fst HFClient.filesProcessed HFClient.failedFiles].
    by rewrite app_assoc.
  - cbn [fst HFClient.filesProcessed HFClient.failedFiles]. by rewrite app_assoc.
Qed.

(** C10. A path that fails the check of existence, in a batch that holds an
    existing file and whose remote call fails, is in [failedFiles] twice:
    [failedFiles] has duplicates and is longer than
    [totalFiles - filesUploaded]. *)
Theorem uploadFiles_failedFiles_duplicates (this : HFClient.t) (env : Env)
    (options : HFClient.MultiUploadOptions) (w : World) (i : nat) (p q : string) :
  let l := HFClient.mo_filePaths options in
  let totalBatches := ceilDiv (length l) HFClient.batchSize in
  HFClient.validateMultiUploadInputs options = Resolved tt ->
  p ∈ HFClient.batchFilesOf l i -> HFClient.pathExists w p = false ->
  q ∈ HFClient.batchFilesOf l i -> HFClient.pathExists w q = true ->
  (forall n files,
     isResolved
       (hfUploadFiles env n
          (HFClient.batchUploadOptions this options totalBatches i files))
     = false) ->
  exists r w1,
    HFClient.uploadFiles this env options w = (Resolved r, w1)
    /\ (exists l1 l2 l3, failedFilesOf r = l1 ++ p :: l2 ++ p :: l3)
    /\ ~ NoDup (failedFilesOf r)
    /\ (HFClient.mr_totalFiles r - HFClient.mr_filesUploaded r
        < length (failedFilesOf r))%nat.
Proof.
  cbn zeta. intros Hvalid Hp Hmissing Hq Hexists Hhub.
  set (l := HFClient.mo_filePaths options) in *.
  set (tb := ceilDiv (length l) HFClient.batchSize) in *.
  assert (i < tb)%nat as Hi.
  { destruct (Nat.lt_ge_cases i tb) as [|Hge]; [done|].
    apply (ceilDiv_least (length l) HFClient.batchSize i) in Hge;
      [|unfold HFClient.batchSize; lia].
    pose proof (batchFilesOf_length l i) as Hlen.
    destruct (HFClient.batchFilesOf l i); [by apply elem_of_nil in Hp|].
    cbn [length] in Hlen. unfold HFClient.batchSize in *. lia. }
  rewrite (uploadFiles_valid this env options w Hvalid). cbn zeta. fold l tb.
  set (P := fun (j : nat) (st : HFClient.BatchState) (w1 : World) =>
       fs w1 = fs w
       /\ (HFClient.filesProcessed st
           <= length (take (j * HFClient.batchSize) l))%nat
       /\ (length (take (j * HFClient.batchSize) l) + (if (i <? j)%nat then 1 else 0)
           <= HFClient.filesProcessed st + length (HFClient.failedFiles st))%nat
       /\ ((i < j)%nat ->
           exists l1 l2 l3, HFClient.failedFiles st = l1 ++ p :: l2 ++ p :: l3)).
  assert (forall j st w1, (j < tb)%nat -> P j st w1 ->
            P (S j) (fst (HFClient.processBatch this env options tb j st w1))
                    (snd (HFClient.processBatch this env options tb j st w1)))
    as Hstep.
  { unfold P. intros j st w1 Hj (Hfs & Hfp0 & Hsum & Hdup).
    pose proof (processBatch_grows this env options tb j st w1) as Hgrow.
    cbn zeta in Hgrow. destruct Hgrow as (Hfs1 & Hfp1 & extra & Hextra & Hlen).
    fold l in Hlen, Hfp1. rewrite take_batch_length.
    destruct (decide (j = i)) as [->|Hne].
    + pose proof (processBatch_failed_batch this env options tb i st w1 q Hq
                    ltac:(by rewrite (pathExists_fs w w1 q Hfs)) Hhub) as Hfail.
      cbn zeta in Hfail. destruct Hfail as [Hff Hfp]. fold l in Hff.
      split; [congruence|]. split; [lia|].
      assert (p ∈ missingFiles w1 (HFClient.batchFilesOf l i)) as Hpm.
      { apply missingFiles_elem. split; [done|].
        by rewrite (pathExists_fs w w1 p Hfs). }
      apply list_elem_of_split in Hpm as (m1 & m2 & Hm).
      pose proof Hp as Hpb. apply list_elem_of_split in Hpb as (b1 & b2 & Hb).
      split.
      * rewrite Hff, Hfp, !length_app, Hm.
        rewrite Nat.ltb_irrefl in Hsum. rewrite (proj2 (Nat.ltb_lt i (S i))) by lia.
        rewrite length_app. cbn [length]. lia.
      * intros _. exists (HFClient.failedFiles st ++ m1), (m2 ++ b1), b2.
        rewrite Hff, Hm, Hb.
        rewrite <- ?app_assoc. cbn [app]. by rewrite <- ?app_assoc.
    + split; [congruence|]. split; [lia|]. split.
      * rewrite Hextra, length_app.
        destruct (Nat.ltb_spec i j), (Nat.ltb_spec i (S j)); lia.
      * intros Hlt. destruct Hdup as (l1 & l2 & l3 & Hd); [lia|].
        exists l1, l2, (l3 ++ extra). rewrite Hextra, Hd.
        rewrite <- ?app_assoc. cbn [app]. by rewrite <- ?app_assoc. }
  pose proof (batchLoop_invariant P this env options tb tb Hstep tb 0%nat
                (HFClient.mkBatchState 0 [] "unknown") w ltac:(lia)) as Hinv.
  unfold P in Hinv. clear Hstep P.
  destruct Hinv as (_ & Hfp & Hsum & Hdup).
  { split; [done|]. split; [simpl; lia|]. split; [simpl; lia | lia]. }
  destruct (HFClient.batchLoop _ _ _ _ _ _ _ _) as [st w1].
  cbn [fst snd Nat.add] in *.
  destruct (Hdup Hi) as (l1 & l2 & l3 & Hd).
    eexists _, w1. split; [reflexivity|].
    unfold failedFilesOf.
    cbn [HFClient.mr_totalFiles HFClient.mr_filesUploaded HFClient.mr_failedFiles].
    assert (default [] (if (0 <? length (HFClient.failedFiles st))%nat
                        then Some (HFClient.failedFiles st) else None)
            = HFClient.failedFiles st) as ->.
    { destruct (HFClient.failedFiles st); done. }
    split; [by exists l1, l2, l3|]. split.
    + rewrite Hd. intros Hnodup.
      apply NoDup_app in Hnodup as (_ & _ & Hnodup).
      apply NoDup_cons in Hnodup as [Hnotin _]. apply Hnotin.
      apply elem_of_app. right. apply elem_of_cons. by left.
    + rewrite (proj2 (Nat.ltb_lt i tb) Hi) in Hsum.
      assert (length (take (tb * HFClient.batchSize) l) = length l) as Hall.
      { rewrite take_ge; [done|].
        pose proof (proj1 (ceilDiv_least (length l) HFClient.batchSize tb
                             ltac:(unfold HFClient.batchSize; lia)) ltac:(lia)).
        lia. }
      rewrite Hall in Hsum, Hfp. clear -Hsum Hfp. lia.
Qed.

(** ** The properties of [uploadFiles] on concrete worlds *)

(** Two existing files and a hub that accepts them: one batch, one call,
    two files in it. *)
Lemma uploadFiles_batches_witness :
  let w := Examples.worldOf Examples.twoFiles in
  let calls :=
    newUploadFilesCalls w
      (snd (HFClient.uploadFiles Examples.client Examples.hubUp Examples.uploadTwo w)) in
  Forall (fun p => length (ufs_files p) <= 1000)%nat calls
  /\ length calls = 1%nat
  /\ map (fun p => length (ufs_files p)) calls = [2%nat].
Proof.
  cbn zeta.
  pose proof (uploadFiles_batches_and_calls Examples.client Examples.hubUp
                Examples.uploadTwo (Examples.worldOf Examples.twoFiles)) as H.
  cbn zeta in H. destruct H as (_ & _ & _ & Hsize & _ & Hcount & _).
  split; [exact Hsize|]. split; [|reflexivity].
  apply Hcount.
  - reflexivity.
  - simpl. lia.
  - intros p Hp. apply list_elem_of_In in Hp. simpl in Hp.
    destruct Hp as [<-|[<-|[]]]; reflexivity.
  - intros n q. reflexivity.
Defined.

(** C1 as it is worded fails: a batch whose files are all missing makes no
    remote call, and a batch whose call is retried makes several. *)
Lemma uploadFiles_calls_counterexample :
  let w := Examples.worldOf Examples.twoFiles in
  length (newUploadFilesCalls w
            (snd (HFClient.uploadFiles Examples.client Examples.hubUp
                    Examples.uploadGone w)))
  <> ceilDiv (length (HFClient.mo_filePaths Examples.uploadGone)) 1000
  /\ length (newUploadFilesCalls w
               (snd (HFClient.uploadFiles Examples.client Examples.hubDown
                       Examples.uploadTwo w)))
     <> ceilDiv (length (HFClient.mo_filePaths Examples.uploadTwo)) 1000.
Proof. split; vm_compute; lia. Qed.

(** The run of the counterexample: no call for the missing file, four
    calls for the two files when the hub is down. *)
Example uploadFiles_calls_runs :
  let w := Examples.worldOf Examples.twoFiles in
  length (uploadFilesCalls
            (snd (HFClient.uploadFiles Examples.client Examples.hubUp
                    Examples.uploadGone w))) = 0%nat
  /\ length (uploadFilesCalls
               (snd (HFClient.uploadFiles Examples.client Examples.hubDown
                       Examples.uploadTwo w))) = 4%nat
  /\ ceilDiv 1 1000 = 1%nat /\ ceilDiv 2 1000 = 1%nat.
Proof. repeat split; vm_compute; reflexivity. Qed.

(** Two existing files, uploaded: 2 + 0 = 2. *)
Lemma uploadFiles_accounting_witness :
  exists r w1,
    HFClient.uploadFiles Examples.client Examples.hubUp Examples.uploadTwo
      (Examples.worldOf Examples.twoFiles) = (Resolved r, w1)
    /\ HFClient.mr_totalFiles r = 2%nat
    /\ (HFClient.mr_filesUploaded r + length (failedFilesOf r))%nat
       = HFClient.mr_totalFiles r
    /\ (exists failedBatches,
          failedFilesOf r
          = concat (map (HFClient.batchFilesOf
                           (HFClient.mo_filePaths Examples.uploadTwo))
                      failedBatches))
    /\ HFClient.mr_success r = (0 <? HFClient.mr_filesUploaded r)%nat.
Proof.
  destruct (uploadFiles_partial_failure_accounting Examples.client Examples.hubUp
              Examples.uploadTwo (Examples.worldOf Examples.twoFiles))
    as (r & w1 & Hrun & Htotal & Hsum & Hfailed & Hsuccess & _).
  { intros p Hp. apply list_elem_of_In in Hp. simpl in Hp.
    destruct Hp as [<-|[<-|[]]]; reflexivity. }
  exists r, w1. split; [exact Hrun|]. split; [exact Htotal|].
  split; [exact Hsum|]. split; [exact Hfailed | exact Hsuccess].
Defined.

(** The same two files when the hub is down: 0 + 2 = 2, no success. *)
Example uploadFiles_accounting_hub_down :
  fst (HFClient.uploadFiles Examples.client Examples.hubDown Examples.uploadTwo
         (Examples.worldOf Examples.twoFiles))
  = Resolved
      {| HFClient.mr_success := false;
         HFClient.mr_filesUploaded := 0;
         HFClient.mr_totalFiles := 2;
         HFClient.mr_commitSha := None;
         HFClient.mr_failedFiles := Some ["/data/a.bin"; "/data/b.bin"];
         HFClient.mr_error := None |}.
Proof. vm_compute. reflexivity. Qed.

(** One file exists, one is gone, the hub is down: the missing path is
    recorded twice and [failedFiles] has three entries for two files. *)
Lemma uploadFiles_duplicates_witness :
  exists r w1,
    HFClient.uploadFiles Examples.client Examples.hubDown Examples.uploadWithGone
      (Examples.worldOf Examples.twoFiles) = (Resolved r, w1)
    /\ (exists l1 l2 l3,
          failedFilesOf r = l1 ++ "/data/gone.bin" :: l2 ++ "/data/gone.bin" :: l3)
    /\ ~ NoDup (failedFilesOf r)
    /\ (HFClient.mr_totalFiles r - HFClient.mr_filesUploaded r
        < length (failedFilesOf r))%nat.
Proof.
  apply (uploadFiles_failedFiles_duplicates Examples.client Examples.hubDown
           Examples.uploadWithGone (Examples.worldOf Examples.twoFiles)
           0%nat "/data/gone.bin" "/data/a.bin").
  - reflexivity.
  - apply list_elem_of_In. vm_compute. auto.
  - reflexivity.
  - apply list_elem_of_In. vm_compute. auto.
  - reflexivity.
  - intros n files. reflexivity.
Defined.

Example uploadFiles_duplicates_run :
  fst (HFClient.uploadFiles Examples.client Examples.hubDown Examples.uploadWithGone
         (Examples.worldOf Examples.twoFiles))
  = Resolved
      {| HFClient.mr_success := false;
         HFClient.mr_filesUploaded := 0;
         HFClient.mr_totalFiles := 2;
         HFClient.mr_commitSha := None;
         HFClient.mr_failedFiles :=
           Some ["/data/gone.bin"; "/data/a.bin"; "/data/gone.bin"];
         HFClient.mr_error := None |}.
Proof. vm_compute. reflexivity. Qed.

(** ** Downloads: [streamBlobToFile] *)

(** What [pipeline] does with a stream that breaks, once the file is open. *)
Lemma pipeline_broken (stream : HFClient.ByteStream) (reason : Thrown)
    (flushed : nat) (localPath : string) (w : World) :
  HFClient.ending stream = HFClient.StreamError reason flushed ->
  deniesOpen (fs w) localPath = None ->
  nodes (fs w) !! localPath <> Some Directory ->
  exists w1,
    HFClient.pipeline stream localPath w
    = (Rejected (match reason with
                 | ThrownUndefined => ThrownError abortError
                 | ThrownError e => ThrownError e
                 end), w1)
    /\ nodes (fs w1)
       = <[localPath := File (take flushed (concat (HFClient.chunks stream)))]>
           (nodes (fs w))
    /\ deniesUnlink (fs w1) = deniesUnlink (fs w).
Proof.
  intros Hend Hopen Hdir. unfold HFClient.pipeline. rewrite Hopen, Hend.
  destruct (nodes (fs w) !! localPath) as [[content|]|]; [| done |];
    by eexists.
Qed.

(** C5, as the code has it.  When the stream of a download breaks with an
    error after the destination was opened, [streamBlobToFile] rejects
    with that error, after it tried to unlink the destination: the
    destination does not exist afterwards when the unlink is allowed, and a
    file stays at the destination, with what had reached it, when the
    unlink is refused (the error of the cleanup is ignored).  No other
    path is touched. *)
Theorem streamBlobToFile_cleanup (blob : HFClient.Blob)
    (stream : HFClient.ByteStream) (e : JsError) (flushed : nat)
    (localPath : string) (w : World) :
  HFClient.blobStream blob = Some stream ->
  HFClient.ending stream = HFClient.StreamError (ThrownError e) flushed ->
  deniesOpen (fs w) localPath = None ->
  nodes (fs w) !! localPath <> Some Directory ->
  let r := HFClient.streamBlobToFile blob localPath w in
  fst r = Rejected (ThrownError e)
  /\ (deniesUnlink (fs w) localPath = None ->
      nodes (fs (snd r)) !! localPath = None)
  /\ (is_Some (deniesUnlink (fs w) localPath) ->
      exists content, nodes (fs (snd r)) !! localPath = Some (File content))
  /\ (forall q, q <> localPath ->
      nodes (fs (snd r)) !! q = nodes (fs w) !! q).
Proof.
  intros Hblob Hend Hopen Hdir. cbn zeta.
  destruct (pipeline_broken stream (ThrownError e) flushed localPath w
              Hend Hopen Hdir)
    as (w1 & Hpipe & Hnodes & Hdeny).
  unfold HFClient.streamBlobToFile. rewrite Hblob.
  unfold tryCatch, bind, ret, throw. rewrite Hpipe.
  unfold HFClient.unlink. rewrite Hdeny.
  destruct (deniesUnlink (fs w) localPath) as [e1|] eqn:Hunlink.
  - cbn [fst snd]. split; [done|]. split; [done|].
    split; [intros _; eexists; by rewrite Hnodes, lookup_insert_eq|].
    intros q Hq. by rewrite Hnodes, lookup_insert_ne.
  - rewrite Hnodes, lookup_insert_eq. cbn [fst snd setFs fs nodes].
    split; [done|].
    split; [intros _; by rewrite lookup_delete_eq|].
    split; [by intros [? ?]|].
    intros q Hq. by rewrite lookup_delete_ne, lookup_insert_ne.
Qed.

(** A stream that breaks after three bytes, in a directory where unlink is
    allowed: the destination is gone after the call. *)
Lemma streamBlobToFile_cleanup_witness :
  let w := Examples.worldOf (Examples.fsOf []) in
  let r := HFClient.streamBlobToFile Examples.brokenBlob "/tmp/model.bin" w in
  fst r = Rejected (ThrownError Examples.connectionReset)
  /\ nodes (fs (snd r)) !! "/tmp/model.bin" = None.
Proof.
  cbn zeta.
  pose proof (streamBlobToFile_cleanup Examples.brokenBlob Examples.brokenStream
                Examples.connectionReset 0 "/tmp/model.bin"
                (Examples.worldOf (Examples.fsOf []))
                eq_refl eq_refl eq_refl ltac:(discriminate)) as H.
  cbn zeta in H. destruct H as (Herr & Hgone & _).
  split; [exact Herr | apply Hgone; reflexivity].
Defined.

(** C5 as it is worded fails: in a directory where the operating system
    refuses the unlink, the destination did not exist before the call, the
    stream breaks after three bytes, and a file is at the destination
    after the call. *)
Lemma streamBlobToFile_partial_file_counterexample :
  let w := Examples.worldOf Examples.lockedFs in
  let r := HFClient.streamBlobToFile Examples.brokenBlob "/locked/model.bin" w in
  nodes (fs w) !! "/locked/model.bin" = None
  /\ fst r = Rejected (ThrownError Examples.connectionReset)
  /\ (exists content,
        nodes (fs (snd r)) !! "/locked/model.bin" = Some (File content))
  /\ nodes (fs (snd r)) !! "/locked/model.bin" <> None.
Proof.
  cbn zeta. split; [reflexivity|]. split; [reflexivity|].
  split; [by eexists | vm_compute; discriminate].
Qed.

(** ** [uploadFile] *)

(** C8. When the checks of [uploadFile] pass and the remote upload, under
    [withRetry], resolves with an answer that has no commit identifier (the
    commit is left out, or its [oid] is empty), [uploadFile] resolves with
    [success = true] and [commitSha = "unknown"]. *)
Theorem uploadFile_missing_commit_is_unknown (this : HFClient.t) (env : Env)
    (options : HFClient.UploadOptions) (w w1 : World)
    (streamingBlob : list byte) (result : CommitOutput) :
  HFClient.validateUploadInputs options = Resolved tt ->
  HFClient.pathExists w (HFClient.uo_filePath options) = true ->
  HFClient.createStreamingFileBlob w (HFClient.uo_filePath options)
  = Resolved streamingBlob ->
  withRetry (HFClient.retryConfig this) sleep
    (HFClient.callUploadFile env
       (HFClient.uploadOptionsOf this options streamingBlob)) w
  = (Resolved result, w1) ->
  JsString.truthy (commit result) = false ->
  HFClient.uploadFile this env options w
  = (Resolved
       {| HFClient.ur_success := true;
          HFClient.ur_fileUrl :=
            Some ("https://huggingface.co/" +:+ HFClient.uo_repoId options
                  +:+ "/blob/main/" +:+ basename (HFClient.uo_filePath options));
          HFClient.ur_commitSha := Some "unknown";
          HFClient.ur_error := None |}, w1).
Proof.
  intros Hvalid Hexists Hblob Hrun Hcommit.
  unfold HFClient.uploadFile, tryCatch, bind, HFClient.liftOutcome, gets.
  rewrite Hvalid, Hexists. cbn [negb]. rewrite Hblob, Hrun. unfold ret.
  do 3 f_equal.
  destruct (commit result) as [[|c oid]|]; done.
Qed.

(** The scenario of the specification: the hub accepts the file and
    answers without a commit. *)
Lemma uploadFile_missing_commit_witness :
  exists w1,
    HFClient.uploadFile Examples.client Examples.hubNoCommit Examples.uploadOne
      (Examples.worldOf Examples.twoFiles)
    = (Resolved
         {| HFClient.ur_success := true;
            HFClient.ur_fileUrl :=
              Some "https://huggingface.co/user/repo/blob/main/a.bin";
            HFClient.ur_commitSha := Some "unknown";
            HFClient.ur_error := None |}, w1)
    /\ length (uploadFileCalls w1) = 1%nat.
Proof.
  eexists. split.
  - apply (uploadFile_missing_commit_is_unknown Examples.client
             Examples.hubNoCommit Examples.uploadOne
             (Examples.worldOf Examples.twoFiles) _ [x61] {| commit := None |});
      reflexivity.
  - reflexivity.
Defined.

(** ** [validateRepository] *)

(** C9. [validateRepository] always resolves with a boolean: [false] when
    every probe of the listing fails, whatever the failure, [true] when the
    probe answers, with an entry or with the end of the listing. *)
Theorem validateRepository_never_throws (this : HFClient.t) (env : Env)
    (repoId repoType : string) (w : World) :
  exists b w1,
    HFClient.validateRepository this env repoId repoType w = (Resolved b, w1)
    /\ ((forall n,
           isResolved
             (listFilesNext env n (HFClient.listOptionsOf this repoId repoType))
           = false) ->
        b = false)
    /\ (0 <= maxRetries (HFClient.retryConfig this) ->
        isResolved
          (listFilesNext env (length (listFilesCalls w))
             (HFClient.listOptionsOf this repoId repoType)) = true ->
        b = true).
Proof.
  set (p := HFClient.listOptionsOf this repoId repoType).
  unfold HFClient.validateRepository, tryCatch, bind, ret. fold p.
  destruct (withRetry (HFClient.retryConfig this) sleep
              (HFClient.callListFiles env p) w) as [[[]|t] w1] eqn:Hrun.
  - exists true, w1. split; [done|]. split; [|done].
    intros Hfail.
    pose proof (retryLoop_never_resolves (HFClient.retryConfig this) sleep
      (HFClient.callListFiles env p)) as Hnever.
    specialize (Hnever
      ltac:(intros w2; unfold HFClient.callListFiles;
            specialize (Hfail (length (listFilesCalls w2)));
            by destruct (listFilesNext env _ p))
      (Z.to_nat (maxRetries (HFClient.retryConfig this) + 1)) 0
      ThrownUndefined w).
    unfold withRetry in Hrun. by rewrite Hrun in Hnever.
  - exists false, w1. split; [done|]. split; [done|].
    intros Hk Hok.
    destruct (listFilesNext env (length (listFilesCalls w)) p) as [entry|] eqn:Hcall;
      [|done].
    rewrite (withRetry_resolves_first (HFClient.retryConfig this) sleep
               (HFClient.callListFiles env p) w (logListFiles p w) tt Hk) in Hrun
      by (unfold HFClient.callListFiles; by rewrite Hcall).
    discriminate.
Qed.

(** The scenarios of the specification: a listing that rejects with a 404
    gives [false], a listing that answers gives [true], also when it is
    empty. *)
Lemma validateRepository_witness :
  fst (HFClient.validateRepository Examples.client Examples.hubNotFound
         "invalid/repo" "model" (Examples.worldOf Examples.twoFiles))
  = Resolved false
  /\ fst (HFClient.validateRepository Examples.client Examples.hubNoCommit
            "user/repo" "model" (Examples.worldOf Examples.twoFiles))
     = Resolved true.
Proof.
  split.
  - destruct (validateRepository_never_throws Examples.client Examples.hubNotFound
                "invalid/repo" "model" (Examples.worldOf Examples.twoFiles))
      as (b & w1 & Hrun & Hfalse & _).
    rewrite Hrun. cbn [fst]. f_equal. apply Hfalse. intros n. reflexivity.
  - destruct (validateRepository_never_throws Examples.client Examples.hubNoCommit
                "user/repo" "model" (Examples.worldOf Examples.twoFiles))
      as (b & w1 & Hrun & _ & Htrue).
    rewrite Hrun. cbn [fst]. f_equal. apply Htrue; [simpl; lia | reflexivity].
Defined.

(** ** The pattern resolver *)

(** [stat] and [getFileSize] read the file system and only add to the log
    of [stat]. *)
Lemma stat_run (p : string) (w : World) :
  exists o, FileSystemUtils.stat p w = (o, logStat p w).
Proof.
  unfold FileSystemUtils.stat.
  destruct (deniesStat (fs w) p) as [e|]; [by eexists|].
  destruct (nodes (fs w) !! p) as [[content|]|]; by eexists.
Qed.

Lemma stat_fs (p : string) (w w1 : World) :
  fs w1 = fs w ->
  fst (FileSystemUtils.stat p w1) = fst (FileSystemUtils.stat p w).
Proof.
  intros Hfs. unfold FileSystemUtils.stat. rewrite Hfs.
  destruct (deniesStat (fs w) p) as [e|]; [done|].
  by destruct (nodes (fs w) !! p) as [[content|]|].
Qed.

Lemma getFileSize_run (p : string) (w : World) :
  exists o,
    FileSystemUtils.getFileSize p w = (o, logStat p w).
Proof.
  unfold FileSystemUtils.getFileSize, tryCatch, bind, throw, ret.
  destruct (stat_run p w) as [o ->].
  destruct o as [stats|[|e]].
  - destruct (FileSystemUtils.isFile stats); cbn [negb]; [by eexists|].
    cbn [newError err_instanceofError err_message].
    destruct (JsString.includes _ _); by eexists.
  - by eexists.
  - destruct (err_instanceofError e); [|by eexists].
    destruct (err_message e) as [m|]; [|by eexists].
    destruct (JsString.includes m _); by eexists.
Qed.

Lemma getFileSize_fs (p : string) (w w1 : World) :
  fs w1 = fs w ->
  fst (FileSystemUtils.getFileSize p w1) = fst (FileSystemUtils.getFileSize p w).
Proof.
  intros Hfs. pose proof (stat_fs p w w1 Hfs) as Hstat.
  unfold FileSystemUtils.getFileSize, tryCatch, bind, throw, ret.
  destruct (stat_run p w) as [o Ho]. destruct (stat_run p w1) as [o1 Ho1].
  rewrite Ho, Ho1 in Hstat |- *. cbn [fst] in Hstat. subst o1.
  destruct o as [stats|[|e]].
  - destruct (FileSystemUtils.isFile stats); cbn [negb]; [done|].
    cbn [newError err_instanceofError err_message].
    by destruct (JsString.includes _ _).
  - done.
  - destruct (err_instanceofError e); [|done].
    destruct (err_message e) as [m|]; [|done].
    by destruct (JsString.includes m _).
Qed.

Lemma readable_fs (p : string) (w w1 : World) :
  fs w1 = fs w -> readable w1 p = readable w p.
Proof. intros H. unfold readable. by rewrite (getFileSize_fs p w w1 H). Qed.

Lemma warningFor_fs (p : string) (w w1 : World) :
  fs w1 = fs w -> warningFor w1 p = warningFor w p.
Proof. intros H. unfold warningFor. by rewrite (getFileSize_fs p w w1 H). Qed.

(** The loop over the matched paths: it resolves, it appends a file for
    every readable path and a warning for every other one. *)
Lemma statLoop_run (matchedPaths : list string) :
  forall (files : list ResolvedFile) (totalSize : nat) (w : World),
  exists new w1,
    PatternResolver.statLoop matchedPaths files totalSize w
    = (Resolved (files ++ new,
                 (totalSize + list_sum (map rf_size new))%nat), w1)
    /\ fs w1 = fs w
    /\ map rf_path new = List.filter (readable w) matchedPaths
    /\ Forall (fun f => rf_fileName f = basename (rf_path f)) new
    /\ warnings w1
       = warnings w
         ++ map (warningFor w)
              (List.filter (fun p => negb (readable w p)) matchedPaths)
    /\ statCalls w1 = statCalls w ++ matchedPaths.
Proof.
  induction matchedPaths as [|p rest IH]; intros files totalSize w.
  - exists [], w. cbn [PatternResolver.statLoop map list_sum List.filter].
    unfold ret. rewrite !app_nil_r, Nat.add_0_r. by repeat split.
  - destruct (getFileSize_run p w) as [o Hrun].
    assert (readable w p = isResolved o) as Hreadable
      by (unfold readable; by rewrite Hrun).
    cbn [PatternResolver.statLoop List.filter]. rewrite Hrun, Hreadable.
    destruct o as [size|error]; cbn [isResolved negb].
    + destruct (IH (files ++ [{| rf_path := p; rf_size := size;
                                 rf_fileName := FileSystemUtils.getFileName p |}])
                  (totalSize + size)%nat (logStat p w))
        as (new & w1 & Hloop & Hfs & Hpaths & Hnames & Hwarn & Hstat).
      exists ({| rf_path := p; rf_size := size;
                 rf_fileName := FileSystemUtils.getFileName p |} :: new), w1.
      rewrite Hloop. cbn [map rf_size rf_path].
      split.
      { change (list_sum (size :: map rf_size new))
          with (size + list_sum (map rf_size new))%nat.
        by rewrite <- app_assoc, Nat.add_assoc. }
      split; [done|].
      split.
      { rewrite Hpaths. f_equal. apply filter_ext. intros q.
        by apply readable_fs. }
      split; [by constructor|].
      split.
      { rewrite Hwarn. cbn [warnings logStat]. f_equal.
        erewrite filter_ext by (intros q; by rewrite (readable_fs q w (logStat p w))).
        apply map_ext. intros q. by apply warningFor_fs. }
      rewrite Hstat. cbn [statCalls logStat]. by rewrite <- app_assoc.
    + assert (warningFor w p
              = ("Warning: Could not read file " +:+ p +:+ ": "
                 +:+ PatternResolver.thrownToString error)%string) as Hline
        by (unfold warningFor; by rewrite Hrun).
      rewrite <- Hline.
      destruct (IH files totalSize (consoleWarn (warningFor w p) (logStat p w)))
        as (new & w1 & Hloop & Hfs & Hpaths & Hnames & Hwarn & Hstat).
      exists new, w1. rewrite Hloop.
      split; [done|]. split; [done|].
      split.
      { rewrite Hpaths. apply filter_ext. intros q. by apply readable_fs. }
      split; [done|].
      split.
      { rewrite Hwarn. cbn [warnings consoleWarn logStat map].
        rewrite <- app_assoc. cbn [app]. do 2 f_equal.
        erewrite filter_ext
          by (intros q;
              by rewrite (readable_fs q w (consoleWarn (warningFor w p) (logStat p w)))).
        apply map_ext. intros q. by apply warningFor_fs. }
      rewrite Hstat. cbn [statCalls consoleWarn logStat]. by rewrite <- app_assoc.
Qed.

(** The resolution succeeds whenever the glob does and the matches are
    within the limit: a path that cannot be read never fails it. *)
Lemma resolvePattern_resolves (env : Env) (pattern : string)
    (options : PatternResolver.Options) (w : World) (matched : list string) :
  fgAsync env pattern (default (processCwd env) (PatternResolver.cwd options))
  = Resolved matched ->
  Z.of_nat (length matched) <= default 10000 (PatternResolver.maxFiles options) ->
  exists r w1,
    PatternResolver.resolvePattern env pattern options w = (Resolved r, w1).
Proof.
  intros Hglob Hmax.
  unfold PatternResolver.resolvePattern, tryCatch, bind, ret. rewrite Hglob.
  destruct (Z.gtb_spec (Z.of_nat (length matched))
              (default 10000 (PatternResolver.maxFiles options))) as [Hgt|_];
    [lia|].
  destruct (statLoop_run matched [] 0%nat w) as (new & w1 & Hloop & _).
  rewrite Hloop. by eexists _, _.
Qed.

(** What a resolution that [resolvePattern] returns is made of. *)
Lemma resolvePattern_result (env : Env) (pattern : string)
    (options : PatternResolver.Options) (w w1 : World) (r : PatternResolution) :
  PatternResolver.resolvePattern env pattern options w = (Resolved r, w1) ->
  pr_totalFiles r = length (pr_files r)
  /\ pr_totalSize r = list_sum (map rf_size (pr_files r))
  /\ exists matched,
       fgAsync env pattern (default (processCwd env) (PatternResolver.cwd options))
       = Resolved matched
       /\ map rf_path (pr_files r) = List.filter (readable w) matched
       /\ warnings w1
          = warnings w
            ++ map (warningFor w)
                 (List.filter (fun p => negb (readable w p)) matched).
Proof.
  unfold PatternResolver.resolvePattern, tryCatch, bind, ret, throw.
  destruct (fgAsync env pattern _) as [matched|[|e]] eqn:Hglob;
    [| done | by destruct (err_instanceofError e)].
  destruct (Z.of_nat (length matched) >? _); [done|].
  destruct (statLoop_run matched [] 0%nat w)
    as (new & w2 & Hloop & _ & Hpaths & _ & Hwarn & _).
  rewrite Hloop. cbn [fst snd app Nat.add]. intros Hres.
  injection Hres as <- <-. cbn [pr_totalFiles pr_totalSize pr_files].
  split; [done|]. split; [done|]. by exists matched.
Qed.

(** C7. A resolution that [resolvePattern] returns has [totalFiles] equal
    to the number of its files and [totalSize] equal to the sum of their
    sizes; its files are the matched paths that could be read, in order,
    and every other matched path was skipped with one warning.  A path that
    cannot be read never fails the resolution: it returns whenever the glob
    succeeds with no more than [maxFiles] matches. *)
Theorem resolvePattern_totals (env : Env) (pattern : string)
    (options : PatternResolver.Options) (w : World) :
  (forall r w1,
     PatternResolver.resolvePattern env pattern options w = (Resolved r, w1) ->
     pr_totalFiles r = length (pr_files r)
     /\ pr_totalSize r = list_sum (map rf_size (pr_files r))
     /\ exists matched,
          fgAsync env pattern
            (default (processCwd env) (PatternResolver.cwd options))
          = Resolved matched
          /\ map rf_path (pr_files r) = List.filter (readable w) matched
          /\ warnings w1
             = warnings w
               ++ map (warningFor w)
                    (List.filter (fun p => negb (readable w p)) matched))
  /\ (forall matched,
       fgAsync env pattern
         (default (processCwd env) (PatternResolver.cwd options))
       = Resolved matched ->
       Z.of_nat (length matched)
       <= default 10000 (PatternResolver.maxFiles options) ->
       exists r w1,
         PatternResolver.resolvePattern env pattern options w = (Resolved r, w1)).
Proof.
  split.
  - intros r w1 Hres. by apply (resolvePattern_result env pattern options w w1).
  - intros matched Hglob Hmax.
    by apply (resolvePattern_resolves env pattern options w matched).
Qed.

(** The scenario of the specification, with a third match that is gone at
    the time of the [stat]: two files, 30 bytes, one warning. *)
Lemma resolvePattern_totals_witness :
  exists r w1,
    PatternResolver.resolvePattern Examples.globTxt "*.txt"
      Examples.defaultOptions (Examples.worldOf Examples.txtFiles)
    = (Resolved r, w1)
    /\ pr_totalFiles r = length (pr_files r)
    /\ pr_totalSize r = list_sum (map rf_size (pr_files r))
    /\ pr_totalFiles r = 2%nat /\ pr_totalSize r = 30%nat
    /\ map rf_fileName (pr_files r) = ["a.txt"; "b.txt"]
    /\ length (warnings w1) = 1%nat.
Proof.
  destruct (resolvePattern_totals Examples.globTxt "*.txt"
              Examples.defaultOptions (Examples.worldOf Examples.txtFiles))
    as [Hresult Hreturns].
  destruct (Hreturns ["/work/a.txt"; "/work/gone.txt"; "/work/b.txt"] eq_refl
              ltac:(vm_compute; discriminate)) as (r & w1 & Hrun).
  exists r, w1. split; [exact Hrun|].
  destruct (Hresult r w1 Hrun) as (Hfiles & Hsize & _).
  split; [exact Hfiles|]. split; [exact Hsize|].
  vm_compute in Hrun. injection Hrun as <- <-.
  repeat split; reflexivity.
Defined.

(** C6, as the code has it.  When the pattern matches more than [maxFiles]
    files (10000 when the option is left out), [resolvePattern] rejects
    with a plain [Error] whose message names the pattern, the number of
    matches and the limit; it has called [stat] on nothing and warned
    about nothing. *)
Theorem resolvePattern_too_many_matches (env : Env) (pattern : string)
    (options : PatternResolver.Options) (w : World) (matched : list string) :
  let limit := default 10000 (PatternResolver.maxFiles options) in
  fgAsync env pattern (default (processCwd env) (PatternResolver.cwd options))
  = Resolved matched ->
  limit < Z.of_nat (length matched) ->
  PatternResolver.resolvePattern env pattern options w
  = (Rejected
       (ThrownError
          (newError
             (PatternResolver.failedPrefix pattern
              +:+ PatternResolver.tooManyMessage (length matched) limit))), w).
Proof.
  cbn zeta. intros Hglob Hmax.
  unfold PatternResolver.resolvePattern, tryCatch, bind, throw. rewrite Hglob.
  destruct (Z.gtb_spec (Z.of_nat (length matched))
              (default 10000 (PatternResolver.maxFiles options))) as [_|Hle];
    [|lia].
  reflexivity.
Qed.

(** 10001 matches with the default limit. *)
Lemma resolvePattern_too_many_witness :
  let w := Examples.worldOf Examples.txtFiles in
  let r := PatternResolver.resolvePattern (Examples.globMany 10001) "**/*"
             Examples.defaultOptions w in
  (exists e, fst r = Rejected (ThrownError e)
     /\ err_message e
        = Some ("Failed to resolve pattern " +:+ JsString.dquote +:+ "**/*"
                +:+ JsString.dquote
                +:+ ": Pattern matched 10001 files, which exceeds the maximum limit of 10000. Please use a more specific pattern."))
  /\ statCalls (snd r) = [] /\ warnings (snd r) = [].
Proof.
  cbn zeta.
  rewrite (resolvePattern_too_many_matches (Examples.globMany 10001) "**/*"
             Examples.defaultOptions (Examples.worldOf Examples.txtFiles)
             (replicate 10001 "/work/f.txt") eq_refl
             ltac:(rewrite length_replicate; vm_compute; reflexivity)).
  rewrite length_replicate. split; [|split; reflexivity].
  eexists. split; [reflexivity|]. vm_compute. reflexivity.
Defined.

(** C6 as it is worded fails: the error of a pattern that matches too much
    is a plain [Error] with no [type], of the same class as the error for a
    glob that fails, from which only the text of its message tells it; no
    class or [ErrorType] of the code names a pattern that is too broad. *)
Lemma resolvePattern_error_kind_counterexample :
  let w := Examples.worldOf Examples.txtFiles in
  let options :=
    {| PatternResolver.cwd := None; PatternResolver.maxFiles := Some 2 |} in
  exists tooMany denied,
    fst (PatternResolver.resolvePattern Examples.globTxt "*.txt" options w)
    = Rejected (ThrownError tooMany)
    /\ fst (PatternResolver.resolvePattern Examples.globDenied "*.txt" options w)
       = Rejected (ThrownError denied)
    /\ err_name tooMany = "Error"
    /\ err_type tooMany = None
    /\ err_name tooMany <> "PatternTooBroadError"
    /\ err_name denied = err_name tooMany
    /\ err_type denied = err_type tooMany.
Proof.
  cbn zeta. eexists _, _. repeat split; try reflexivity.
  vm_compute. discriminate.
Qed.

(** ** The scenarios of the tests, run on the model *)

(** Two network errors, then success: three calls, two sleeps. *)
Example uploadFile_retries_then_succeeds :
  let r := HFClient.uploadFile (Examples.clientWith 2) Examples.hubFlaky
             Examples.uploadOne (Examples.worldOf Examples.twoFiles) in
  fst r
  = Resolved
      {| HFClient.ur_success := true;
         HFClient.ur_fileUrl :=
           Some "https://huggingface.co/user/repo/blob/main/a.bin";
         HFClient.ur_commitSha := Some "test-commit-sha";
         HFClient.ur_error := None |}
  /\ length (uploadFileCalls (snd r)) = 3%nat
  /\ sleeps (snd r) = [10; 20].
Proof. vm_compute. repeat split; reflexivity. Qed.

(** A 401 is not retried and is reported as an authentication failure. *)
Example uploadFile_unauthorized :
  let r := HFClient.uploadFile (Examples.clientWith 2) Examples.hubUnauthorized
             Examples.uploadOne (Examples.worldOf Examples.twoFiles) in
  fst r
  = Resolved
      {| HFClient.ur_success := false;
         HFClient.ur_fileUrl := None;
         HFClient.ur_commitSha := None;
         HFClient.ur_error := Some "Authentication failed" |}
  /\ length (uploadFileCalls (snd r)) = 1%nat.
Proof. vm_compute. repeat split; reflexivity. Qed.

(** A network error with no retry. *)
Example uploadFile_network_error :
  let r := HFClient.uploadFile (Examples.clientWith 0) Examples.hubDown
             Examples.uploadOne (Examples.worldOf Examples.twoFiles) in
  fst r
  = Resolved
      {| HFClient.ur_success := false;
         HFClient.ur_fileUrl := None;
         HFClient.ur_commitSha := None;
         HFClient.ur_error := Some "Network or API error: Network error" |}
  /\ length (uploadFileCalls (snd r)) = 1%nat.
Proof. vm_compute. repeat split; reflexivity. Qed.

(** 1500 files, the first batch accepted and the second refused at every
    attempt: 1000 files uploaded, the last 500 failed, four attempts for
    the second batch. *)
Example uploadFiles_second_batch_fails :
  let r := HFClient.uploadFiles Examples.client Examples.hubFirstCallOnly
             (Examples.uploadOf (Examples.manyPaths 1500))
             (Examples.worldOf (Examples.manyFiles 1500)) in
  fst r
  = Resolved
      {| HFClient.mr_success := true;
         HFClient.mr_filesUploaded := 1000;
         HFClient.mr_totalFiles := 1500;
         HFClient.mr_commitSha := Some "c0ffee";
         HFClient.mr_failedFiles := Some (drop 1000 (Examples.manyPaths 1500));
         HFClient.mr_error := None |}
  /\ map (fun p => length (ufs_files p)) (uploadFilesCalls (snd r))
     = [1000; 500; 500; 500; 500]%nat.
Proof. vm_compute. repeat split; reflexivity. Qed.

(* ================================================================== *)
(** * Further properties *)
(* ================================================================== *)

(** ** The retry executor, whatever the operation does *)

Section RetryBounds.
Context {W T : Type}.
Variable cfg : RetryConfig.
Variable sleepW : Z -> W -> W.
Variable operation : Async W T.

(** Whatever the operation does, [withRetry] invokes it at most
    [maxRetries + 1] times (and not at all when [maxRetries] is negative). *)
Theorem withRetry_invocations_bounded (n : nat) (w : W) :
  let r := withRetry cfg (sleepCounted sleepW) (counted operation) (n, w) in
  (n <= fst (snd r) <= n + Z.to_nat (maxRetries cfg + 1))%nat.
Proof.
  cbn zeta. unfold withRetry.
  generalize (Z.to_nat (maxRetries cfg + 1)) as remaining.
  generalize 0 as attempt. generalize ThrownUndefined as last.
  intros last attempt remaining. revert attempt last n w.
  induction remaining as [|r IH]; intros attempt last n w.
  - cbn [retryLoop fst snd]. lia.
  - cbn [retryLoop].
    destruct (operation w) as [o w1] eqn:Hop.
    rewrite (counted_run operation n w w1 o Hop).
    destruct o as [v|[|e]]; [cbn [fst snd]; lia | cbn [fst snd]; lia |].
    destruct (shouldNotRetry e); [cbn [fst snd]; lia|].
    destruct (attempt =? maxRetries cfg); [cbn [fst snd]; lia|].
    specialize (IH (attempt + 1) (ThrownError e) (S n)
                  (sleepW (backoffDelay cfg attempt) w1)).
    change (sleepCounted sleepW (backoffDelay cfg attempt) (S n, w1))
      with (S n, sleepW (backoffDelay cfg attempt) w1).
    lia.
Qed.
End RetryBounds.

(** ** The delays between the attempts *)

(** The delay before the jitter never exceeds [maxDelay]; it is
    [baseDelay * 2 ^ attempt] as long as that is below [maxDelay]; and, for
    a [baseDelay] that is not negative, it never decreases from an attempt
    to the next. *)
Theorem backoffDelay_capped_and_monotone (cfg : RetryConfig) (n m : Z) :
  backoffDelay cfg n <= maxDelay cfg
  /\ (baseDelay cfg * 2 ^ n <= maxDelay cfg ->
      backoffDelay cfg n = baseDelay cfg * 2 ^ n)
  /\ (0 <= baseDelay cfg -> 0 <= n <= m ->
      backoffDelay cfg n <= backoffDelay cfg m).
Proof.
  unfold backoffDelay. split; [lia|]. split; [lia|].
  intros Hbase Hnm.
  assert (2 ^ n <= 2 ^ m) by (apply Z.pow_le_mono_r; lia).
  assert (baseDelay cfg * 2 ^ n <= baseDelay cfg * 2 ^ m) by nia.
  lia.
Qed.

(** The delays of the default configuration: one, two and four seconds
    before the second, third and fourth attempt. *)
Lemma backoffDelay_witness :
  backoffDelay DEFAULT_RETRY_CONFIG 0 <= 10000
  /\ backoffDelay DEFAULT_RETRY_CONFIG 2 = 4000
  /\ backoffDelay DEFAULT_RETRY_CONFIG 2 <= backoffDelay DEFAULT_RETRY_CONFIG 5
  /\ backoffDelays DEFAULT_RETRY_CONFIG 3 = [1000; 2000; 4000].
Proof.
  destruct (backoffDelay_capped_and_monotone DEFAULT_RETRY_CONFIG 0 0)
    as (Hcap & _ & _).
  destruct (backoffDelay_capped_and_monotone DEFAULT_RETRY_CONFIG 2 5)
    as (_ & Hexact & Hmono).
  split; [exact Hcap|]. split; [apply Hexact; vm_compute; discriminate|].
  split; [apply Hmono; [vm_compute; discriminate | lia]|].
  reflexivity.
Defined.

Section RetrySleeps.
Context {T : Type}.
Variable cfg : RetryConfig.
Variable operation : Async World T.
Hypothesis Hkeep : keepsSleeps operation.

Lemma retryLoop_sleeps :
  forall (remaining a : nat) (last : Thrown) (n : nat) (w : World),
    remaining = 0%nat
    \/ Z.of_nat a + Z.of_nat remaining = maxRetries cfg + 1 ->
    let r := retryLoop cfg (sleepCounted sleep) (counted operation)
               remaining (Z.of_nat a) last (n, w) in
    exists k,
      fst (snd r) = (n + k)%nat /\ (k <= remaining)%nat
      /\ (0 < remaining -> 0 < k)%nat
      /\ sleeps (snd (snd r))
         = sleeps w
           ++ map (fun j => backoffDelay cfg (Z.of_nat j)) (seq a (k - 1)).
Proof.
  intros remaining.
  induction remaining as [|r IH]; intros a last n w Hrel; cbn zeta.
  - exists 0%nat. cbn [retryLoop fst snd seq map].
    split; [lia|]. split; [lia|]. split; [lia|]. by rewrite app_nil_r.
  - cbn [retryLoop].
    destruct (operation w) as [o w1] eqn:Hop.
    rewrite (counted_run operation n w w1 o Hop).
    pose proof (Hkeep w) as Hs. rewrite Hop in Hs. cbn [snd] in Hs.
    assert (exists k,
              S n = (n + k)%nat /\ (k <= S r)%nat
              /\ (0 < S r -> 0 < k)%nat
              /\ sleeps w1
                 = sleeps w
                   ++ map (fun j => backoffDelay cfg (Z.of_nat j)) (seq a (k - 1)))
      as Hone.
    { exists 1%nat. cbn [Nat.sub seq map]. split; [lia|]. split; [lia|].
      split; [lia|]. by rewrite app_nil_r. }
    destruct o as [v|[|e]]; [exact Hone | exact Hone |].
    destruct (shouldNotRetry e); [exact Hone|].
    destruct (Z.eqb_spec (Z.of_nat a) (maxRetries cfg)) as [Heq|Hne];
      [exact Hone|].
    change (sleepCounted sleep (backoffDelay cfg (Z.of_nat a)) (S n, w1))
      with (S n, sleep (backoffDelay cfg (Z.of_nat a)) w1).
    replace (Z.of_nat a + 1) with (Z.of_nat (S a)) by lia.
    destruct (IH (S a) (ThrownError e) (S n)
                (sleep (backoffDelay cfg (Z.of_nat a)) w1) ltac:(lia))
      as (k & Hcount & Hk & Hpos & Hsleeps).
    assert (0 < k)%nat as Hk1 by (apply Hpos; lia).
    exists (S k). split; [lia|]. split; [lia|]. split; [lia|].
    rewrite Hsleeps. cbn [sleeps sleep]. rewrite Hs, <- app_assoc.
    f_equal. destruct k as [|k']; [lia|].
    cbn [Nat.sub seq map app]. by rewrite Nat.sub_0_r.
Qed.

(** Between two invocations [withRetry] sleeps once: after [k]
    invocations the world has slept [k - 1] times, the [j]-th time for
    [min(baseDelay * 2 ^ j, maxDelay)] (to which the code adds the jitter). *)
Theorem withRetry_sleeps_between_attempts (n : nat) (w : World) :
  let r := withRetry cfg (sleepCounted sleep) (counted operation) (n, w) in
  exists k,
    fst (snd r) = (n + k)%nat
    /\ (k <= Z.to_nat (maxRetries cfg + 1))%nat
    /\ sleeps (snd (snd r)) = sleeps w ++ backoffDelays cfg (k - 1)
    /\ Forall (fun d => d <= maxDelay cfg) (backoffDelays cfg (k - 1)).
Proof.
  cbn zeta.
  destruct (retryLoop_sleeps (Z.to_nat (maxRetries cfg + 1)) 0 ThrownUndefined n w
              ltac:(lia))
    as (k & Hcount & Hk & _ & Hsleeps).
  exists k. split; [exact Hcount|]. split; [exact Hk|]. split; [exact Hsleeps|].
  unfold backoffDelays. apply Forall_map, Forall_forall. intros j _. cbn.
  unfold backoffDelay. lia.
Qed.
End RetrySleeps.

(** The operation of [uploadFile] leaves the sleeps alone. *)
Lemma callUploadFile_keepsSleeps (env : Env) (p : UploadFileParams) :
  keepsSleeps (HFClient.callUploadFile env p).
Proof. intros w. reflexivity. Qed.

(** Three invocations of a hub that fails twice: two sleeps, of 10 and 20
    milliseconds. *)
Lemma withRetry_sleeps_witness :
  let p := HFClient.uploadOptionsOf (Examples.clientWith 2) Examples.uploadOne [x61] in
  let r := withRetry (mkRetryConfig 2 10 100) (sleepCounted sleep)
             (counted (HFClient.callUploadFile Examples.hubFlaky p))
             (0%nat, Examples.worldOf Examples.twoFiles) in
  keepsSleeps (HFClient.callUploadFile Examples.hubFlaky p)
  /\ fst (snd r) = 3%nat
  /\ sleeps (snd (snd r)) = [10; 20].
Proof.
  cbn zeta.
  set (p := HFClient.uploadOptionsOf (Examples.clientWith 2) Examples.uploadOne [x61]).
  split; [apply callUploadFile_keepsSleeps|].
  destruct (withRetry_sleeps_between_attempts (mkRetryConfig 2 10 100)
              (HFClient.callUploadFile Examples.hubFlaky p)
              (callUploadFile_keepsSleeps Examples.hubFlaky p)
              0%nat (Examples.worldOf Examples.twoFiles))
    as (k & Hcount & _ & _ & _).
  split; vm_compute; reflexivity.
Defined.

(** ** Success after failures *)

Lemma retryLoop_until_success (cfg : RetryConfig) (env : Env)
    (p : UploadFileParams) (v : CommitOutput) (i n0 : nat) :
  Z.of_nat i <= maxRetries cfg ->
  (forall j, (j < i)%nat ->
     exists e, hfUploadFile env (n0 + j) p = Rejected (ThrownError e)
               /\ shouldNotRetry e = false) ->
  hfUploadFile env (n0 + i) p = Resolved v ->
  forall (d k : nat) (last : Thrown) (w : World),
    (k + d = i)%nat ->
    length (uploadFileCalls w) = (n0 + k)%nat ->
    exists w1,
      retryLoop cfg sleep (HFClient.callUploadFile env p)
        (Z.to_nat (maxRetries cfg + 1) - k) (Z.of_nat k) last w
      = (Resolved v, w1)
      /\ uploadFileCalls w1 = uploadFileCalls w ++ replicate (S d) p
      /\ sleeps w1
         = sleeps w ++ map (fun j => backoffDelay cfg (Z.of_nat j)) (seq k d)
      /\ fs w1 = fs w.
Proof.
  intros Hi Hfail Hok d.
  induction d as [|d IH]; intros k last w Hkd Hlen.
  - assert (k = i) as -> by lia.
    destruct (Z.to_nat (maxRetries cfg + 1) - i)%nat as [|r] eqn:Hr; [lia|].
    cbn [retryLoop]. unfold HFClient.callUploadFile. rewrite Hlen, Hok.
    eexists. split; [reflexivity|]. cbn [seq map].
    by rewrite app_nil_r.
  - destruct (Hfail k ltac:(lia)) as (e & Hrej & Hretry).
    destruct (Z.to_nat (maxRetries cfg + 1) - k)%nat as [|r] eqn:Hr; [lia|].
    cbn [retryLoop]. unfold HFClient.callUploadFile at 1.
    rewrite Hlen, Hrej, Hretry.
    destruct (Z.eqb_spec (Z.of_nat k) (maxRetries cfg)) as [Heq|Hne]; [lia|].
    replace (Z.of_nat k + 1) with (Z.of_nat (S k)) by lia.
    replace r with (Z.to_nat (maxRetries cfg + 1) - S k)%nat by lia.
    destruct (IH (S k) (ThrownError e)
                (sleep (backoffDelay cfg (Z.of_nat k)) (logUploadFile p w))
                ltac:(lia)) as (w1 & Hrun & Hcalls & Hsleeps & Hfs).
    { cbn [sleep uploadFileCalls logUploadFile]. rewrite length_app.
      cbn [length]. lia. }
    exists w1. split; [exact Hrun|].
    split.
    { rewrite Hcalls. cbn [sleep uploadFileCalls logUploadFile replicate].
      by rewrite <- app_assoc. }
    split; [|by rewrite Hfs].
    rewrite Hsleeps. cbn [sleep sleeps logUploadFile seq map].
    by rewrite <- app_assoc.
Qed.

(** When the hub fails [i] times with errors that are not terminal and
    then accepts, and [i] is at most [maxRetries], [withRetry] resolves with
    the answer of the hub after [i + 1] calls with the same parameters and
    [i] sleeps. *)
Theorem withRetry_succeeds_after_failures (cfg : RetryConfig) (env : Env)
    (p : UploadFileParams) (v : CommitOutput) (i : nat) (w : World) :
  Z.of_nat i <= maxRetries cfg ->
  (forall j, (j < i)%nat ->
     exists e,
       hfUploadFile env (length (uploadFileCalls w) + j) p
       = Rejected (ThrownError e)
       /\ shouldNotRetry e = false) ->
  hfUploadFile env (length (uploadFileCalls w) + i) p = Resolved v ->
  exists w1,
    withRetry cfg sleep (HFClient.callUploadFile env p) w = (Resolved v, w1)
    /\ uploadFileCalls w1 = uploadFileCalls w ++ replicate (S i) p
    /\ sleeps w1 = sleeps w ++ backoffDelays cfg i
    /\ fs w1 = fs w.
Proof.
  intros Hi Hfail Hok. unfold withRetry.
  destruct (retryLoop_until_success cfg env p v i (length (uploadFileCalls w))
              Hi Hfail Hok i 0%nat ThrownUndefined w ltac:(lia) ltac:(lia))
    as (w1 & Hrun & Hrest).
  rewrite Nat.sub_0_r in Hrun. by exists w1.
Qed.

(** The test of the repository: two network errors, then a commit. *)
Lemma withRetry_succeeds_witness :
  let p := HFClient.uploadOptionsOf (Examples.clientWith 2) Examples.uploadOne [x61] in
  exists w1,
    withRetry (mkRetryConfig 2 10 100) sleep
      (HFClient.callUploadFile Examples.hubFlaky p)
      (Examples.worldOf Examples.twoFiles)
    = (Resolved {| commit := Some "test-commit-sha" |}, w1)
    /\ uploadFileCalls w1 = [p; p; p]
    /\ sleeps w1 = [10; 20].
Proof.
  cbn zeta.
  destruct (withRetry_succeeds_after_failures (mkRetryConfig 2 10 100)
              Examples.hubFlaky
              (HFClient.uploadOptionsOf (Examples.clientWith 2) Examples.uploadOne [x61])
              {| commit := Some "test-commit-sha" |} 2
              (Examples.worldOf Examples.twoFiles))
    as (w1 & Hrun & Hcalls & Hsleeps & _).
  - simpl. lia.
  - intros j Hj. exists Examples.networkError.
    destruct j as [|[|j]]; [split; reflexivity | split; reflexivity | lia].
  - reflexivity.
  - exists w1. split; [exact Hrun|]. split; [exact Hcalls | exact Hsleeps].
Defined.

(** ** [handleError] and the results of [uploadFile] *)

(** A rejection of [retryLoop] is the last error when no attempt was left,
    and an error object otherwise: [undefined] is never rethrown. *)
Lemma retryLoop_rejection {W T} (cfg : RetryConfig) (sl : Z -> W -> W)
    (operation : Async W T) :
  forall remaining attempt last w t w1,
    retryLoop cfg sl operation remaining attempt last w = (Rejected t, w1) ->
    (remaining = 0%nat /\ t = last /\ w1 = w) \/ exists e, t = ThrownError e.
Proof.
  intros remaining.
  induction remaining as [|r IH]; intros attempt last w t w1 Hrun.
  - left. cbn [retryLoop] in Hrun. by injection Hrun as <- <-.
  - right. cbn [retryLoop] in Hrun.
    destruct (operation w) as [[v|[|e]] w2]; [done | | ].
    + injection Hrun as <- _. by eexists.
    + destruct (shouldNotRetry e); [injection Hrun as <- _; by eexists|].
      destruct (attempt =? maxRetries cfg); [injection Hrun as <- _; by eexists|].
      apply IH in Hrun as [(_ & -> & _)|Herr]; [by eexists | exact Herr].
Qed.

(** What [withRetry] around [hfUploadFile] changes in the world. *)
Lemma retryLoop_uploadFile_log (cfg : RetryConfig) (env : Env)
    (p : UploadFileParams) :
  forall remaining attempt last w res w1,
    retryLoop cfg sleep (HFClient.callUploadFile env p)
      remaining attempt last w = (res, w1) ->
    fs w1 = fs w
    /\ uploadFilesCalls w1 = uploadFilesCalls w
    /\ exists k, (k <= remaining)%nat
         /\ (isResolved res = true -> 0 < k)%nat
         /\ uploadFileCalls w1 = uploadFileCalls w ++ replicate k p.
Proof.
  intros remaining.
  induction remaining as [|r IH]; intros attempt last w res w1 Hrun.
  - injection Hrun as <- <-. split; [done|]. split; [done|].
    exists 0%nat. split; [lia|]. split; [done|]. by rewrite app_nil_r.
  - cbn [retryLoop] in Hrun.
    destruct (HFClient.callUploadFile env p w) as [o w2] eqn:Hcall.
    unfold HFClient.callUploadFile in Hcall. injection Hcall as _ <-.
    assert (fs (logUploadFile p w) = fs w
            /\ uploadFilesCalls (logUploadFile p w) = uploadFilesCalls w
            /\ exists k, (k <= S r)%nat
                 /\ (true = true -> 0 < k)%nat
                 /\ uploadFileCalls (logUploadFile p w)
                    = uploadFileCalls w ++ replicate k p) as Hone.
    { split; [done|]. split; [done|]. exists 1%nat. split; [lia|]. split; [lia|done]. }
    destruct Hone as (Hfs1 & Hm1 & k1 & Hk1 & Hpos1 & Hlog1).
    assert (forall res0, res = res0 -> w1 = logUploadFile p w ->
              fs w1 = fs w
              /\ uploadFilesCalls w1 = uploadFilesCalls w
              /\ exists k, (k <= S r)%nat
                   /\ (isResolved res = true -> 0 < k)%nat
                   /\ uploadFileCalls w1 = uploadFileCalls w ++ replicate k p)
      as Hdone.
    { intros res0 _ ->. split; [done|]. split; [done|].
      exists k1. split; [done|]. split; [intros _; by apply Hpos1 | done]. }
    destruct o as [v|[|e]];
      [injection Hrun as <- <-; by eapply Hdone
      |injection Hrun as <- <-; by eapply Hdone |].
    destruct (shouldNotRetry e); [injection Hrun as <- <-; by eapply Hdone|].
    destruct (attempt =? maxRetries cfg);
      [injection Hrun as <- <-; by eapply Hdone|].
    apply IH in Hrun as (Hfs & Hm & k & Hk & Hpos & Hlog).
    split; [by rewrite Hfs|]. split; [by rewrite Hm|].
    exists (S k). split; [lia|]. split; [lia|]. rewrite Hlog.
    cbn [sleep uploadFileCalls logUploadFile replicate].
    by rewrite <- app_assoc.
Qed.

(** When [message] is the text of a plain object and holds none of the
    texts that [handleError] looks for, the error becomes a network error
    that quotes the message. *)
Lemma handleError_plain_default (e : JsError) (m : string) :
  err_instanceofError e = false ->
  JsString.orElse (err_message e) (errorToString e) = m ->
  noKeyword m = true ->
  HFClient.handleError (ThrownError e)
  = Resolved (HFClient.createError NETWORK_ERROR
                ("Network or API error: " +:+ m)
                (Some "Please check your internet connection and try again.")).
Proof.
  intros Hplain Hm Hno. unfold HFClient.handleError. rewrite Hplain, Hm.
  cbn [andb]. unfold noKeyword, handleErrorKeywords in Hno.
  cbn [forallb] in Hno.
  repeat (apply andb_prop in Hno as [?%negb_true_iff Hno]).
  by repeat match goal with H : JsString.includes m _ = false |- _ =>
              rewrite H; clear H end.
Qed.

(** The errors that [validateUploadInputs] throws are plain objects with
    a message that is not empty. *)
Lemma validateUploadInputs_throws (options : HFClient.UploadOptions) (t : Thrown) :
  HFClient.validateUploadInputs options = Rejected t ->
  exists e c m,
    t = ThrownError e /\ err_instanceofError e = false
    /\ err_type e = Some VALIDATION_ERROR
    /\ err_message e = Some (String c m).
Proof.
  unfold HFClient.validateUploadInputs.
  repeat case_match; intros Hrej; try discriminate; injection Hrej as <-;
    eexists _, _, _; repeat split; reflexivity.
Qed.

(** [uploadFile] reports a failed validation as a network error: the
    result has [success = false] and, when the message of the validation
    holds no text that [handleError] looks for, its [error] is that message
    behind ["Network or API error: "]; the type [validation_error] is
    lost.  Nothing is sent and the world does not change. *)
Theorem uploadFile_validation_failure (this : HFClient.t) (env : Env)
    (options : HFClient.UploadOptions) (w : World) (t : Thrown) :
  HFClient.validateUploadInputs options = Rejected t ->
  exists e m c,
    t = ThrownError e /\ err_message e = Some m
    /\ err_type e = Some VALIDATION_ERROR
    /\ HFClient.handleError t = Resolved c
    /\ err_type c <> Some VALIDATION_ERROR
    /\ HFClient.uploadFile this env options w
       = (Resolved
            {| HFClient.ur_success := false;
               HFClient.ur_fileUrl := None;
               HFClient.ur_commitSha := None;
               HFClient.ur_error := err_message c |}, w)
    /\ (noKeyword m = true ->
        err_message c = Some ("Network or API error: " +:+ m)).
Proof.
  intros Hinvalid.
  destruct (validateUploadInputs_throws options t Hinvalid)
    as (e & ch & m & -> & Hplain & Htype & Hm).
  destruct (handleError_of_error e) as [c Hc].
  exists e, (String ch m), c.
  split; [done|]. split; [done|]. split; [done|]. split; [done|].
  split.
  { unfold HFClient.handleError in Hc. rewrite Hplain in Hc. cbn [andb] in Hc.
    repeat case_match; injection Hc as <-; discriminate. }
  split.
  { unfold HFClient.uploadFile, tryCatch, bind, HFClient.liftOutcome, ret.
    by rewrite Hinvalid, Hc. }
  intros Hno.
  rewrite (handleError_plain_default e (String ch m) Hplain) in Hc;
    [by injection Hc as <- | by rewrite Hm | exact Hno].
Qed.

(** A blank repository id, and a repository type that reads as a status
    code. *)
Lemma uploadFile_validation_witness :
  let blank :=
    {| HFClient.uo_repoId := "  "; HFClient.uo_filePath := "/data/a.bin";
       HFClient.uo_token := None; HFClient.uo_repoType := "model";
       HFClient.uo_message := None |} in
  let w := Examples.worldOf Examples.twoFiles in
  HFClient.validateUploadInputs blank = Rejected (ThrownError HFClient.repoIdRequired)
  /\ HFClient.uploadFile Examples.client Examples.hubUp blank w
     = (Resolved
          {| HFClient.ur_success := false;
             HFClient.ur_fileUrl := None;
             HFClient.ur_commitSha := None;
             HFClient.ur_error :=
               Some "Network or API error: Repository ID is required" |}, w).
Proof.
  cbn zeta. split; [reflexivity|].
  destruct (uploadFile_validation_failure Examples.client Examples.hubUp
              {| HFClient.uo_repoId := "  "; HFClient.uo_filePath := "/data/a.bin";
                 HFClient.uo_token := None; HFClient.uo_repoType := "model";
                 HFClient.uo_message := None |}
              (Examples.worldOf Examples.twoFiles)
              (ThrownError HFClient.repoIdRequired) eq_refl)
    as (e & m & c & He & Hm & _ & _ & _ & Hrun & Htext).
  injection He as <-. injection Hm as <-.
  rewrite Hrun. by rewrite (Htext eq_refl).
Defined.

(** A repository type that holds ["404"] is reported as a file that was
    not found. *)
Example uploadFile_repoType_read_as_status :
  fst (HFClient.uploadFile Examples.client Examples.hubUp
         {| HFClient.uo_repoId := "user/repo"; HFClient.uo_filePath := "/data/a.bin";
            HFClient.uo_token := None; HFClient.uo_repoType := "model-404";
            HFClient.uo_message := None |}
         (Examples.worldOf Examples.twoFiles))
  = Resolved
      {| HFClient.ur_success := false;
         HFClient.ur_fileUrl := None;
         HFClient.ur_commitSha := None;
         HFClient.ur_error := Some "Repository or file not found" |}.
Proof. vm_compute. reflexivity. Qed.

Lemma createStreamingFileBlob_throws (w : World) (p : string) (t : Thrown) :
  HFClient.createStreamingFileBlob w p = Rejected t -> exists e, t = ThrownError e.
Proof.
  unfold HFClient.createStreamingFileBlob.
  repeat case_match; intros Hrej; try discriminate; injection Hrej as <-;
    by eexists.
Qed.

(** With a [maxRetries] that is not negative, [uploadFile] never rejects:
    it resolves with a result, leaves the file system as it was, calls the
    hub at most [maxRetries + 1] times, and reports a success only after
    it called the hub. *)
Theorem uploadFile_always_resolves (this : HFClient.t) (env : Env)
    (options : HFClient.UploadOptions) (w : World) :
  0 <= maxRetries (HFClient.retryConfig this) ->
  exists r w1,
    HFClient.uploadFile this env options w = (Resolved r, w1)
    /\ fs w1 = fs w
    /\ (length (uploadFileCalls w)
        <= length (uploadFileCalls w1)
        <= length (uploadFileCalls w)
           + Z.to_nat (maxRetries (HFClient.retryConfig this) + 1))%nat
    /\ (HFClient.ur_success r = true ->
        (length (uploadFileCalls w) < length (uploadFileCalls w1))%nat
        /\ HFClient.ur_error r = None
        /\ is_Some (HFClient.ur_commitSha r)).
Proof.
  intros Hk.
  assert (forall e,
    exists r,
      (let* c := HFClient.liftOutcome (HFClient.handleError (ThrownError e)) in
       ret {| HFClient.ur_success := false; HFClient.ur_fileUrl := None;
              HFClient.ur_commitSha := None;
              HFClient.ur_error := err_message c |})%async w
      = (Resolved r, w)
      /\ HFClient.ur_success r = false) as Hcatch.
  { intros e. destruct (handleError_of_error e) as [c Hc].
    unfold bind, HFClient.liftOutcome, ret. rewrite Hc. by eexists. }
  unfold HFClient.uploadFile, tryCatch.
  unfold bind at 1, HFClient.liftOutcome at 1.
  destruct (HFClient.validateUploadInputs options) as [[]|t] eqn:Hvalid.
  - unfold bind at 1, gets.
    destruct (HFClient.pathExists w (HFClient.uo_filePath options)) eqn:Hexists;
      cbn [negb].
    + unfold bind at 1.
      destruct (HFClient.createStreamingFileBlob w (HFClient.uo_filePath options))
        as [blob|t] eqn:Hblob.
      * unfold bind at 1.
        destruct (withRetry (HFClient.retryConfig this) sleep _ w)
          as [[result|t] w1] eqn:Hrun.
        -- unfold ret. apply retryLoop_uploadFile_log in Hrun
             as (Hfs & _ & k & Hkr & Hpos & Hlog).
           eexists _, w1. split; [reflexivity|]. split; [done|].
           rewrite Hlog, length_app, length_replicate.
           split; [lia|]. intros _. cbn.
           specialize (Hpos eq_refl). split; [lia|]. split; [done|]. by eexists.
        -- pose proof Hrun as Hrej.
           apply retryLoop_rejection in Hrej as [(Hzero & _)|[e ->]]; [lia|].
           apply retryLoop_uploadFile_log in Hrun
             as (Hfs & _ & k & Hkr & _ & Hlog).
           destruct (handleError_of_error e) as [c Hc].
           unfold bind, HFClient.liftOutcome, ret. rewrite Hc.
           eexists _, w1. split; [reflexivity|]. split; [done|].
           rewrite Hlog, length_app, length_replicate.
           split; [lia|]. cbn. done.
      * destruct (createStreamingFileBlob_throws w _ t Hblob) as [e ->].
        destruct (Hcatch e) as (r & -> & Hfalse).
        exists r, w. split; [done|]. split; [done|]. split; [lia|].
        by rewrite Hfalse.
    + unfold throw. destruct (Hcatch
        (HFClient.createError FILE_NOT_FOUND
           ("Local file not found: " +:+ HFClient.uo_filePath options)
           (Some "Please check the file path and ensure the file exists.")))
        as (r & -> & Hfalse).
      exists r, w. split; [done|]. split; [done|]. split; [lia|].
      by rewrite Hfalse.
  - destruct (validateUploadInputs_throws options t Hvalid) as (e & ? & ? & -> & _).
    destruct (Hcatch e) as (r & -> & Hfalse).
    exists r, w. split; [done|]. split; [done|]. split; [lia|].
    by rewrite Hfalse.
Qed.

Lemma uploadFile_always_resolves_witness :
  exists r w1,
    HFClient.uploadFile (Examples.clientWith 2) Examples.hubFlaky
      Examples.uploadOne (Examples.worldOf Examples.twoFiles)
    = (Resolved r, w1)
    /\ fs w1 = fs (Examples.worldOf Examples.twoFiles)
    /\ length (uploadFileCalls w1) = 3%nat
    /\ HFClient.ur_success r = true.
Proof.
  destruct (uploadFile_always_resolves (Examples.clientWith 2) Examples.hubFlaky
              Examples.uploadOne (Examples.worldOf Examples.twoFiles)
              ltac:(simpl; lia))
    as (r & w1 & Hrun & Hfs & _ & _).
  exists r, w1. split; [exact Hrun|]. split; [exact Hfs|].
  vm_compute in Hrun. injection Hrun as <- <-. split; reflexivity.
Defined.

(** With a negative [maxRetries] and inputs that pass every check,
    [uploadFile] does not resolve with a result: [withRetry] throws
    [undefined] without calling the hub, and [handleError], reading the
    message of [undefined], throws a [TypeError] out of [uploadFile]. *)
Theorem uploadFile_negative_maxRetries_throws (this : HFClient.t) (env : Env)
    (options : HFClient.UploadOptions) (w : World) :
  maxRetries (HFClient.retryConfig this) < 0 ->
  HFClient.validateUploadInputs options = Resolved tt ->
  isResolved (HFClient.createStreamingFileBlob w (HFClient.uo_filePath options))
  = true ->
  HFClient.uploadFile this env options w
  = (Rejected (ThrownError typeErrorOfUndefined), w).
Proof.
  intros Hneg Hvalid Hblob.
  pose proof (createStreamingFileBlob_exists w _ Hblob) as Hexists.
  destruct (HFClient.createStreamingFileBlob w (HFClient.uo_filePath options))
    as [blob|] eqn:Hb; [|done].
  unfold HFClient.uploadFile, tryCatch, bind, HFClient.liftOutcome, gets.
  rewrite Hvalid, Hexists. cbn [negb]. rewrite Hb.
  unfold withRetry.
  replace (Z.to_nat (maxRetries (HFClient.retryConfig this) + 1)) with 0%nat by lia.
  reflexivity.
Qed.

Lemma uploadFile_negative_maxRetries_witness :
  HFClient.uploadFile (Examples.clientWith (-1)) Examples.hubUp Examples.uploadOne
    (Examples.worldOf Examples.twoFiles)
  = (Rejected (ThrownError typeErrorOfUndefined),
     Examples.worldOf Examples.twoFiles).
Proof.
  apply (uploadFile_negative_maxRetries_throws (Examples.clientWith (-1))
           Examples.hubUp Examples.uploadOne (Examples.worldOf Examples.twoFiles));
    [simpl; lia | reflexivity | reflexivity].
Defined.

(** A local file that is missing: nothing is sent; the [file_not_found]
    that [uploadFile] throws is reported, like every plain object, by the
    text of its message, as a network error when the path holds no text
    that [handleError] looks for. *)
Theorem uploadFile_missing_local_file (this : HFClient.t) (env : Env)
    (options : HFClient.UploadOptions) (w : World) :
  HFClient.validateUploadInputs options = Resolved tt ->
  HFClient.pathExists w (HFClient.uo_filePath options) = false ->
  exists text,
    HFClient.uploadFile this env options w
    = (Resolved
         {| HFClient.ur_success := false;
            HFClient.ur_fileUrl := None;
            HFClient.ur_commitSha := None;
            HFClient.ur_error := Some text |}, w)
    /\ (noKeyword (HFClient.uo_filePath options) = true ->
        text = "Network or API error: Local file not found: "
               +:+ HFClient.uo_filePath options).
Proof.
  intros Hvalid Hmissing.
  set (p := HFClient.uo_filePath options) in *.
  set (e := HFClient.createError FILE_NOT_FOUND ("Local file not found: " +:+ p)
              (Some "Please check the file path and ensure the file exists.")).
  assert (exists c text, HFClient.handleError (ThrownError e) = Resolved c
                         /\ err_message c = Some text) as (c & text & Hc & Htext).
  { unfold HFClient.handleError, e. cbn [HFClient.createError err_instanceofError andb].
    repeat case_match; eexists _, _; split; reflexivity. }
  exists text. split.
  - unfold HFClient.uploadFile, tryCatch, bind, HFClient.liftOutcome, gets, throw, ret.
    rewrite Hvalid. fold p. rewrite Hmissing. cbn [negb]. fold e.
    by rewrite Hc, Htext.
  - intros Hno.
    rewrite (handleError_plain_default e ("Local file not found: " +:+ p)) in Hc.
    + injection Hc as <-. by injection Htext as <-.
    + reflexivity.
    + reflexivity.
    + (* the text before the path holds no keyword, and none can start
         in it and end in the path *)
      exact Hno.
Qed.

Lemma uploadFile_missing_local_file_witness :
  HFClient.uploadFile Examples.client Examples.hubUp
    {| HFClient.uo_repoId := "user/repo"; HFClient.uo_filePath := "/data/gone.bin";
       HFClient.uo_token := None; HFClient.uo_repoType := "model";
       HFClient.uo_message := None |}
    (Examples.worldOf Examples.twoFiles)
  = (Resolved
       {| HFClient.ur_success := false;
          HFClient.ur_fileUrl := None;
          HFClient.ur_commitSha := None;
          HFClient.ur_error :=
            Some "Network or API error: Local file not found: /data/gone.bin" |},
     Examples.worldOf Examples.twoFiles).
Proof.
  destruct (uploadFile_missing_local_file Examples.client Examples.hubUp
              {| HFClient.uo_repoId := "user/repo";
                 HFClient.uo_filePath := "/data/gone.bin";
                 HFClient.uo_token := None; HFClient.uo_repoType := "model";
                 HFClient.uo_message := None |}
              (Examples.worldOf Examples.twoFiles) eq_refl eq_refl)
    as (text & Hrun & Htext).
  rewrite Hrun. by rewrite (Htext eq_refl).
Defined.

(** ** [uploadFiles]: what it never does *)

(** The files that a batch adds to [failedFiles] are files of the batch. *)
Lemma processBatch_failed_from_batch (this : HFClient.t) (env : Env)
    (options : HFClient.MultiUploadOptions) (tb i : nat)
    (st : HFClient.BatchState) (w : World) (p : string) :
  p ∈ HFClient.failedFiles (fst (HFClient.processBatch this env options tb i st w)) ->
  p ∈ HFClient.failedFiles st
  \/ p ∈ HFClient.batchFilesOf (HFClient.mo_filePaths options) i.
Proof.
  rewrite processBatch_eq. cbn zeta.
  set (batch := HFClient.batchFilesOf (HFClient.mo_filePaths options) i).
  assert (forall q, q ∈ missingFiles w batch -> q ∈ batch) as Hsub
    by (intros q Hq; by apply missingFiles_elem in Hq as [? _]).
  assert (p ∈ HFClient.failedFiles st ++ missingFiles w batch ->
          p ∈ HFClient.failedFiles st \/ p ∈ batch) as H1.
  { intros [?|?]%elem_of_app; [by left | right; by apply Hsub]. }
  assert (p ∈ (HFClient.failedFiles st ++ missingFiles w batch) ++ batch ->
          p ∈ HFClient.failedFiles st \/ p ∈ batch) as H2.
  { intros [?|?]%elem_of_app; [by apply H1 | by right]. }
  destruct (HFClient.promiseAll _) as [files|t]; [|exact H2].
  destruct (length (omap id files) =? 0)%nat; [exact H1|].
  destruct (withRetry _ _ _ w) as [[result|t] w1]; [exact H1 | exact H2].
Qed.

Lemma processBatch_uploadFile_log (this : HFClient.t) (env : Env)
    (options : HFClient.MultiUploadOptions) (tb i : nat)
    (st : HFClient.BatchState) (w : World) :
  uploadFileCalls (snd (HFClient.processBatch this env options tb i st w))
  = uploadFileCalls w.
Proof.
  rewrite processBatch_eq. cbn zeta.
  destruct (HFClient.promiseAll _) as [files|t]; [|done].
  destruct (length (omap id files) =? 0)%nat; [done|].
  destruct (withRetry _ _ _ w) as [res w1] eqn:Hrun.
  assert (uploadFileCalls w1 = uploadFileCalls w) as Hsame.
  { clear -Hrun. unfold withRetry in Hrun.
    revert Hrun. generalize (Z.to_nat (maxRetries (HFClient.retryConfig this) + 1)).
    generalize 0. generalize ThrownUndefined. revert w res w1.
    intros w res w1 last attempt remaining. revert w res w1 last attempt.
    induction remaining as [|r IH]; intros w res w1 last attempt Hrun.
    - by injection Hrun as _ <-.
    - cbn [retryLoop] in Hrun. unfold HFClient.callUploadFiles at 1 in Hrun.
      destruct (hfUploadFiles env _ _) as [v|[|e]];
        [by injection Hrun as _ <- | by injection Hrun as _ <- |].
      destruct (shouldNotRetry e); [by injection Hrun as _ <-|].
      destruct (attempt =? maxRetries _); [by injection Hrun as _ <-|].
      by apply IH in Hrun. }
  by destruct res.
Qed.

(** [uploadFiles] never rejects, whatever the inputs, the hub and the
    configuration of the retries: it resolves with a result whose
    [totalFiles] is the number of paths, whose [filesUploaded] is at most
    that, whose failed files are paths of the input, and which carries a
    commit only when it reports a success.  It leaves the file system as it
    was and never calls the upload of a single file. *)
Theorem uploadFiles_never_rejects (this : HFClient.t) (env : Env)
    (options : HFClient.MultiUploadOptions) (w : World) :
  exists r w1,
    HFClient.uploadFiles this env options w = (Resolved r, w1)
    /\ fs w1 = fs w
    /\ uploadFileCalls w1 = uploadFileCalls w
    /\ HFClient.mr_totalFiles r = length (HFClient.mo_filePaths options)
    /\ (HFClient.mr_filesUploaded r <= HFClient.mr_totalFiles r)%nat
    /\ (forall p, p ∈ failedFilesOf r -> p ∈ HFClient.mo_filePaths options)
    /\ (is_Some (HFClient.mr_commitSha r) -> HFClient.mr_success r = true).
Proof.
  set (l := HFClient.mo_filePaths options).
  set (tb := ceilDiv (length l) HFClient.batchSize).
  destruct (HFClient.validateMultiUploadInputs options) as [[]|t] eqn:Hvalid.
  - rewrite (uploadFiles_valid this env options w Hvalid). cbn zeta. fold l tb.
    set (P := fun (j : nat) (st : HFClient.BatchState) (w1 : World) =>
         fs w1 = fs w
         /\ uploadFileCalls w1 = uploadFileCalls w
         /\ (HFClient.filesProcessed st
             <= length (take (j * HFClient.batchSize) l))%nat
         /\ (forall p, p ∈ HFClient.failedFiles st -> p ∈ l)).
    assert (forall j st w1, (j < tb)%nat -> P j st w1 ->
              P (S j) (fst (HFClient.processBatch this env options tb j st w1))
                      (snd (HFClient.processBatch this env options tb j st w1)))
      as Hstep.
    { unfold P. intros j st w1 _ (Hfs & Hcalls & Hfp & Hsub).
      pose proof (processBatch_grows this env options tb j st w1) as Hgrow.
      cbn zeta in Hgrow. destruct Hgrow as (Hfs1 & Hfp1 & _).
      fold l in Hfp1.
      split; [congruence|].
      split; [by rewrite processBatch_uploadFile_log|].
      split; [rewrite take_batch_length; lia|].
      intros p Hp. apply processBatch_failed_from_batch in Hp as [Hp|Hp].
      - by apply Hsub.
      - by apply batchFilesOf_elem in Hp. }
    pose proof (batchLoop_invariant P this env options tb tb Hstep tb 0%nat
                  (HFClient.mkBatchState 0 [] "unknown") w ltac:(lia)) as Hinv.
    unfold P in Hinv. clear Hstep P.
    destruct Hinv as (Hfs & Hcalls & Hfp & Hsub).
    { split; [done|]. split; [done|]. split; [simpl; lia|].
      intros p Hp. by apply elem_of_nil in Hp. }
    destruct (HFClient.batchLoop _ _ _ _ _ _ _ _) as [st w1].
    cbn [fst snd Nat.add] in *.
    eexists _, w1. split; [reflexivity|].
    unfold failedFilesOf.
    cbn [HFClient.mr_totalFiles HFClient.mr_filesUploaded HFClient.mr_failedFiles
         HFClient.mr_success HFClient.mr_commitSha].
    split; [done|]. split; [done|]. split; [done|].
    split.
    { rewrite length_take in Hfp. lia. }
    split.
    { intros p. destruct (0 <? length (HFClient.failedFiles st))%nat; cbn.
      - apply Hsub.
      - intros Hp. by apply elem_of_nil in Hp. }
    destruct (0 <? HFClient.filesProcessed st)%nat; cbn [andb]; [done|].
    by intros [? ?].
  - destruct (uploadFiles_invalid this env options w t Hvalid) as [c ->].
    eexists _, w. split; [reflexivity|].
    unfold failedFilesOf.
    cbn [HFClient.mr_totalFiles HFClient.mr_filesUploaded HFClient.mr_failedFiles
         HFClient.mr_success HFClient.mr_commitSha default].
    split; [done|]. split; [done|]. split; [done|]. split; [lia|].
    split; [done|]. by intros [? ?].
Qed.

(** [s.trim() === ""] holds exactly when every code unit of [s] is white
    space. *)
Lemma trim_empty_iff (s : string) :
  JsString.trim s = EmptyString
  <-> forall c, In c (String.list_ascii_of_string s) -> JsString.isWhiteSpace c = true.
Proof.
  unfold JsString.trim. induction s as [|c s IH]; cbn [JsString.trimStart String.list_ascii_of_string].
  - split; [intros _ c [] | done].
  - destruct (JsString.isWhiteSpace c) eqn:Hc.
    + rewrite IH. split.
      * intros H d [<-|Hd]; [done | by apply H].
      * intros H d Hd. apply H. by right.
    + split.
      * cbn [JsString.trimEnd]. rewrite Hc.
        by destruct (JsString.trimEnd s).
      * intros H. specialize (H c (or_introl eq_refl)). congruence.
Qed.

(** [!s || s.trim() === ""]: the test of the validations holds exactly for
    the strings made of white space only, the empty one among them. *)
Lemma isBlank_iff_white_space (s : string) :
  HFClient.isBlank s = true
  <-> forall c, In c (String.list_ascii_of_string s) -> JsString.isWhiteSpace c = true.
Proof.
  unfold HFClient.isBlank. rewrite orb_true_iff, <- trim_empty_iff.
  split.
  - intros [Hfalsy|Htrim].
    + by destruct s.
    + by apply String.eqb_eq in Htrim.
  - intros Htrim. right. rewrite Htrim. reflexivity.
Qed.

(** The inputs that [validateMultiUploadInputs] refuses. *)
Lemma validateMultiUploadInputs_rejects (options : HFClient.MultiUploadOptions) :
  HFClient.isBlank (HFClient.mo_repoId options) = true
  \/ HFClient.mo_filePaths options = []
  \/ (exists p, p ∈ HFClient.mo_filePaths options /\ HFClient.isBlank p = true)
  \/ HFClient.mo_repoType options ∉ ["model"; "dataset"; "space"] ->
  exists t, HFClient.validateMultiUploadInputs options = Rejected t.
Proof.
  unfold HFClient.validateMultiUploadInputs. intros Hbad.
  destruct (HFClient.isBlank (HFClient.mo_repoId options)); [by eexists|].
  destruct (HFClient.mo_filePaths options) as [|p0 rest] eqn:Hpaths;
    [by eexists|].
  cbn [length Nat.eqb].
  destruct (existsb HFClient.isBlank (p0 :: rest)) eqn:Hblank; [by eexists|].
  destruct Hbad as [?|[?|[(p & Hp & Hb)|Htype]]]; try done.
  - assert (existsb HFClient.isBlank (p0 :: rest) = true) as Hex.
    { apply existsb_exists. exists p. split; [by apply list_elem_of_In | done]. }
    congruence.
  - unfold HFClient.isValidRepoType. rewrite bool_decide_eq_false_2 by done.
    by eexists.
Qed.

(** Inputs that the validation refuses (a blank repository id, no path, a
    blank path, or a repository type that is not [model], [dataset] or
    [space], in these letters) are never sent: [uploadFiles] resolves with
    no file uploaded, every path failed and an error text, and the world
    is as it was. *)
Theorem uploadFiles_refused_inputs (this : HFClient.t) (env : Env)
    (options : HFClient.MultiUploadOptions) (w : World) :
  HFClient.isBlank (HFClient.mo_repoId options) = true
  \/ HFClient.mo_filePaths options = []
  \/ (exists p, p ∈ HFClient.mo_filePaths options /\ HFClient.isBlank p = true)
  \/ HFClient.mo_repoType options ∉ ["model"; "dataset"; "space"] ->
  exists text,
    HFClient.uploadFiles this env options w
    = (Resolved
         {| HFClient.mr_success := false;
            HFClient.mr_filesUploaded := 0;
            HFClient.mr_totalFiles := length (HFClient.mo_filePaths options);
            HFClient.mr_commitSha := None;
            HFClient.mr_failedFiles := Some (HFClient.mo_filePaths options);
            HFClient.mr_error := Some text |}, w).
Proof.
  intros Hbad.
  destruct (validateMultiUploadInputs_rejects options Hbad) as [t Hinvalid].
  destruct (validateMultiUploadInputs_throws options t Hinvalid) as [e ->].
  assert (exists c text, HFClient.handleError (ThrownError e) = Resolved c
                         /\ err_message c = Some text) as (c & text & Hc & Htext).
  { revert Hinvalid. unfold HFClient.validateMultiUploadInputs.
    repeat case_match; intros Hrej; try discriminate; injection Hrej as <-;
      unfold HFClient.handleError;
      cbn [HFClient.createError HFClient.repoIdRequired HFClient.invalidRepoType
           err_instanceofError andb];
      repeat case_match; eexists _, _; split; reflexivity. }
  exists text.
  unfold HFClient.uploadFiles, tryCatch, bind, HFClient.liftOutcome, ret.
  by rewrite Hinvalid, Hc, Htext.
Qed.

(** A repository type in capital letters is refused, and nothing is sent. *)
Lemma uploadFiles_refused_inputs_witness :
  let options :=
    {| HFClient.mo_repoId := "user/repo";
       HFClient.mo_filePaths := ["/data/a.bin"];
       HFClient.mo_token := None;
       HFClient.mo_repoType := "Model";
       HFClient.mo_message := None |} in
  let w := Examples.worldOf Examples.twoFiles in
  HFClient.uploadFiles Examples.client Examples.hubUp options w
  = (Resolved
       {| HFClient.mr_success := false;
          HFClient.mr_filesUploaded := 0;
          HFClient.mr_totalFiles := 1;
          HFClient.mr_commitSha := None;
          HFClient.mr_failedFiles := Some ["/data/a.bin"];
          HFClient.mr_error :=
            Some "Network or API error: Invalid repository type: Model" |}, w).
Proof.
  cbn zeta.
  destruct (uploadFiles_refused_inputs Examples.client Examples.hubUp
              {| HFClient.mo_repoId := "user/repo";
                 HFClient.mo_filePaths := ["/data/a.bin"];
                 HFClient.mo_token := None;
                 HFClient.mo_repoType := "Model";
                 HFClient.mo_message := None |}
              (Examples.worldOf Examples.twoFiles)) as (text & Hrun).
  - right. right. right. cbn. intros Hin.
    apply list_elem_of_In in Hin. cbn in Hin.
    destruct Hin as [H|[H|[H|[]]]]; discriminate.
  - rewrite Hrun. vm_compute in Hrun. by injection Hrun as ->.
Defined.

(** ** What a call of [uploadFiles] carries *)

(** The valid files of a batch are its existing files, in order, each
    under its base name. *)
Lemma prepare_names (w : World) (batchFiles : list string)
    (files : list (option HubFile)) :
  HFClient.promiseAll (map snd (map (HFClient.prepareFile w) batchFiles))
  = AllResolved files ->
  map hf_path (omap id files)
  = map basename (List.filter (HFClient.pathExists w) batchFiles).
Proof.
  revert files.
  induction batchFiles as [|p rest IH]; intros files Hall.
  - by injection Hall as <-.
  - cbn [map HFClient.promiseAll List.filter] in Hall |- *.
    unfold HFClient.prepareFile in Hall at 1.
    destruct (HFClient.pathExists w p); cbn [negb snd] in Hall |- *.
    + destruct (HFClient.createStreamingFileBlob w p); cbn [snd] in Hall;
        [|by destruct (HFClient.promiseAll _)].
      destruct (HFClient.promiseAll _) as [vs|] eqn:Hrest; [|done].
      injection Hall as <-. specialize (IH vs eq_refl).
      cbn [omap list_omap id map hf_path] in *. by rewrite IH.
    + destruct (HFClient.promiseAll _) as [vs|] eqn:Hrest; [|done].
      injection Hall as <-. specialize (IH vs eq_refl).
      cbn [omap list_omap id] in *. exact IH.
Qed.

(** Every call that [uploadFiles] makes is for one batch: it goes to the
    repository of the options, with [useXet], and carries the files of the
    batch that exist, in the order of the input, each under the base name
    of its path: the directories of the local paths are not sent. *)
Theorem uploadFiles_calls_carry_base_names (this : HFClient.t) (env : Env)
    (options : HFClient.MultiUploadOptions) (w : World) :
  let l := HFClient.mo_filePaths options in
  let w1 := snd (HFClient.uploadFiles this env options w) in
  Forall
    (fun call =>
       ufs_repo call = HFClient.mo_repoId options
       /\ ufs_useXet call = true
       /\ exists i,
            (i < ceilDiv (length l) HFClient.batchSize)%nat
            /\ map hf_path (ufs_files call)
               = map basename
                   (List.filter (HFClient.pathExists w) (HFClient.batchFilesOf l i)))
    (newUploadFilesCalls w w1).
Proof.
  cbn zeta.
  set (l := HFClient.mo_filePaths options).
  set (tb := ceilDiv (length l) HFClient.batchSize).
  destruct (HFClient.validateMultiUploadInputs options) as [[]|t] eqn:Hvalid.
  - rewrite (uploadFiles_valid this env options w Hvalid). cbn zeta. fold l tb.
    cbn [snd].
    set (Q := fun (bound : nat) (call : UploadFilesParams) =>
         ufs_repo call = HFClient.mo_repoId options
         /\ ufs_useXet call = true
         /\ exists i,
              (i < bound)%nat
              /\ map hf_path (ufs_files call)
                 = map basename
                     (List.filter (HFClient.pathExists w)
                        (HFClient.batchFilesOf l i))).
    set (P := fun (j : nat) (st : HFClient.BatchState) (w1 : World) =>
         fs w1 = fs w
         /\ exists new,
              uploadFilesCalls w1 = uploadFilesCalls w ++ new
              /\ Forall (Q j) new).
    assert (forall j call, Q j call -> Q (S j) call) as Hmono.
    { intros j call (? & ? & i & Hi & ?). repeat split; try done.
      exists i. split; [lia | done]. }
    assert (forall j st w1, (j < tb)%nat -> P j st w1 ->
              P (S j) (fst (HFClient.processBatch this env options tb j st w1))
                      (snd (HFClient.processBatch this env options tb j st w1)))
      as Hstep.
    { unfold P. intros j st w1 Hj (Hfs & new & Hlog & Hnew).
      assert (Forall (Q (S j)) new) as Hnew'
        by (eapply Forall_impl; [exact Hnew | apply Hmono]).
      rewrite processBatch_eq. cbn zeta. fold l.
      set (batch := HFClient.batchFilesOf l j).
      destruct (HFClient.promiseAll _) as [files|t] eqn:Hall;
        [|split; [done | by exists new]].
      destruct (length (omap id files) =? 0)%nat;
        [split; [done | by exists new]|].
      pose proof (prepare_names w1 batch files Hall) as Hnames.
      destruct (withRetry _ _ _ w1) as [res w2] eqn:Hrun.
      apply withRetry_uploadFiles_log in Hrun as [Hfs2 (k & _ & Hlog2)].
      assert (fs w2 = fs w
              /\ exists new2,
                   uploadFilesCalls w2 = uploadFilesCalls w ++ new2
                   /\ Forall (Q (S j)) new2) as Hgoal.
      { split; [congruence|].
        eexists (new ++ replicate k _). split; [by rewrite Hlog2, Hlog, app_assoc|].
        apply Forall_app. split; [done|]. apply Forall_replicate.
        split; [done|]. split; [done|].
        exists j. split; [lia|].
        cbn [ufs_files HFClient.batchUploadOptions]. rewrite Hnames.
        f_equal. apply filter_ext. intros q. by apply pathExists_fs. }
      by destruct res. }
    pose proof (batchLoop_invariant P this env options tb tb Hstep tb 0%nat
                  (HFClient.mkBatchState 0 [] "unknown") w ltac:(lia)) as Hinv.
    unfold P in Hinv. clear Hstep.
    destruct Hinv as (_ & new & Hlog & Hnew).
    { split; [done|]. exists []. by rewrite app_nil_r. }
    by rewrite (newUploadFilesCalls_app w _ new Hlog).
  - destruct (uploadFiles_invalid this env options w t Hvalid) as [c ->].
    cbn [snd]. unfold newUploadFilesCalls. rewrite drop_all. constructor.
Qed.

(** ** [streamBlobToFile]: what is written, what is left *)

(** A run of [streamBlobToFile] that has its stream: it resolves, with the
    bytes counted, when the destination could be opened and the stream
    ended, and the destination then holds the chunks; every other run
    rejects, and where the unlink is allowed the cleanup leaves the file
    system as it was, without the destination. *)
Lemma streamBlobToFile_run (blob : HFClient.Blob) (stream : HFClient.ByteStream)
    (localPath : string) (w w1 : World) (res : Outcome nat) :
  HFClient.blobStream blob = Some stream ->
  nodes (fs w) !! localPath <> Some Directory ->
  HFClient.streamBlobToFile blob localPath w = (res, w1) ->
  (res = Resolved (HFClient.totalBytes stream)
   /\ HFClient.ending stream = HFClient.StreamDone
   /\ deniesOpen (fs w) localPath = None
   /\ nodes (fs w1)
      = <[localPath := File (concat (HFClient.chunks stream))]> (nodes (fs w)))
  \/ (isResolved res = false
      /\ (deniesUnlink (fs w) localPath = None ->
          nodes (fs w1) = delete localPath (nodes (fs w)))).
Proof.
  intros Hblob Hdir.
  unfold HFClient.streamBlobToFile. rewrite Hblob.
  destruct (deniesOpen (fs w) localPath) as [e|] eqn:Hopen.
  - unfold tryCatch, bind, ret, throw, HFClient.pipeline, HFClient.unlink.
    rewrite Hopen. intros Hrun. right.
    destruct (deniesUnlink (fs w) localPath) as [e1|] eqn:Hunlink.
    + injection Hrun as <- <-. by split.
    + destruct (nodes (fs w) !! localPath) as [[old|]|] eqn:Hnode; [| done |];
        injection Hrun as <- <-; (split; [done|]); intros _.
      * reflexivity.
      * by rewrite delete_id.
  - destruct (HFClient.ending stream) as [|t flushed] eqn:Hend.
    + unfold tryCatch, bind, ret, throw, HFClient.pipeline.
      rewrite Hopen, Hend. intros Hrun. left.
      destruct (nodes (fs w) !! localPath) as [[old|]|]; [| done |];
        by injection Hrun as <- <-.
    + destruct (pipeline_broken stream t flushed localPath w Hend Hopen Hdir)
        as (w2 & Hpipe & Hnodes & Hdeny).
      unfold tryCatch, bind, ret, throw. rewrite Hpipe.
      unfold HFClient.unlink. rewrite Hdeny. intros Hrun. right.
      destruct (deniesUnlink (fs w) localPath) as [e1|] eqn:Hunlink.
      * injection Hrun as <- <-. by split.
      * rewrite Hnodes, lookup_insert_eq in Hrun. injection Hrun as <- <-.
        split; [done|]. intros _. cbn [setFs fs nodes].
        by rewrite delete_insert_eq.
Qed.

(** A stream that ends well is written whole: the destination holds the
    chunks in order, the number that [streamBlobToFile] returns is the
    number of bytes of the destination, and no other path changes. *)
Theorem streamBlobToFile_writes_the_stream (blob : HFClient.Blob)
    (stream : HFClient.ByteStream) (localPath : string) (w : World) :
  HFClient.blobStream blob = Some stream ->
  HFClient.ending stream = HFClient.StreamDone ->
  deniesOpen (fs w) localPath = None ->
  nodes (fs w) !! localPath <> Some Directory ->
  exists w1,
    HFClient.streamBlobToFile blob localPath w
    = (Resolved (list_sum (map length (HFClient.chunks stream))), w1)
    /\ nodes (fs w1) !! localPath
       = Some (File (concat (HFClient.chunks stream)))
    /\ length (concat (HFClient.chunks stream))
       = list_sum (map length (HFClient.chunks stream))
    /\ (forall q, q <> localPath -> nodes (fs w1) !! q = nodes (fs w) !! q).
Proof.
  intros Hblob Hend Hopen Hdir.
  assert (forall l : list (list byte),
            length (concat l) = list_sum (map length l)) as Hsum.
  { induction l as [|c l IH]; [done|].
    cbn [concat map]. rewrite length_app, IH. reflexivity. }
  destruct (HFClient.streamBlobToFile blob localPath w) as [res w1] eqn:Hrun.
  destruct (streamBlobToFile_run blob stream localPath w w1 res Hblob Hdir Hrun)
    as [(-> & _ & _ & Hnodes)|(Hfail & _)].
  - exists w1. unfold HFClient.totalBytes. rewrite Hsum.
    split; [done|]. split; [by rewrite Hnodes, lookup_insert_eq|].
    split; [done|]. intros q Hq. by rewrite Hnodes, lookup_insert_ne.
  - exfalso. revert Hrun Hfail.
    unfold HFClient.streamBlobToFile. rewrite Hblob.
    unfold tryCatch, bind, ret, HFClient.pipeline. rewrite Hopen, Hend.
    destruct (nodes (fs w) !! localPath) as [[old|]|]; [| done |];
      by intros [= <- <-].
Qed.

Lemma streamBlobToFile_writes_witness :
  exists w1,
    HFClient.streamBlobToFile MoreExamples.helloBlob "/downloads/model.bin"
      (Examples.worldOf (Examples.fsOf []))
    = (Resolved 5%nat, w1)
    /\ nodes (fs w1) !! "/downloads/model.bin"
       = Some (File [x68; x65; x6c; x6c; x6f]).
Proof.
  destruct (streamBlobToFile_writes_the_stream MoreExamples.helloBlob
              MoreExamples.helloStream "/downloads/model.bin"
              (Examples.worldOf (Examples.fsOf []))
              eq_refl eq_refl eq_refl ltac:(discriminate))
    as (w1 & Hrun & Hnode & _).
  exists w1. split; [exact Hrun | exact Hnode].
Defined.

(** Whatever makes [streamBlobToFile] fail once it has its stream (the
    destination cannot be opened, or the stream breaks), the cleanup
    unlinks the destination: where the unlink is allowed, no file is at
    the destination afterwards, also when one was there before the call
    and nothing could be written to it.  No other path changes. *)
Theorem streamBlobToFile_failure_removes_destination (blob : HFClient.Blob)
    (stream : HFClient.ByteStream) (localPath : string) (w : World) :
  HFClient.blobStream blob = Some stream ->
  isResolved (fst (HFClient.streamBlobToFile blob localPath w)) = false ->
  deniesUnlink (fs w) localPath = None ->
  nodes (fs w) !! localPath <> Some Directory ->
  nodes (fs (snd (HFClient.streamBlobToFile blob localPath w))) !! localPath
  = None
  /\ (forall q, q <> localPath ->
      nodes (fs (snd (HFClient.streamBlobToFile blob localPath w))) !! q
      = nodes (fs w) !! q).
Proof.
  intros Hblob Hfail Hunlink Hdir.
  destruct (HFClient.streamBlobToFile blob localPath w) as [res w1] eqn:Hrun.
  cbn [fst snd] in *.
  destruct (streamBlobToFile_run blob stream localPath w w1 res Hblob Hdir Hrun)
    as [(-> & _)|(_ & Hnodes)]; [done|].
  rewrite (Hnodes Hunlink).
  split; [by rewrite lookup_delete_eq|].
  intros q Hq. by rewrite lookup_delete_ne.
Qed.

(** A destination that exists and may not be opened for writing: the
    download fails and the file that was there is gone. *)
Lemma streamBlobToFile_failure_witness :
  let w := Examples.worldOf MoreExamples.readOnlyFs in
  let r := HFClient.streamBlobToFile MoreExamples.helloBlob
             "/downloads/model.bin" w in
  nodes (fs w) !! "/downloads/model.bin" = Some (File [x6f; x6c; x64])
  /\ fst r = Rejected (ThrownError MoreExamples.eacces)
  /\ nodes (fs (snd r)) !! "/downloads/model.bin" = None.
Proof.
  cbn zeta. split; [reflexivity|]. split; [reflexivity|].
  apply (streamBlobToFile_failure_removes_destination MoreExamples.helloBlob
           MoreExamples.helloStream "/downloads/model.bin"
           (Examples.worldOf MoreExamples.readOnlyFs));
    [reflexivity | reflexivity | reflexivity | discriminate].
Defined.

(** ** [downloadFile] *)

(** The run of [downloadFile] up to the answer of the hub, when the inputs
    are accepted, the directory could be made and the hub answers the
    first call. *)
Lemma downloadFile_first_answer (this : HFClient.t) (lib : Download.Lib)
    (options : Download.DownloadOptions) (dw : Download.DWorld)
    (answer : option HFClient.Blob) :
  0 <= maxRetries (HFClient.retryConfig this) ->
  Download.hfDownloadFile lib (length (Download.downloadFileCalls dw))
    (Download.downloadOptionsOf this options) = Resolved answer ->
  withRetry (HFClient.retryConfig this) Download.sleepD
    (Download.callDownloadFile lib (Download.downloadOptionsOf this options)) dw
  = (Resolved answer,
     Download.mkDWorld (Download.world dw)
       (Download.downloadFileCalls dw
        ++ [Download.downloadOptionsOf this options])).
Proof.
  intros Hk Hhub. apply withRetry_resolves_first; [exact Hk|].
  unfold Download.callDownloadFile. by rewrite Hhub.
Qed.

(** A download that goes well, end to end: with inputs that pass the
    checks, a directory that could be made, a hub that answers the first
    call with a blob, and a stream that ends, [downloadFile] reports
    success with the local path [localDir/basename(filePath)] and a
    [fileSize] that is the number of bytes of the file at that path, which
    holds the chunks of the stream in order; the hub was called once,
    nothing slept, and no other path changed after the directory was
    made. *)
Theorem downloadFile_round_trip (this : HFClient.t) (env : Env)
    (lib : Download.Lib) (options : Download.DownloadOptions)
    (dw : Download.DWorld) (w1 : World) (blob : HFClient.Blob)
    (stream : HFClient.ByteStream) :
  let localPath := Download.localPathOf env lib options in
  0 <= maxRetries (HFClient.retryConfig this) ->
  Download.validateDownloadInputs options = Resolved tt ->
  Download.ensureDir lib (Download.pathDirname lib localPath) (Download.world dw)
  = (Resolved tt, w1) ->
  Download.hfDownloadFile lib (length (Download.downloadFileCalls dw))
    (Download.downloadOptionsOf this options) = Resolved (Some blob) ->
  HFClient.blobStream blob = Some stream ->
  HFClient.ending stream = HFClient.StreamDone ->
  deniesOpen (fs w1) localPath = None ->
  nodes (fs w1) !! localPath <> Some Directory ->
  exists dw1,
    Download.downloadFile this env lib options dw
    = (Resolved
         {| Download.dr_success := true;
            Download.dr_localPath := Some localPath;
            Download.dr_fileSize :=
              Some (length (concat (HFClient.chunks stream)));
            Download.dr_error := None |}, dw1)
    /\ nodes (fs (Download.world dw1)) !! localPath
       = Some (File (concat (HFClient.chunks stream)))
    /\ (forall q, q <> localPath ->
        nodes (fs (Download.world dw1)) !! q = nodes (fs w1) !! q)
    /\ Download.downloadFileCalls dw1
       = Download.downloadFileCalls dw
         ++ [Download.downloadOptionsOf this options]
    /\ sleeps (Download.world dw1) = sleeps w1.
Proof.
  intros localPath Hk Hvalid Hdir Hhub Hblob Hend Hopen Hnode.
  destruct (HFClient.streamBlobToFile blob localPath w1) as [res w2] eqn:Hrun.
  assert (sleeps w2 = sleeps w1) as Hsleeps.
  { revert Hrun. unfold HFClient.streamBlobToFile. rewrite Hblob.
    unfold tryCatch, bind, ret, HFClient.pipeline. rewrite Hopen, Hend.
    destruct (nodes (fs w1) !! localPath) as [[old|]|]; [| done |];
      by intros [= <- <-]. }
  destruct (streamBlobToFile_run blob stream localPath w1 w2 res Hblob Hnode Hrun)
    as [(-> & _ & _ & Hnodes)|(Hfail & _)].
  - eexists. split.
    + unfold Download.downloadFile, tryCatch.
      unfold bind at 1. rewrite Hvalid. cbn zeta.
      unfold bind at 1, Download.lift at 1. fold localPath. rewrite Hdir.
      unfold bind at 1.
      rewrite (downloadFile_first_answer this lib options
                 (Download.mkDWorld w1 (Download.downloadFileCalls dw))
                 (Some blob) Hk Hhub).
      unfold bind, Download.lift, ret. cbn [Download.world].
      rewrite Hrun. reflexivity.
    + cbn [Download.world Download.downloadFileCalls].
      split; [by rewrite Hnodes, lookup_insert_eq|].
      split; [intros q Hq; by rewrite Hnodes, lookup_insert_ne|].
      split; [done | exact Hsleeps].
  - exfalso. revert Hrun Hfail.
    unfold HFClient.streamBlobToFile. rewrite Hblob.
    unfold tryCatch, bind, ret, HFClient.pipeline. rewrite Hopen, Hend.
    destruct (nodes (fs w1) !! localPath) as [[old|]|]; [| done |];
      by intros [= <- <-].
Qed.

Lemma downloadFile_round_trip_witness :
  exists dw1,
    Download.downloadFile Examples.client Examples.hubUp
      (MoreExamples.libOf (fun _ => Resolved (Some MoreExamples.helloBlob)))
      MoreExamples.downloadModel (MoreExamples.dworldOf (Examples.fsOf []))
    = (Resolved
         {| Download.dr_success := true;
            Download.dr_localPath := Some "/downloads/model.bin";
            Download.dr_fileSize := Some 5%nat;
            Download.dr_error := None |}, dw1)
    /\ nodes (fs (Download.world dw1)) !! "/downloads/model.bin"
       = Some (File [x68; x65; x6c; x6c; x6f]).
Proof.
  destruct (downloadFile_round_trip Examples.client Examples.hubUp
              (MoreExamples.libOf (fun _ => Resolved (Some MoreExamples.helloBlob)))
              MoreExamples.downloadModel (MoreExamples.dworldOf (Examples.fsOf []))
              (Examples.worldOf (Examples.fsOf [])) MoreExamples.helloBlob
              MoreExamples.helloStream
              ltac:(simpl; lia) eq_refl eq_refl eq_refl eq_refl eq_refl eq_refl
              ltac:(discriminate))
    as (dw1 & Hrun & Hfile & _).
  exists dw1. split; [exact Hrun | exact Hfile].
Defined.

(** A download that fails after the hub answered with a blob: whenever
    [downloadFile] then reports [success = false], no local path is
    reported and, where the unlink is allowed, no file is at the
    destination afterwards, also when a file was there before the call. *)
Theorem downloadFile_failure_leaves_no_file (this : HFClient.t) (env : Env)
    (lib : Download.Lib) (options : Download.DownloadOptions)
    (dw dw1 : Download.DWorld) (w1 : World) (blob : HFClient.Blob)
    (stream : HFClient.ByteStream) (r : Download.DownloadResult) :
  let localPath := Download.localPathOf env lib options in
  0 <= maxRetries (HFClient.retryConfig this) ->
  Download.validateDownloadInputs options = Resolved tt ->
  Download.ensureDir lib (Download.pathDirname lib localPath) (Download.world dw)
  = (Resolved tt, w1) ->
  Download.hfDownloadFile lib (length (Download.downloadFileCalls dw))
    (Download.downloadOptionsOf this options) = Resolved (Some blob) ->
  HFClient.blobStream blob = Some stream ->
  deniesUnlink (fs w1) localPath = None ->
  nodes (fs w1) !! localPath <> Some Directory ->
  Download.downloadFile this env lib options dw = (Resolved r, dw1) ->
  Download.dr_success r = false ->
  Download.dr_localPath r = None
  /\ Download.dr_fileSize r = None
  /\ nodes (fs (Download.world dw1)) !! localPath = None
  /\ (forall q, q <> localPath ->
      nodes (fs (Download.world dw1)) !! q = nodes (fs w1) !! q).
Proof.
  intros localPath Hk Hvalid Hdir Hhub Hblob Hunlink Hnode.
  destruct (HFClient.streamBlobToFile blob localPath w1) as [res w2] eqn:Hrun.
  unfold Download.downloadFile, tryCatch.
  unfold bind at 1. rewrite Hvalid. cbn zeta.
  unfold bind at 1, Download.lift at 1. fold localPath. rewrite Hdir.
  unfold bind at 1.
  rewrite (downloadFile_first_answer this lib options
             (Download.mkDWorld w1 (Download.downloadFileCalls dw))
             (Some blob) Hk Hhub).
  unfold bind at 1, Download.lift. cbn [Download.world]. rewrite Hrun.
  destruct (streamBlobToFile_run blob stream localPath w1 w2 res Hblob Hnode Hrun)
    as [(-> & _)|(Hfail & Hnodes)].
  - unfold ret. intros [= <- <-]. discriminate.
  - destruct res as [n|t]; [discriminate|].
    unfold bind, ret. destruct (HFClient.handleError t) as [c|t1]; [|discriminate].
    intros [= <- <-] _. cbn [Download.dr_localPath Download.dr_fileSize Download.world].
    split; [done|]. split; [done|]. rewrite (Hnodes Hunlink).
    split; [by rewrite lookup_delete_eq|].
    intros q Hq. by rewrite lookup_delete_ne.
Qed.

(** The destination exists and may not be opened: the download fails, and
    the file that was there before is gone. *)
Lemma downloadFile_failure_witness :
  let lib := MoreExamples.libOf (fun _ => Resolved (Some MoreExamples.helloBlob)) in
  let dw := MoreExamples.dworldOf MoreExamples.readOnlyFs in
  let run := Download.downloadFile Examples.client Examples.hubUp lib
               MoreExamples.downloadModel dw in
  nodes (fs (Download.world dw)) !! "/downloads/model.bin"
  = Some (File [x6f; x6c; x64])
  /\ fst run
     = Resolved {| Download.dr_success := false;
                   Download.dr_localPath := None;
                   Download.dr_fileSize := None;
                   Download.dr_error := Some "File system permission error" |}
  /\ nodes (fs (Download.world (snd run))) !! "/downloads/model.bin" = None.
Proof.
  cbn zeta. split; [reflexivity|]. split; [reflexivity|].
  destruct (Download.downloadFile Examples.client Examples.hubUp
              (MoreExamples.libOf (fun _ => Resolved (Some MoreExamples.helloBlob)))
              MoreExamples.downloadModel
              (MoreExamples.dworldOf MoreExamples.readOnlyFs))
    as [o dw1] eqn:Hrun.
  assert (o = Resolved
                {| Download.dr_success := false;
                   Download.dr_localPath := None;
                   Download.dr_fileSize := None;
                   Download.dr_error := Some "File system permission error" |})
    as -> by (vm_compute in Hrun; by injection Hrun as <- _).
  apply (downloadFile_failure_leaves_no_file Examples.client Examples.hubUp
           (MoreExamples.libOf (fun _ => Resolved (Some MoreExamples.helloBlob)))
           MoreExamples.downloadModel
           (MoreExamples.dworldOf MoreExamples.readOnlyFs) dw1
           (Examples.worldOf MoreExamples.readOnlyFs)
           MoreExamples.helloBlob MoreExamples.helloStream _
           ltac:(simpl; lia) eq_refl eq_refl eq_refl eq_refl eq_refl
           ltac:(discriminate) Hrun eq_refl).
Defined.

(** A hub that answers with nothing: [downloadFile] does not call it
    again, writes no file, and reports the text of its own error as a
    network error. *)
Theorem downloadFile_no_response (this : HFClient.t) (env : Env)
    (lib : Download.Lib) (options : Download.DownloadOptions)
    (dw : Download.DWorld) (w1 : World) :
  let localPath := Download.localPathOf env lib options in
  0 <= maxRetries (HFClient.retryConfig this) ->
  Download.validateDownloadInputs options = Resolved tt ->
  Download.ensureDir lib (Download.pathDirname lib localPath) (Download.world dw)
  = (Resolved tt, w1) ->
  Download.hfDownloadFile lib (length (Download.downloadFileCalls dw))
    (Download.downloadOptionsOf this options) = Resolved None ->
  Download.downloadFile this env lib options dw
  = (Resolved
       {| Download.dr_success := false;
          Download.dr_localPath := None;
          Download.dr_fileSize := None;
          Download.dr_error :=
            Some "Network or API error: Download failed: No response received" |},
     Download.mkDWorld w1
       (Download.downloadFileCalls dw
        ++ [Download.downloadOptionsOf this options])).
Proof.
  intros localPath Hk Hvalid Hdir Hhub.
  unfold Download.downloadFile, tryCatch.
  unfold bind at 1. rewrite Hvalid. cbn zeta.
  unfold bind at 1, Download.lift at 1. fold localPath. rewrite Hdir.
  unfold bind at 1.
  rewrite (downloadFile_first_answer this lib options
             (Download.mkDWorld w1 (Download.downloadFileCalls dw))
             None Hk Hhub).
  reflexivity.
Qed.

Lemma downloadFile_no_response_witness :
  Download.downloadFile Examples.client Examples.hubUp
    (MoreExamples.libOf (fun _ => Resolved None))
    MoreExamples.downloadModel (MoreExamples.dworldOf (Examples.fsOf []))
  = (Resolved
       {| Download.dr_success := false;
          Download.dr_localPath := None;
          Download.dr_fileSize := None;
          Download.dr_error :=
            Some "Network or API error: Download failed: No response received" |},
     Download.mkDWorld (Examples.worldOf (Examples.fsOf []))
       [Download.downloadOptionsOf Examples.client MoreExamples.downloadModel]).
Proof.
  apply (downloadFile_no_response Examples.client Examples.hubUp
           (MoreExamples.libOf (fun _ => Resolved None))
           MoreExamples.downloadModel (MoreExamples.dworldOf (Examples.fsOf []))
           (Examples.worldOf (Examples.fsOf [])));
    [simpl; lia | reflexivity | reflexivity | reflexivity].
Defined.

(** [downloadFile] checks the repository type and then does not use it:
    two downloads that differ only in a repository type that passes the
    check are the same run, with the same request to the hub and the same
    result. *)
Theorem downloadFile_ignores_repoType (this : HFClient.t) (env : Env)
    (lib : Download.Lib) (options : Download.DownloadOptions)
    (repoType : string) (dw : Download.DWorld) :
  HFClient.isValidRepoType (Download.do_repoType options) = true ->
  HFClient.isValidRepoType repoType = true ->
  Download.downloadFile this env lib
    {| Download.do_repoId := Download.do_repoId options;
       Download.do_filePath := Download.do_filePath options;
       Download.do_token := Download.do_token options;
       Download.do_repoType := repoType;
       Download.do_localDir := Download.do_localDir options |} dw
  = Download.downloadFile this env lib options dw.
Proof.
  intros H1 H2. destruct options as [repoId filePath token repoType0 localDir].
  cbn [Download.do_repoId Download.do_filePath Download.do_token
       Download.do_repoType Download.do_localDir] in *.
  unfold Download.downloadFile, Download.validateDownloadInputs.
  cbn [Download.do_repoId Download.do_filePath Download.do_repoType].
  rewrite H1, H2. reflexivity.
Qed.

(** A model and a dataset of the same name: one request. *)
Lemma downloadFile_ignores_repoType_witness :
  let lib := MoreExamples.libOf (fun _ => Resolved (Some MoreExamples.helloBlob)) in
  let dw := MoreExamples.dworldOf (Examples.fsOf []) in
  Download.downloadFile Examples.client Examples.hubUp lib
    {| Download.do_repoId := "user/repo";
       Download.do_filePath := "weights/model.bin";
       Download.do_token := None;
       Download.do_repoType := "dataset";
       Download.do_localDir := Some "/downloads" |} dw
  = Download.downloadFile Examples.client Examples.hubUp lib
      MoreExamples.downloadModel dw.
Proof.
  cbn zeta.
  apply (downloadFile_ignores_repoType Examples.client Examples.hubUp
           (MoreExamples.libOf (fun _ => Resolved (Some MoreExamples.helloBlob)))
           MoreExamples.downloadModel "dataset"
           (MoreExamples.dworldOf (Examples.fsOf []))); reflexivity.
Defined.

(** ** [getFileSize] and [validateFilePath] *)

(** The outcome of [getFileSize], read off the file system. *)
Lemma getFileSize_resolved (filePath : string) (w : World) (n : nat) :
  fst (FileSystemUtils.getFileSize filePath w) = Resolved n
  <-> deniesStat (fs w) filePath = None
      /\ exists content,
           nodes (fs w) !! filePath = Some (File content)
           /\ n = length content.
Proof.
  unfold FileSystemUtils.getFileSize, tryCatch, bind, throw, ret,
    FileSystemUtils.stat.
  destruct (deniesStat (fs w) filePath) as [e|] eqn:Hdeny.
  - split; [|by intros [? _]].
    destruct (err_instanceofError e); [|done].
    destruct (err_message e) as [m|]; [|done].
    by destruct (JsString.includes m _).
  - destruct (nodes (fs w) !! filePath) as [[content|]|] eqn:Hnode.
    + cbn. split.
      * intros [= <-]. split; [done|]. by exists content.
      * intros (_ & content' & [= <-] & ->). done.
    + cbn [FileSystemUtils.isFile negb newError err_instanceofError err_message].
      split; [by destruct (JsString.includes _ _)|].
      intros (_ & content & Hno & _). discriminate.
    + cbn [enoent newError err_instanceofError err_message].
      split; [by destruct (JsString.includes _ _)|].
      intros (_ & content & Hno & _). discriminate.
Qed.

(** [getFileSize] resolves exactly for the regular files that [stat] can
    read, and then with the number of their bytes; it calls [stat] once
    and changes nothing else. *)
Theorem getFileSize_resolves_iff (filePath : string) (w : World) (n : nat) :
  (fst (FileSystemUtils.getFileSize filePath w) = Resolved n
   <-> deniesStat (fs w) filePath = None
       /\ exists content,
            nodes (fs w) !! filePath = Some (File content)
            /\ n = length content)
  /\ snd (FileSystemUtils.getFileSize filePath w) = logStat filePath w.
Proof.
  split; [apply getFileSize_resolved|].
  by destruct (getFileSize_run filePath w) as [o ->].
Qed.

(** For a directory [getFileSize] rejects with its own error, which the
    handler rethrows as it is: the message is ["Path is not a file: "]
    and the path, without ["Cannot get file size for"]. *)
Theorem getFileSize_of_directory (filePath : string) (w : World) :
  deniesStat (fs w) filePath = None ->
  nodes (fs w) !! filePath = Some Directory ->
  FileSystemUtils.getFileSize filePath w
  = (Rejected (ThrownError (newError ("Path is not a file: " +:+ filePath))),
     logStat filePath w).
Proof.
  intros Hdeny Hnode.
  unfold FileSystemUtils.getFileSize, tryCatch, bind, throw, ret,
    FileSystemUtils.stat.
  rewrite Hdeny, Hnode.
  cbn [FileSystemUtils.isFile negb newError err_instanceofError err_message].
  replace (JsString.includes ("Path is not a file: " +:+ filePath)
             "Path is not a file") with true; [done|].
  symmetry. apply includes_substring.
  by exists EmptyString, (": " +:+ filePath).
Qed.

Lemma getFileSize_of_directory_witness :
  FileSystemUtils.getFileSize "/data"
    (Examples.worldOf (Examples.fsOf [("/data", Directory)]))
  = (Rejected (ThrownError (newError "Path is not a file: /data")),
     logStat "/data" (Examples.worldOf (Examples.fsOf [("/data", Directory)]))).
Proof.
  apply (getFileSize_of_directory "/data"
           (Examples.worldOf (Examples.fsOf [("/data", Directory)])));
    reflexivity.
Defined.

(** [validateFilePath] never throws and leaves the file system as it was.
    It answers [valid] exactly for a path that is not blank and resolves
    to a regular file that [stat] can read; then no error is given and
    [getFileSize] of the resolved path resolves.  The validation opens
    nothing: the blob that [uploadFile] builds of a valid path resolves
    exactly when the file can be opened as well.  Every other answer
    carries an error. *)
Theorem validateFilePath_accepts_regular_files (resolve : string -> string)
    (filePath : string) (w : World) :
  exists r w1,
    FileChecks.validateFilePath resolve filePath w = (Resolved r, w1)
    /\ fs w1 = fs w
    /\ (FileChecks.valid r = true
        <-> HFClient.isBlank filePath = false
            /\ deniesStat (fs w) (resolve filePath) = None
            /\ exists content,
                 nodes (fs w) !! resolve filePath = Some (File content))
    /\ (FileChecks.valid r = true ->
        FileChecks.error r = None
        /\ isResolved (fst (FileSystemUtils.getFileSize (resolve filePath) w1))
           = true
        /\ (isResolved (HFClient.createStreamingFileBlob w1 (resolve filePath))
            = true
            <-> deniesOpen (fs w) (resolve filePath) = None))
    /\ (FileChecks.valid r = false -> is_Some (FileChecks.error r)).
Proof.
  unfold FileChecks.validateFilePath.
  destruct (HFClient.isBlank filePath) eqn:Hblank.
  { exists {| FileChecks.valid := false;
              FileChecks.error := Some "File path cannot be empty" |}, w.
    unfold ret. cbn [FileChecks.valid FileChecks.error].
    split; [done|]. split; [done|].
    split; [split; [done | by intros [? _]]|]. split; [done|]. by eexists. }
  set (p := resolve filePath).
  unfold bind at 1, FileChecks.exists_, tryCatch, bind at 1, FileChecks.access, ret.
  destruct (deniesStat (fs w) p) as [e|] eqn:Hdeny.
  { cbn [negb]. eexists _, w. split; [reflexivity|].
    cbn [FileChecks.valid FileChecks.error].
    split; [done|]. split; [split; [done | by intros (_ & ? & _)]|].
    split; [done|]. by eexists. }
  destruct (nodes (fs w) !! p) as [[content|]|] eqn:Hnode.
  - cbn [negb]. unfold bind, FileChecks.isFile, tryCatch, bind, ret,
      FileSystemUtils.stat. rewrite Hdeny, Hnode.
    cbn [FileSystemUtils.isFile negb].
    eexists _, _. split; [reflexivity|].
    cbn [FileChecks.valid FileChecks.error logStat fs].
    split; [done|].
    split; [split; [intros _; split; [done|]; split; [done|]; by eexists | done]|].
    split; [|done]. intros _. split; [done|]. split.
    + pose proof (getFileSize_resolved p (logStat p w) (length content))
        as [_ Hres].
      rewrite Hres; [done|]. cbn [logStat fs]. split; [done|]. by exists content.
    + unfold HFClient.createStreamingFileBlob. cbn [logStat fs].
      rewrite Hdeny, Hnode.
      by destruct (deniesOpen (fs w) p).
  - cbn [negb]. unfold bind, FileChecks.isFile, tryCatch, bind, ret,
      FileSystemUtils.stat. rewrite Hdeny, Hnode.
    cbn [FileSystemUtils.isFile negb].
    eexists _, _. split; [reflexivity|].
    cbn [FileChecks.valid FileChecks.error logStat fs].
    split; [done|].
    split; [split; [done | by intros (_ & _ & ? & ?)]|].
    split; [done|]. by eexists.
  - cbn [negb]. eexists _, w. split; [reflexivity|].
    cbn [FileChecks.valid FileChecks.error].
    split; [done|].
    split; [split; [done | by intros (_ & _ & ? & ?)]|].
    split; [done|]. by eexists.
Qed.

(** A file that [stat] can read and that may not be opened: the path is
    valid, and the blob of it rejects with the error of the opening. *)
Example validateFilePath_valid_and_unreadable :
  let w := Examples.worldOf MoreExamples.readOnlyFs in
  fst (FileChecks.validateFilePath (fun p => p) "/downloads/model.bin" w)
  = Resolved {| FileChecks.valid := true; FileChecks.error := None |}
  /\ HFClient.createStreamingFileBlob w "/downloads/model.bin"
     = Rejected (ThrownError MoreExamples.eacces).
Proof. split; vm_compute; reflexivity. Qed.

(** ** [isValidPattern] *)

Lemma isWhiteSpace_toLowerCaseUnit (c : ascii) :
  JsString.isWhiteSpace (PatternChecks.toLowerCaseUnit c)
  = JsString.isWhiteSpace c.
Proof. by destruct c as [[] [] [] [] [] [] [] []]. Qed.

Lemma trimStart_toLowerCase (s : string) :
  JsString.trimStart (PatternChecks.toLowerCase s)
  = PatternChecks.toLowerCase (JsString.trimStart s).
Proof.
  induction s as [|c s IH]; [done|].
  cbn [PatternChecks.toLowerCase JsString.trimStart].
  rewrite isWhiteSpace_toLowerCaseUnit.
  by destruct (JsString.isWhiteSpace c).
Qed.

Lemma trimEnd_toLowerCase (s : string) :
  JsString.trimEnd (PatternChecks.toLowerCase s)
  = PatternChecks.toLowerCase (JsString.trimEnd s).
Proof.
  induction s as [|c s IH]; [done|].
  cbn [PatternChecks.toLowerCase JsString.trimEnd]. rewrite IH.
  rewrite isWhiteSpace_toLowerCaseUnit.
  destruct (JsString.trimEnd s) as [|d rest]; cbn [PatternChecks.toLowerCase].
  - by destruct (JsString.isWhiteSpace c).
  - done.
Qed.

Lemma trim_toLowerCase (s : string) :
  JsString.trim (PatternChecks.toLowerCase s)
  = PatternChecks.toLowerCase (JsString.trim s).
Proof.
  unfold JsString.trim. by rewrite trimStart_toLowerCase, trimEnd_toLowerCase.
Qed.

Lemma isBlank_toLowerCase (s : string) :
  HFClient.isBlank (PatternChecks.toLowerCase s) = HFClient.isBlank s.
Proof.
  unfold HFClient.isBlank. rewrite trim_toLowerCase.
  destruct s as [|c s]; [done|]. cbn [PatternChecks.toLowerCase JsString.truthy].
  by destruct (JsString.trim (String c s)).
Qed.


(** A pattern whose first character after the white space is neither a
    slash nor a tilde is accepted, whatever follows: no relative pattern
    is refused, also one that climbs out of the working directory. *)
Theorem isValidPattern_accepts_relative (pattern : string) (c : ascii)
    (rest : string) :
  JsString.trim pattern = String c rest ->
  c <> "/"%char ->
  c <> "~"%char ->
  PatternChecks.isValidPattern pattern = true.
Proof.
  intros Htrim Hslash Htilde.
  unfold PatternChecks.isValidPattern.
  assert (HFClient.isBlank pattern = false) as ->.
  { unfold HFClient.isBlank. rewrite Htrim.
    destruct pattern as [|d p]; [discriminate Htrim | done]. }
  rewrite trim_toLowerCase, Htrim.
  cbn [PatternChecks.toLowerCase].
  generalize (PatternChecks.toLowerCase rest). intros tail.
  destruct c as [[] [] [] [] [] [] [] []];
    first [ by exfalso; apply Hslash
          | by exfalso; apply Htilde
          | reflexivity ].
Qed.

Lemma isValidPattern_relative_witness :
  PatternChecks.isValidPattern "  ../../etc/**/*" = true.
Proof.
  apply (isValidPattern_accepts_relative "  ../../etc/**/*" "."%char
           "./../etc/**/*"); [reflexivity | discriminate | discriminate].
Defined.

(** The verdict does not depend on the case of the letters: two patterns
    with the same lower-case form are both accepted or both refused. *)
Theorem isValidPattern_ignores_case (p q : string) :
  PatternChecks.toLowerCase p = PatternChecks.toLowerCase q ->
  PatternChecks.isValidPattern p = PatternChecks.isValidPattern q.
Proof.
  intros Hsame. unfold PatternChecks.isValidPattern.
  rewrite <- (isBlank_toLowerCase p), <- (isBlank_toLowerCase q).
  by rewrite Hsame.
Qed.

Lemma isValidPattern_ignores_case_witness :
  PatternChecks.isValidPattern "/ETC/**/*.conf"
  = PatternChecks.isValidPattern "/etc/**/*.conf"
  /\ PatternChecks.isValidPattern "/etc/**/*.conf" = false.
Proof.
  split; [|reflexivity].
  apply (isValidPattern_ignores_case "/ETC/**/*.conf" "/etc/**/*.conf").
  reflexivity.
Defined.

(** What the list does not cover: a path below a system directory with no
    [**/*] right after it. *)
Example isValidPattern_accepts_system_paths :
  PatternChecks.isValidPattern "/etc/passwd" = true
  /\ PatternChecks.isValidPattern "/etc/*/*" = true
  /\ PatternChecks.isValidPattern "/root/**/*" = true.
Proof. by vm_compute. Qed.

(** ** [resolvePattern]: where the sizes come from, how it fails *)

(** Every file that the loop of [resolvePattern] adds is a regular file
    of the file system, with its size. *)
Lemma statLoop_on_disk (w0 : World) (matchedPaths : list string) :
  forall (files : list ResolvedFile) (totalSize : nat) (w : World) r w1,
    fs w = fs w0 ->
    Forall (fun f =>
              deniesStat (fs w0) (rf_path f) = None
              /\ exists content,
                   nodes (fs w0) !! rf_path f = Some (File content)
                   /\ rf_size f = length content) files ->
    PatternResolver.statLoop matchedPaths files totalSize w = (Resolved r, w1) ->
    Forall (fun f =>
              deniesStat (fs w0) (rf_path f) = None
              /\ exists content,
                   nodes (fs w0) !! rf_path f = Some (File content)
                   /\ rf_size f = length content) (fst r).
Proof.
  induction matchedPaths as [|p rest IH]; intros files totalSize w r w1 Hfs Hall.
  - cbn [PatternResolver.statLoop]. unfold ret. by intros [= <- _].
  - cbn [PatternResolver.statLoop].
    destruct (FileSystemUtils.getFileSize p w) as [[size|error] w2] eqn:Hsize.
    + pose proof (getFileSize_run p w) as [o Hrun].
      rewrite Hsize in Hrun. injection Hrun as _ ->.
      apply (IH _ _ _ r w1); [by rewrite <- Hfs|].
      apply Forall_app. split; [exact Hall|].
      apply Forall_singleton. cbn [rf_path rf_size].
      pose proof (proj1 (getFileSize_resolved p w size)) as Hres.
      rewrite Hsize in Hres. rewrite <- Hfs. by apply Hres.
    + pose proof (getFileSize_run p w) as [o Hrun].
      rewrite Hsize in Hrun. injection Hrun as _ ->.
      apply (IH _ _ _ r w1); [by rewrite <- Hfs | exact Hall].
Qed.

(** The sizes that [resolvePattern] reports are read from the disk: every
    file of a resolution is a regular file that [stat] can read, its size
    is the number of its bytes and its name the base name of its path.
    [stat] was called once for every matched path, in the order of the
    glob, and the file system did not change. *)
Theorem resolvePattern_sizes_from_disk (env : Env) (pattern : string)
    (options : PatternResolver.Options) (w w1 : World) (r : PatternResolution) :
  PatternResolver.resolvePattern env pattern options w = (Resolved r, w1) ->
  fs w1 = fs w
  /\ Forall (fun f =>
               deniesStat (fs w) (rf_path f) = None
               /\ (exists content,
                     nodes (fs w) !! rf_path f = Some (File content)
                     /\ rf_size f = length content)
               /\ rf_fileName f = basename (rf_path f)) (pr_files r)
  /\ exists matched,
       fgAsync env pattern (default (processCwd env) (PatternResolver.cwd options))
       = Resolved matched
       /\ statCalls w1 = statCalls w ++ matched.
Proof.
  unfold PatternResolver.resolvePattern, tryCatch, bind, ret, throw.
  destruct (fgAsync env pattern _) as [matched|[|e]] eqn:Hglob;
    [| done | by destruct (err_instanceofError e)].
  destruct (Z.of_nat (length matched) >? _); [done|].
  destruct (statLoop_run matched [] 0%nat w)
    as (new & w2 & Hloop & Hfs & _ & Hnames & _ & Hstat).
  pose proof (statLoop_on_disk w matched [] 0%nat w _ w2 eq_refl
                (Forall_nil_2 _) Hloop) as Hdisk.
  rewrite Hloop. cbn [fst snd app Nat.add] in *. intros [= <- <-].
  cbn [pr_files]. split; [exact Hfs|]. split.
  - apply Forall_forall. intros f Hf.
    rewrite Forall_forall in Hdisk, Hnames.
    destruct (Hdisk f Hf) as [Hdeny Hcontent].
    split; [exact Hdeny|]. split; [exact Hcontent | by apply Hnames].
  - by exists matched.
Qed.

Lemma resolvePattern_sizes_witness :
  exists r w1,
    PatternResolver.resolvePattern Examples.globTxt "*.txt"
      Examples.defaultOptions (Examples.worldOf Examples.txtFiles)
    = (Resolved r, w1)
    /\ map rf_size (pr_files r) = [10%nat; 20%nat]
    /\ statCalls w1 = ["/work/a.txt"; "/work/gone.txt"; "/work/b.txt"].
Proof.
  destruct (PatternResolver.resolvePattern Examples.globTxt "*.txt"
              Examples.defaultOptions (Examples.worldOf Examples.txtFiles))
    as [[r|t] w1] eqn:Hrun; [|by vm_compute in Hrun].
  exists r, w1. split; [reflexivity|].
  destruct (resolvePattern_sizes_from_disk Examples.globTxt "*.txt"
              Examples.defaultOptions (Examples.worldOf Examples.txtFiles)
              w1 r Hrun) as (_ & _ & matched & Hglob & Hstat).
  injection Hglob as <-. split; [|exact Hstat].
  vm_compute in Hrun. by injection Hrun as <- _.
Defined.

(** However [resolvePattern] fails, it fails before the first [stat]:
    the world is as it was, and the error is a plain [Error] whose message
    starts with ["Failed to resolve pattern "], the pattern in quotes and a
    colon.  Once the glob has answered with no more paths than the limit,
    nothing fails any more. *)
Theorem resolvePattern_rejects_before_stat (env : Env) (pattern : string)
    (options : PatternResolver.Options) (w w1 : World) (t : Thrown) :
  PatternResolver.resolvePattern env pattern options w = (Rejected t, w1) ->
  w1 = w
  /\ (exists cause,
        t = ThrownError
              (newError (PatternResolver.failedPrefix pattern +:+ cause)))
  /\ forall matched,
       fgAsync env pattern (default (processCwd env) (PatternResolver.cwd options))
       = Resolved matched ->
       default 10000 (PatternResolver.maxFiles options)
       < Z.of_nat (length matched).
Proof.
  unfold PatternResolver.resolvePattern, tryCatch, bind, ret, throw.
  destruct (fgAsync env pattern _) as [matched|[|e]] eqn:Hglob.
  - destruct (Z.gtb_spec (Z.of_nat (length matched))
                (default 10000 (PatternResolver.maxFiles options))) as [Hgt|Hle].
    + cbn [newError err_instanceofError]. intros [= <- <-].
      split; [done|]. split; [by eexists|]. by intros ? [= <-].
    + destruct (statLoop_run matched [] 0%nat w) as (new & w2 & Hloop & _).
      by rewrite Hloop.
  - intros [= <- <-]. split; [done|]. split; [by eexists | done].
  - destruct (err_instanceofError e); intros [= <- <-];
      (split; [done|]); (split; [by eexists | done]).
Qed.

Lemma resolvePattern_rejects_witness :
  let w := Examples.worldOf Examples.txtFiles in
  exists t,
    PatternResolver.resolvePattern Examples.globDenied "private/*"
      Examples.defaultOptions w = (Rejected t, w)
    /\ exists cause,
         t = ThrownError
               (newError (PatternResolver.failedPrefix "private/*" +:+ cause)).
Proof.
  cbn zeta.
  destruct (PatternResolver.resolvePattern Examples.globDenied "private/*"
              Examples.defaultOptions (Examples.worldOf Examples.txtFiles))
    as [[r|t] w1] eqn:Hrun; [by vm_compute in Hrun|].
  destruct (resolvePattern_rejects_before_stat Examples.globDenied "private/*"
              Examples.defaultOptions (Examples.worldOf Examples.txtFiles)
              w1 t Hrun) as (-> & Hcause & _).
  exists t. split; [reflexivity | exact Hcause].
Defined.

(** ** [uploadFiles] when nothing fails *)

(** The body of the loop of [uploadFiles] when every file can be read and
    the hub accepts every call with a commit: one call, no sleep, the
    files of the batch counted, and the commit of the call kept. *)
Lemma processBatch_all_uploaded (this : HFClient.t) (env : Env)
    (options : HFClient.MultiUploadOptions) (tb : nat) (w0 : World)
    (shaOf : nat -> string) :
  let l := HFClient.mo_filePaths options in
  let base := length (uploadFilesCalls w0) in
  0 <= maxRetries (HFClient.retryConfig this) ->
  (forall p, p ∈ l -> isResolved (HFClient.createStreamingFileBlob w0 p) = true) ->
  (forall n q, hfUploadFiles env n q = Resolved {| commit := Some (shaOf n) |}) ->
  (forall n, shaOf n <> EmptyString) ->
  forall i st w,
    (i < ceilDiv (length l) HFClient.batchSize)%nat ->
    fs w = fs w0
    /\ sleeps w = sleeps w0
    /\ length (uploadFilesCalls w) = (base + i)%nat
    /\ HFClient.filesProcessed st = length (take (i * HFClient.batchSize) l)
    /\ HFClient.failedFiles st = [] ->
    let r := HFClient.processBatch this env options tb i st w in
    fs (snd r) = fs w0
    /\ sleeps (snd r) = sleeps w0
    /\ length (uploadFilesCalls (snd r)) = (base + S i)%nat
    /\ HFClient.filesProcessed (fst r) = length (take (S i * HFClient.batchSize) l)
    /\ HFClient.failedFiles (fst r) = []
    /\ HFClient.commitSha (fst r) = shaOf (base + i)%nat.
Proof.
  intros l base Hk Hready Hhub Htruthy i st w Hi (Hfs & Hsleeps & Hlen & Hfp & Hfailed).
  cbn zeta. rewrite processBatch_eq. cbn zeta. fold l.
  set (batch := HFClient.batchFilesOf l i).
  assert (forall p, p ∈ batch ->
            isResolved (HFClient.createStreamingFileBlob w p) = true) as Hbatch.
  { intros p Hp. rewrite (createStreamingFileBlob_fs w0 w p Hfs).
    apply Hready. by apply batchFilesOf_elem in Hp. }
  destruct (prepare_all_ready w batch Hbatch) as [files Hall]. rewrite Hall.
  pose proof (prepare_valid w batch files Hall) as Hvalid.
  assert (missingFiles w batch = []) as Hnone
    by (apply missingFiles_none; intros p Hp;
        by apply createStreamingFileBlob_exists, Hbatch).
  rewrite Hnone in Hvalid |- *. cbn [length] in Hvalid.
  pose proof (batch_nonempty l i Hi) as Hne. fold batch in Hne.
  destruct (Nat.eqb_spec (length (omap id files)) 0) as [H0|H0]; [lia|].
  set (p := HFClient.batchUploadOptions this options tb i (omap id files)).
  pose proof (Hhub (length (uploadFilesCalls w)) p) as Hcall.
  rewrite (withRetry_resolves_first (HFClient.retryConfig this) sleep
             (HFClient.callUploadFiles env p) w (logUploadFiles p w)
             {| commit := Some (shaOf (length (uploadFilesCalls w))) |} Hk)
    by (unfold HFClient.callUploadFiles; by rewrite Hcall).
  cbn [fst snd logUploadFiles fs sleeps uploadFilesCalls HFClient.filesProcessed
       HFClient.failedFiles HFClient.commitSha commit].
  split; [done|]. split; [done|].
  split; [rewrite length_app; cbn [length]; lia|].
  split; [rewrite take_batch_length; fold batch; lia|].
  split; [by rewrite Hfailed|].
  rewrite Hlen. specialize (Htruthy (base + i)%nat).
  by destruct (shaOf (base + i)%nat).
Qed.

(** When the inputs are valid, every file can be read and the hub accepts
    every call with a commit, [uploadFiles] reports every file uploaded
    and no failed file, after one call for each batch and no sleep; of the
    commits that the hub made, one for each batch, the result names the
    last one only. *)
Theorem uploadFiles_reports_last_commit (this : HFClient.t) (env : Env)
    (options : HFClient.MultiUploadOptions) (w : World) (shaOf : nat -> string) :
  let l := HFClient.mo_filePaths options in
  let totalBatches := ceilDiv (length l) HFClient.batchSize in
  let base := length (uploadFilesCalls w) in
  HFClient.validateMultiUploadInputs options = Resolved tt ->
  0 <= maxRetries (HFClient.retryConfig this) ->
  (forall p, p ∈ l -> isResolved (HFClient.createStreamingFileBlob w p) = true) ->
  (forall n q, hfUploadFiles env n q = Resolved {| commit := Some (shaOf n) |}) ->
  (forall n, shaOf n <> EmptyString /\ shaOf n <> "unknown") ->
  exists w1,
    HFClient.uploadFiles this env options w
    = (Resolved
         {| HFClient.mr_success := true;
            HFClient.mr_filesUploaded := length l;
            HFClient.mr_totalFiles := length l;
            HFClient.mr_commitSha := Some (shaOf (base + totalBatches - 1)%nat);
            HFClient.mr_failedFiles := None;
            HFClient.mr_error := None |}, w1)
    /\ length (uploadFilesCalls w1) = (base + totalBatches)%nat
    /\ sleeps w1 = sleeps w
    /\ fs w1 = fs w.
Proof.
  intros l tb base Hvalid Hk Hready Hhub Hsha.
  assert (0 < length l)%nat as Hfiles.
  { revert Hvalid. unfold HFClient.validateMultiUploadInputs. fold l.
    destruct (HFClient.isBlank _); [done|].
    destruct (Nat.eqb_spec (length l) 0); [done | lia]. }
  assert (0 < tb)%nat as Htb.
  { destruct tb as [|k] eqn:Heq; [|lia].
    pose proof (proj1 (ceilDiv_least (length l) HFClient.batchSize 0
                         ltac:(unfold HFClient.batchSize; lia))) as Hle.
    fold tb in Hle. rewrite Heq in Hle. specialize (Hle ltac:(lia)). lia. }
  set (P := fun (i : nat) (st : HFClient.BatchState) (w1 : World) =>
       fs w1 = fs w
       /\ sleeps w1 = sleeps w
       /\ length (uploadFilesCalls w1) = (base + i)%nat
       /\ HFClient.filesProcessed st = length (take (i * HFClient.batchSize) l)
       /\ HFClient.failedFiles st = []
       /\ (0 < i -> HFClient.commitSha st = shaOf (base + i - 1))%nat).
  assert (forall i st w1, (i < tb)%nat -> P i st w1 ->
            P (S i) (fst (HFClient.processBatch this env options tb i st w1))
                    (snd (HFClient.processBatch this env options tb i st w1)))
    as Hstep.
  { intros i st w1 Hi (H1 & H2 & H3 & H4 & H5 & _).
    pose proof (processBatch_all_uploaded this env options tb w shaOf Hk Hready
                  Hhub (fun n => proj1 (Hsha n)) i st w1 Hi
                  (conj H1 (conj H2 (conj H3 (conj H4 H5))))) as Hbody.
    cbn zeta in Hbody. destruct Hbody as (G1 & G2 & G3 & G4 & G5 & G6).
    unfold P. split; [done|]. split; [done|]. split; [done|].
    split; [done|]. split; [done|]. intros _. rewrite G6. f_equal. lia. }
  pose proof (batchLoop_invariant P this env options tb tb Hstep tb 0%nat
                (HFClient.mkBatchState 0 [] "unknown") w ltac:(lia)) as Hinv.
  rewrite (uploadFiles_valid this env options w Hvalid). cbn zeta. fold l tb.
  destruct (HFClient.batchLoop this env options tb tb 0
              (HFClient.mkBatchState 0 [] "unknown") w) as [st w1].
  cbn [fst snd Nat.add] in Hinv |- *.
  destruct Hinv as (Hfs & Hsleeps & Hlen & Hfp & Hfailed & Hcommit).
  { unfold P. cbn. repeat split; try done. lia. }
  specialize (Hcommit Htb).
  assert (length (take (tb * HFClient.batchSize) l) = length l) as Hall.
  { rewrite take_ge; [done|].
    pose proof (proj1 (ceilDiv_least (length l) HFClient.batchSize tb
                         ltac:(unfold HFClient.batchSize; lia)) ltac:(lia)).
    lia. }
  exists w1. rewrite Hfp, Hall, Hfailed, Hcommit.
  destruct (Nat.ltb_spec 0 (length l)) as [_|]; [|lia].
  destruct (String.eqb_spec (shaOf (base + tb - 1)%nat) "unknown") as [Heq|_];
    [by destruct (Hsha (base + tb - 1)%nat)|].
  cbn [andb negb length Nat.ltb Nat.leb]. done.
Qed.

Lemma uploadFiles_reports_last_commit_witness :
  exists w1,
    HFClient.uploadFiles Examples.client Examples.hubUp Examples.uploadTwo
      (Examples.worldOf Examples.twoFiles)
    = (Resolved
         {| HFClient.mr_success := true;
            HFClient.mr_filesUploaded := 2;
            HFClient.mr_totalFiles := 2;
            HFClient.mr_commitSha := Some "c0ffee";
            HFClient.mr_failedFiles := None;
            HFClient.mr_error := None |}, w1)
    /\ length (uploadFilesCalls w1) = 1%nat.
Proof.
  destruct (uploadFiles_reports_last_commit Examples.client Examples.hubUp
              Examples.uploadTwo (Examples.worldOf Examples.twoFiles)
              (fun _ => "c0ffee")) as (w1 & Hrun & Hcalls & _).
  - reflexivity.
  - simpl. lia.
  - intros p Hp. apply list_elem_of_In in Hp. simpl in Hp.
    destruct Hp as [<-|[<-|[]]]; reflexivity.
  - intros n q. reflexivity.
  - intros n. split; discriminate.
  - exists w1. split; [exact Hrun | exact Hcalls].
Defined.

(** Two files of the same name in two directories: the call carries the
    same remote path twice. *)
Example uploadFiles_same_base_names :
  map (fun p => map hf_path (ufs_files p))
    (uploadFilesCalls
       (snd (HFClient.uploadFiles Examples.client Examples.hubUp
               (Examples.uploadOf ["/a/config.json"; "/b/config.json"])
               (Examples.worldOf MoreExamples.sameNames))))
  = [["config.json"; "config.json"]].
Proof. vm_compute. reflexivity. Qed.

(** ** [BatchManager]: [createBatches] and [processBatches] *)

(** Ten files in batches of four: batches of four, four and two. *)
Lemma createBatches_partition_witness :
  exists batches,
    BatchManager.createBatches (MoreExamples.resolvedFiles 10) 4 = Some batches
    /\ concat batches = MoreExamples.resolvedFiles 10
    /\ Forall (fun b => length b <= 4)%nat batches
    /\ length batches = 3%nat.
Proof.
  apply (createBatches_partition (MoreExamples.resolvedFiles 10) 4). lia.
Defined.

(** With a batch size of 0 and a file to cut, the loop of [createBatches]
    never ends: whatever the number of iterations allowed, it has not
    returned. *)
Theorem createBatches_zero_size_never_returns (files : list ResolvedFile)
    (fuel : nat) (batches : list (list ResolvedFile)) :
  files <> [] ->
  BatchManager.createBatchesLoop fuel files 0 0 batches = None.
Proof.
  intros Hfiles.
  assert (0 < length files)%nat as Hlen by (destruct files; [done | simpl; lia]).
  revert batches.
  induction fuel as [|fuel IH]; intros batches;
    cbn [BatchManager.createBatchesLoop];
    destruct (Nat.ltb_spec 0 (length files)) as [_|]; try lia; [done|].
  apply IH.
Qed.

Lemma createBatches_zero_size_witness :
  BatchManager.createBatchesLoop 1000 (MoreExamples.resolvedFiles 1) 0 0 [] = None.
Proof.
  apply (createBatches_zero_size_never_returns (MoreExamples.resolvedFiles 1)
           1000 []).
  discriminate.
Defined.

(** ** [processBatches] *)

Lemma promiseAll_resolved {A} (l : list (Outcome A)) :
  Forall (fun o => isResolved o = true) l ->
  exists vs, HFClient.promiseAll l = AllResolved vs /\ map Resolved vs = l.
Proof.
  induction l as [|o l IH]; intros Hall; [by exists []|].
  apply Forall_cons in Hall as [Ho Hl].
  destruct (IH Hl) as (vs & Hvs & Hmap).
  destruct o as [v|t]; [|done].
  exists (v :: vs). cbn [HFClient.promiseAll map]. by rewrite Hvs, Hmap.
Qed.

(** The batches that [createBatches] makes are the batches [batchAt]. *)
Lemma createBatches_batchAt (files : list ResolvedFile) (size : nat) :
  (0 < size)%nat ->
  BatchManager.createBatches files size
  = Some (map (batchAt files size) (seq 0 (ceilDiv (length files) size))).
Proof.
  intros Hsize. unfold BatchManager.createBatches.
  rewrite (createBatchesLoop_run files size Hsize) by lia.
  by rewrite Nat.sub_0_r.
Qed.

Lemma nth_batchAt (files : list ResolvedFile) (size j : nat) :
  (0 < size)%nat ->
  nth j (map (batchAt files size) (seq 0 (ceilDiv (length files) size))) []
  = batchAt files size j.
Proof.
  intros Hsize.
  set (tb := ceilDiv (length files) size).
  destruct (Nat.lt_ge_cases j tb) as [Hlt|Hge].
  - assert (length (map (batchAt files size) (seq 0 tb)) = tb) as Hlen
      by (by rewrite length_map, length_seq).
    rewrite (nth_indep _ [] (batchAt files size 0)) by lia.
    rewrite (map_nth (batchAt files size)), seq_nth by done. done.
  - assert (length (map (batchAt files size) (seq 0 tb)) = tb) as Hlen
      by (by rewrite length_map, length_seq).
    rewrite nth_overflow by lia.
    unfold batchAt. rewrite drop_ge; [by rewrite take_nil|].
    pose proof (proj1 (ceilDiv_least (length files) size tb Hsize) ltac:(lia)).
    nia.
Qed.

Lemma take_batchAt_length (files : list ResolvedFile) (size j : nat) :
  length (take (S j * size) files)
  = (length (take (j * size) files) + length (batchAt files size j))%nat.
Proof.
  unfold batchAt. rewrite <- length_app, take_take_drop. do 2 f_equal. lia.
Qed.

Section ProcessBatches.
Context {T : Type}.
Variable processor :
  nat -> list ResolvedFile -> BatchRun.BatchProgress -> Outcome T.
Variable files : list ResolvedFile.
Variable size conc : nat.
Variable delay : Z.
Hypothesis Hsize : (0 < size)%nat.
Hypothesis Hconc : (0 < conc)%nat.

Let tb := ceilDiv (length files) size.
Let batches := map (batchAt files size) (seq 0 tb).

(** The progress of batch [j] in a group that started with [done_]
    files processed. *)
Let progressIn (done_ j : nat) : BatchRun.BatchProgress :=
  {| BatchRun.currentBatch := j + 1;
     BatchRun.totalBatches := tb;
     BatchRun.filesProcessed := done_;
     BatchRun.totalFiles := length files;
     BatchRun.currentBatchSize := length (batchAt files size j) |}.

Lemma callLoop_run (done_ base : nat) :
  forall (count j : nat) (tr : BatchRun.Trace),
    length (BatchRun.processorCalls tr) = (base + j)%nat ->
    BatchRun.callLoop processor batches tb (length files) done_ count j tr
    = (map (fun k => processor (base + k)%nat (batchAt files size k)
                       (progressIn done_ k)) (seq j count),
       BatchRun.mkTrace
         (BatchRun.processorCalls tr
          ++ map (fun k => (batchAt files size k, progressIn done_ k))
               (seq j count))
         (BatchRun.slept tr) (BatchRun.logged tr)).
Proof.
  induction count as [|count IH]; intros j tr Hlen.
  - cbn [BatchRun.callLoop seq map]. rewrite app_nil_r. by destruct tr.
  - cbn [BatchRun.callLoop seq map].
    assert (nth j batches [] = batchAt files size j) as Hnth
      by (by apply nth_batchAt).
    rewrite !Hnth.
    rewrite (IH (S j)); [|unfold BatchRun.logCall; cbn;
                          rewrite length_app; cbn [length]; lia].
    rewrite Hlen. unfold BatchRun.logCall.
    cbn [BatchRun.processorCalls BatchRun.slept BatchRun.logged].
    rewrite <- app_assoc.
    done.
Qed.

Lemma countLoop_run :
  forall (count j : nat),
    BatchRun.countLoop batches count j (length (take (j * size) files))
    = length (take ((j + count) * size) files).
Proof.
  induction count as [|count IH]; intros j.
  - cbn [BatchRun.countLoop]. by rewrite Nat.add_0_r.
  - cbn [BatchRun.countLoop].
    assert (nth j batches [] = batchAt files size j) as Hnth
      by (by apply nth_batchAt).
    rewrite Hnth, <- take_batchAt_length, IH. do 3 f_equal. lia.
Qed.

Lemma take_all_batches (n : nat) :
  (tb <= n)%nat -> take (n * size) files = files.
Proof.
  intros Hn. apply take_ge.
  pose proof (proj1 (ceilDiv_least (length files) size tb Hsize) ltac:(lia)).
  nia.
Qed.

(** The groups from [i] on, when every call of the processor resolves. *)
Lemma groupLoop_run (base : nat) :
  (forall n b p, isResolved (processor n b p) = true) ->
  forall (fuel i : nat) (results : list T) (tr : BatchRun.Trace),
    (tb - i <= fuel)%nat ->
    (i mod conc = 0)%nat ->
    length (BatchRun.processorCalls tr) = (base + Nat.min i tb)%nat ->
    exists new,
      BatchRun.groupLoop processor batches tb (length files) fuel conc delay i
        results (length (take (i * size) files)) tr
      = BatchRun.GroupsDone (results ++ new) (length files)
             (BatchRun.mkTrace
                (BatchRun.processorCalls tr
                 ++ map (fun k => (batchAt files size k,
                                   progressIn
                                     (length (take (k / conc * conc * size) files)) k))
                      (seq i (tb - i)))
                (BatchRun.slept tr
                 ++ (if 0 <? delay
                     then replicate (ceilDiv (tb - i) conc - 1) delay else []))
                (BatchRun.logged tr))
      /\ map Resolved new
         = map (fun k => processor (base + k)%nat (batchAt files size k)
                           (progressIn
                              (length (take (k / conc * conc * size) files)) k))
             (seq i (tb - i)).
Proof.
  intros Hres fuel.
  induction fuel as [|fuel IH]; intros i results tr Hfuel Hmod Hlen.
  - assert (tb <= i)%nat as Hdone by lia.
    cbn [BatchRun.groupLoop].
    destruct (Nat.ltb_spec i tb) as [|_]; [lia|].
    replace (tb - i)%nat with 0%nat by lia.
    rewrite ceilDiv_zero by done. cbn [seq map replicate Nat.sub].
    exists []. rewrite !app_nil_r, take_all_batches by done.
    split; [|done]. destruct tr.
    destruct (0 <? delay); cbn [BatchRun.slept]; by rewrite app_nil_r.
  - cbn [BatchRun.groupLoop].
    destruct (Nat.ltb_spec i tb) as [Hlt|Hge].
    + set (e := Nat.min (i + conc) tb).
      assert (i < e /\ e <= tb /\ e <= i + conc)%nat as (Hie & Hetb & Hec)
        by (unfold e; lia).
      rewrite (callLoop_run _ base) by lia.
      match goal with
      | |- context [HFClient.promiseAll ?l] =>
          destruct (promiseAll_resolved l) as (vs & -> & Hvs)
      end.
      { apply Forall_map, Forall_forall. intros k _. apply Hres. }
      rewrite (countLoop_run (e - i) i).
      replace (i + (e - i))%nat with e by lia.
      assert (length (take (e * size) files)
              = length (take ((i + conc) * size) files)) as Hnext.
      { destruct (Nat.eq_dec e (i + conc)) as [->|Hne]; [done|].
        assert (e = tb) as -> by lia.
        rewrite !take_all_batches by lia. done. }
      rewrite Hnext.
      set (tr2 := if (0 <? delay) && (e <? tb)%nat then _ else _).
      destruct (IH (i + conc)%nat (results ++ vs) tr2) as (new & Hrun & Hnew).
      { lia. }
      { rewrite <- Nat.Div0.add_mod_idemp_l, Hmod. cbn [Nat.add].
        apply Nat.Div0.mod_same. }
      { unfold tr2. destruct ((0 <? delay) && (e <? tb)%nat);
          cbn [BatchRun.sleep BatchRun.processorCalls];
          rewrite length_app, length_map, length_seq; lia. }
      assert (forall k, (i <= k < e)%nat -> (k / conc * conc = i)%nat) as Hgroup.
      { intros k Hk.
        pose proof (Nat.div_mod_eq i conc) as Hi. rewrite Hmod in Hi.
        assert (k / conc = i / conc)%nat as ->; [|lia].
        symmetry. apply (Nat.div_unique k conc (i / conc) (k - i)); lia. }
      assert (seq i (tb - i) = seq i (e - i) ++ seq (i + conc) (tb - (i + conc)))
        as Hsplit.
      { destruct (Nat.eq_dec e (i + conc)) as [Heq|Hne].
        - rewrite <- Heq.
          replace (tb - i)%nat with ((e - i) + (tb - e))%nat by lia.
          rewrite seq_app. do 2 f_equal. lia.
        - assert (e = tb) as Heq by lia. rewrite Heq.
          replace (tb - (i + conc))%nat with 0%nat by lia.
          cbn [seq]. by rewrite app_nil_r. }
      assert (map (fun k => (batchAt files size k,
                             progressIn (length (take (i * size) files)) k))
                  (seq i (e - i))
              = map (fun k => (batchAt files size k,
                               progressIn
                                 (length (take (k / conc * conc * size) files)) k))
                  (seq i (e - i))) as Hcalls.
      { apply map_ext_in. intros k Hk. apply in_seq in Hk.
        rewrite (Hgroup k) by lia. done. }
      assert (ceilDiv (tb - i) conc = S (ceilDiv (tb - (i + conc)) conc))
        as Hgroups.
      { rewrite (ceilDiv_step (tb - i) conc) by lia. do 2 f_equal. lia. }
      assert (BatchRun.processorCalls tr2
              = BatchRun.processorCalls tr
                ++ map (fun k => (batchAt files size k,
                                  progressIn
                                    (length (take (k / conc * conc * size) files)) k))
                     (seq i (e - i))) as Hcalls2.
      { unfold tr2. rewrite <- Hcalls.
        by destruct ((0 <? delay) && (e <? tb)%nat). }
      assert (BatchRun.logged tr2 = BatchRun.logged tr) as Hlogged2.
      { unfold tr2. by destruct ((0 <? delay) && (e <? tb)%nat). }
      assert (BatchRun.slept tr2
              ++ (if 0 <? delay
                  then replicate (ceilDiv (tb - (i + conc)) conc - 1) delay
                  else [])
              = BatchRun.slept tr
                ++ (if 0 <? delay
                    then replicate (ceilDiv (tb - i) conc - 1) delay else []))
        as Hslept2.
      { unfold tr2. rewrite Hgroups. cbn [Nat.sub]. rewrite Nat.sub_0_r.
        destruct (0 <? delay) eqn:Hdelay; cbn [andb].
        - destruct (Nat.ltb_spec e tb) as [Hmore|Hlast];
            cbn [BatchRun.sleep BatchRun.slept].
          + assert (0 < ceilDiv (tb - (i + conc)) conc)%nat as Hpos.
            { destruct (ceilDiv (tb - (i + conc)) conc) eqn:Hz; [|lia].
              pose proof (proj1 (ceilDiv_least (tb - (i + conc)) conc 0 Hconc))
                as H0.
              rewrite Hz in H0. specialize (H0 ltac:(lia)). lia. }
            destruct (ceilDiv (tb - (i + conc)) conc) as [|g]; [lia|].
            cbn [Nat.sub replicate]. rewrite Nat.sub_0_r, <- app_assoc. done.
          + replace (tb - (i + conc))%nat with 0%nat by lia.
            rewrite ceilDiv_zero by done. done.
        - by destruct (e <? tb)%nat. }
      exists (vs ++ new). rewrite Hrun, Hcalls2, Hlogged2, Hslept2.
      rewrite Hsplit, !map_app, <- !app_assoc.
      split; [done|].
      rewrite Hvs, Hnew. f_equal.
      apply map_ext_in. intros k Hk. apply in_seq in Hk.
      rewrite (Hgroup k) by lia. done.
    + replace (tb - i)%nat with 0%nat by lia.
      rewrite ceilDiv_zero by done. cbn [seq map replicate Nat.sub].
      exists []. rewrite !app_nil_r, take_all_batches by done.
      split; [|done]. destruct tr.
    destruct (0 <? delay); cbn [BatchRun.slept]; by rewrite app_nil_r.
Qed.

End ProcessBatches.

(** When every call of the processor resolves, [processBatches] passes
    every batch to the processor once, in order, and the batches make up
    the files; batch [j] comes with [currentBatch = j + 1], its own length,
    and a [filesProcessed] that counts the batches before its group only:
    with [maxConcurrency] above 1 the batches of one group all see the same
    [filesProcessed].  The results are those of the calls, in the order of
    the batches, and it sleeps once between two groups, when the delay is
    positive. *)
Theorem processBatches_schedule {T}
    (processor : nat -> list ResolvedFile -> BatchRun.BatchProgress -> Outcome T)
    (files : list ResolvedFile) (options : BatchRun.BatchOperationOptions)
    (tr : BatchRun.Trace) :
  let size := default 1000%nat (BatchRun.batchSize options) in
  let conc := default 1%nat (BatchRun.maxConcurrency options) in
  let delay := default 100 (BatchRun.delayBetweenBatches options) in
  let tb := ceilDiv (length files) size in
  let base := length (BatchRun.processorCalls tr) in
  (0 < size)%nat ->
  (0 < conc)%nat ->
  (forall n b p, isResolved (processor n b p) = true) ->
  exists results tr1,
    BatchRun.processBatches files processor options tr
    = BatchRun.Returned (AllResolved results) tr1
    /\ BatchRun.processorCalls tr1
       = BatchRun.processorCalls tr
         ++ map (fun j => (batchAt files size j, progressAt files size conc j))
              (seq 0 tb)
    /\ map Resolved results
       = map (fun j => processor (base + j)%nat (batchAt files size j)
                         (progressAt files size conc j)) (seq 0 tb)
    /\ concat (map (batchAt files size) (seq 0 tb)) = files
    /\ BatchRun.slept tr1
       = BatchRun.slept tr
         ++ (if 0 <? delay then replicate (ceilDiv tb conc - 1) delay else []).
Proof.
  intros size conc delay tb base Hsize Hconc Hres.
  assert (concat (map (batchAt files size) (seq 0 tb)) = files) as Hcover.
  { unfold batchAt. rewrite pieces_concat. apply take_ge.
    pose proof (proj1 (ceilDiv_least (length files) size tb Hsize) ltac:(lia)).
    lia. }
  unfold BatchRun.processBatches. fold size conc delay.
  destruct (Nat.eqb_spec (length files) 0) as [Hempty|Hfiles].
  { exists [], tr. assert (tb = 0%nat) as Htb
      by (unfold tb; rewrite Hempty; by apply ceilDiv_zero).
    rewrite Htb in Hcover |- *. cbn [seq map]. rewrite ceilDiv_zero by done.
    cbn [Nat.sub replicate]. rewrite !app_nil_r.
    split; [done|]. split; [done|]. split; [done|]. split; [done|].
    destruct (0 <? delay); by rewrite app_nil_r. }
  rewrite createBatches_batchAt by done. fold tb.
  assert (length (map (batchAt files size) (seq 0 tb)) = tb) as ->
    by (by rewrite length_map, length_seq).
  set (tr0 := BatchRun.consoleLog _ tr).
  destruct (groupLoop_run processor files size conc delay Hsize Hconc base Hres
              tb 0%nat [] tr0) as (new & Hrun & Hnew).
  { fold tb. lia. }
  { by apply Nat.Div0.mod_0_l. }
  { unfold tr0. cbn. fold base. lia. }
  fold tb in Hrun, Hnew. rewrite Nat.sub_0_r in Hrun, Hnew.
  change (length (take (0 * size) files)) with 0%nat in Hrun.
  rewrite Hrun. cbn [app].
  assert (forall k, (k < tb)%nat ->
            length (take (k / conc * conc * size) files)
            = (k / conc * conc * size)%nat) as Hdone.
  { intros k Hk. rewrite length_take.
    assert (~ (length files <= size * k)%nat) as Hn.
    { intros Hle. apply (ceilDiv_least (length files) size k Hsize) in Hle.
      fold tb in Hle. lia. }
    pose proof (Nat.Div0.mul_div_le k conc). nia. }
  eexists _, _. split; [reflexivity|].
  cbn [BatchRun.consoleLog BatchRun.processorCalls BatchRun.slept].
  split.
  { f_equal. apply map_ext_in. intros k Hk. apply in_seq in Hk.
    unfold progressAt. fold tb. by rewrite Hdone by lia. }
  split.
  { rewrite Hnew. apply map_ext_in. intros k Hk. apply in_seq in Hk.
    unfold progressAt. fold tb. by rewrite Hdone by lia. }
  split; [exact Hcover | done].
Qed.

(** Ten files in batches of three, two batches at a time: the four calls,
    the stale [filesProcessed] of the second and the fourth, and one sleep
    between the two groups. *)
Lemma processBatches_schedule_witness :
  exists results tr1,
    BatchRun.processBatches (MoreExamples.resolvedFiles 10) MoreExamples.numbering
      {| BatchRun.batchSize := Some 3%nat;
         BatchRun.maxConcurrency := Some 2%nat;
         BatchRun.delayBetweenBatches := None |} MoreExamples.emptyTrace
    = BatchRun.Returned (AllResolved results) tr1
    /\ results = [1; 2; 3; 4]%nat
    /\ map (fun c => BatchRun.filesProcessed (snd c)) (BatchRun.processorCalls tr1)
       = [0; 0; 6; 6]%nat
    /\ BatchRun.slept tr1 = [100].
Proof.
  destruct (processBatches_schedule MoreExamples.numbering
              (MoreExamples.resolvedFiles 10)
              {| BatchRun.batchSize := Some 3%nat;
                 BatchRun.maxConcurrency := Some 2%nat;
                 BatchRun.delayBetweenBatches := None |} MoreExamples.emptyTrace
              ltac:(simpl; lia) ltac:(simpl; lia) ltac:(done))
    as (results & tr1 & Hrun & _).
  exists results, tr1. split; [exact Hrun|].
  vm_compute in Hrun. injection Hrun as <- <-.
  split; [reflexivity|]. split; reflexivity.
Defined.

Lemma promiseAll_rejects {A} (l1 l2 : list (Outcome A)) (t : Thrown) :
  Forall (fun o => isResolved o = true) l1 ->
  exists reasons,
    HFClient.promiseAll (l1 ++ Rejected t :: l2) = FirstRejected (t :: reasons)
    /\ (Forall (fun o => isResolved o = true) l2 -> reasons = []).
Proof.
  induction l1 as [|o l1 IH]; intros Hall.
  - cbn [app HFClient.promiseAll].
    destruct (HFClient.promiseAll l2) as [vs|reasons] eqn:Hrest.
    + exists []. by split.
    + exists reasons. split; [done|]. intros Hl2.
      destruct (promiseAll_resolved l2 Hl2) as (vs & Hvs & _). congruence.
  - apply Forall_cons in Hall as [Ho Hl].
    destruct o as [v|]; [|done].
    destruct (IH Hl) as (reasons & Hrun & Hnone).
    exists reasons. cbn [app HFClient.promiseAll]. by rewrite Hrun.
Qed.

Section ProcessBatchesFailure.
Context {T : Type}.
Variable processor :
  nat -> list ResolvedFile -> BatchRun.BatchProgress -> Outcome T.
Variable files : list ResolvedFile.
Variable size conc : nat.
Variable delay : Z.
Variable base failing : nat.
Variable t : Thrown.
Hypothesis Hsize : (0 < size)%nat.
Hypothesis Hconc : (0 < conc)%nat.
Hypothesis Hfailing : (failing < ceilDiv (length files) size)%nat.
Hypothesis Hbefore :
  forall n b p, (n < base + failing)%nat -> isResolved (processor n b p) = true.
Hypothesis Hfails : forall b p, processor (base + failing)%nat b p = Rejected t.

Let tb := ceilDiv (length files) size.
Let batches := map (batchAt files size) (seq 0 tb).
Let last := Nat.min (failing / conc * conc + conc) tb.

(** The groups from [i] on, up to the group of the call that fails. *)
Lemma groupLoop_rejects :
  forall (fuel i : nat) (results : list T) (tr : BatchRun.Trace),
    (tb - i <= fuel)%nat ->
    (i mod conc = 0)%nat ->
    (i <= failing)%nat ->
    length (BatchRun.processorCalls tr) = (base + i)%nat ->
    exists reasons tr1,
      BatchRun.groupLoop processor batches tb (length files) fuel conc delay i
        results (length (take (i * size) files)) tr
      = BatchRun.GroupsRejected (t :: reasons) tr1
      /\ ((forall n b p, (base + failing < n < base + last)%nat ->
            isResolved (processor n b p) = true) -> reasons = [])
      /\ BatchRun.processorCalls tr1
         = BatchRun.processorCalls tr
           ++ map (fun k =>
                     (batchAt files size k,
                      {| BatchRun.currentBatch := k + 1;
                         BatchRun.totalBatches := tb;
                         BatchRun.filesProcessed :=
                           length (take (k / conc * conc * size) files);
                         BatchRun.totalFiles := length files;
                         BatchRun.currentBatchSize :=
                           length (batchAt files size k) |}))
                (seq i (last - i)).
Proof.
  induction fuel as [|fuel IH]; intros i results tr Hfuel Hmod Hle Hlen;
    [unfold tb in *; lia|].
  cbn [BatchRun.groupLoop].
  destruct (Nat.ltb_spec i tb) as [Hlt|Hge]; [|unfold tb in *; lia].
  set (e := Nat.min (i + conc) tb).
  assert (i < e /\ e <= tb /\ e <= i + conc)%nat as (Hie & Hetb & Hec)
    by (unfold e; lia).
  rewrite (callLoop_run processor files size conc Hsize Hconc _ base) by lia.
  assert (forall k, (i <= k < i + conc)%nat -> (k / conc * conc = i)%nat) as Hgroup.
  { intros k Hk.
    pose proof (Nat.div_mod_eq i conc) as Hi. rewrite Hmod in Hi.
    assert (k / conc = i / conc)%nat as ->; [|lia].
    symmetry. apply (Nat.div_unique k conc (i / conc) (k - i)); lia. }
  assert (forall n, (n <= e)%nat ->
            map (fun k => (batchAt files size k,
                           {| BatchRun.currentBatch := k + 1;
                              BatchRun.totalBatches := ceilDiv (length files) size;
                              BatchRun.filesProcessed :=
                                length (take (i * size) files);
                              BatchRun.totalFiles := length files;
                              BatchRun.currentBatchSize :=
                                length (batchAt files size k) |}))
                (seq i (n - i))
            = map (fun k => (batchAt files size k,
                             {| BatchRun.currentBatch := k + 1;
                                BatchRun.totalBatches := tb;
                                BatchRun.filesProcessed :=
                                  length (take (k / conc * conc * size) files);
                                BatchRun.totalFiles := length files;
                                BatchRun.currentBatchSize :=
                                  length (batchAt files size k) |}))
                (seq i (n - i))) as Hcalls.
  { intros n Hn. apply map_ext_in. intros k Hk. apply in_seq in Hk.
    rewrite (Hgroup k) by lia. done. }
  destruct (Nat.lt_ge_cases failing e) as [Hin|Hout].
  - (* the call that fails is in this group *)
    assert (last = e) as Hlast.
    { unfold last. rewrite (Hgroup failing) by lia. done. }
    assert (seq i (e - i)
            = seq i (failing - i) ++ failing :: seq (S failing) (e - S failing))
      as Hsplit.
    { replace (e - i)%nat with ((failing - i) + S (e - S failing))%nat by lia.
      rewrite seq_app. cbn [seq].
      replace (i + (failing - i))%nat with failing by lia. done. }
    match goal with
    | |- context [HFClient.promiseAll ?l] =>
        assert (exists reasons,
                  HFClient.promiseAll l = FirstRejected (t :: reasons)
                  /\ ((forall n b p, (base + failing < n < base + last)%nat ->
                        isResolved (processor n b p) = true) -> reasons = []))
          as (reasons & -> & Hnone)
    end.
    { rewrite Hsplit, map_app. cbn [map]. rewrite Hfails.
      match goal with
      | |- context [HFClient.promiseAll (?l1 ++ _ :: ?l2)] =>
          destruct (promiseAll_rejects l1 l2 t) as (reasons & Hrun & Hnone)
      end.
      { apply Forall_map, Forall_forall. intros k Hk.
        apply list_elem_of_In, in_seq in Hk. apply Hbefore. lia. }
      exists reasons. split; [exact Hrun|]. intros Hlater. apply Hnone.
      apply Forall_map, Forall_forall. intros k Hk.
      apply list_elem_of_In, in_seq in Hk. apply Hlater. lia. }
    eexists _, _. split; [reflexivity|]. split; [exact Hnone|].
    cbn [BatchRun.processorCalls]. rewrite Hlast. f_equal. by apply Hcalls.
  - (* the whole group resolves *)
    assert (e = i + conc)%nat as He by (unfold tb in *; lia).
    match goal with
    | |- context [HFClient.promiseAll ?l] =>
        destruct (promiseAll_resolved l) as (vs & -> & Hvs)
    end.
    { apply Forall_map, Forall_forall. intros k Hk.
      apply list_elem_of_In, in_seq in Hk. apply Hbefore. lia. }
    pose proof (countLoop_run files size conc Hsize Hconc (e - i) i) as Hcount.
    fold tb in Hcount. fold batches in Hcount. rewrite Hcount.
    replace (i + (e - i))%nat with (i + conc)%nat by lia.
    set (tr2 := if (0 <? delay) && (e <? tb)%nat then _ else _).
    destruct (IH (i + conc)%nat (results ++ vs) tr2)
      as (reasons & tr1 & Hrun & Hnone & Hlog).
    { unfold tb in *. lia. }
    { rewrite <- Nat.Div0.add_mod_idemp_l, Hmod. cbn [Nat.add].
      apply Nat.Div0.mod_same. }
    { lia. }
    { unfold tr2. destruct ((0 <? delay) && (e <? tb)%nat);
        cbn [BatchRun.sleep BatchRun.processorCalls];
        rewrite length_app, length_map, length_seq; lia. }
    exists reasons, tr1. split; [exact Hrun|]. split; [exact Hnone|].
    rewrite Hlog.
    assert (BatchRun.processorCalls tr2
            = BatchRun.processorCalls tr
              ++ map (fun k => (batchAt files size k,
                                {| BatchRun.currentBatch := k + 1;
                                   BatchRun.totalBatches := tb;
                                   BatchRun.filesProcessed :=
                                     length (take (k / conc * conc * size) files);
                                   BatchRun.totalFiles := length files;
                                   BatchRun.currentBatchSize :=
                                     length (batchAt files size k) |}))
                   (seq i (e - i))) as ->.
    { unfold tr2. rewrite <- (Hcalls e) by lia.
      by destruct ((0 <? delay) && (e <? tb)%nat). }
    rewrite <- app_assoc, <- map_app. do 2 f_equal.
    assert (i + conc <= last)%nat as Hmore.
    { unfold last.
      pose proof (Nat.div_mod_eq i conc) as Hi. rewrite Hmod in Hi.
      assert (i / conc < failing / conc \/ i / conc = failing / conc)%nat
        as [Hdiv|Hdiv].
      { pose proof (Nat.Div0.div_le_mono i failing conc Hle). lia. }
      - unfold tb in *. nia.
      - exfalso. pose proof (Nat.div_mod_eq failing conc) as Hf.
        pose proof (Nat.mod_upper_bound failing conc ltac:(lia)). nia. }
    replace (last - i)%nat with ((e - i) + (last - (i + conc)))%nat by lia.
    rewrite seq_app. do 2 f_equal. lia.
Qed.

End ProcessBatchesFailure.

(** [processBatches] catches nothing.  When the call for batch [failing]
    is the first, in the order of the batches, that rejects,
    [processBatches] rejects and the results of the batches before are
    lost; the batches of the group of [failing] had all been passed to the
    processor, and no batch of a later group is.  It rejects with the
    error of that call when no other call of the group rejects; when
    another does, with the error of the one that rejected first in time. *)
Theorem processBatches_stops_at_rejection {T}
    (processor : nat -> list ResolvedFile -> BatchRun.BatchProgress -> Outcome T)
    (files : list ResolvedFile) (options : BatchRun.BatchOperationOptions)
    (tr : BatchRun.Trace) (failing : nat) (t : Thrown) :
  let size := default 1000%nat (BatchRun.batchSize options) in
  let conc := default 1%nat (BatchRun.maxConcurrency options) in
  let tb := ceilDiv (length files) size in
  let base := length (BatchRun.processorCalls tr) in
  let last := Nat.min (failing / conc * conc + conc) tb in
  (0 < size)%nat ->
  (0 < conc)%nat ->
  (failing < tb)%nat ->
  (forall n b p, (n < base + failing)%nat -> isResolved (processor n b p) = true) ->
  (forall b p, processor (base + failing)%nat b p = Rejected t) ->
  exists reasons tr1,
    BatchRun.processBatches files processor options tr
    = BatchRun.Returned (FirstRejected (t :: reasons)) tr1
    /\ ((forall n b p, (base + failing < n < base + last)%nat ->
          isResolved (processor n b p) = true) -> reasons = [])
    /\ map fst (BatchRun.processorCalls tr1)
       = map fst (BatchRun.processorCalls tr)
         ++ map (batchAt files size) (seq 0 last).
Proof.
  intros size conc tb base last Hsize Hconc Hfailing Hbefore Hfails.
  unfold BatchRun.processBatches. fold size conc.
  destruct (Nat.eqb_spec (length files) 0) as [Hempty|Hfiles].
  { assert (tb = 0%nat) as Htb
      by (unfold tb; rewrite Hempty; by apply ceilDiv_zero).
    lia. }
  rewrite createBatches_batchAt by done. fold tb.
  assert (length (map (batchAt files size) (seq 0 tb)) = tb) as ->
    by (by rewrite length_map, length_seq).
  set (tr0 := BatchRun.consoleLog _ tr).
  destruct (groupLoop_rejects processor files size conc
              (default 100 (BatchRun.delayBetweenBatches options))
              base failing t Hsize Hconc Hfailing Hbefore Hfails
              tb 0%nat [] tr0) as (reasons & tr1 & Hrun & Hnone & Hcalls).
  { fold tb. lia. }
  { by apply Nat.Div0.mod_0_l. }
  { lia. }
  { unfold tr0. cbn. fold base. lia. }
  fold tb in Hrun, Hcalls, Hnone. fold last in Hcalls, Hnone.
  rewrite Nat.sub_0_r in Hcalls.
  change (length (take (0 * size) files)) with 0%nat in Hrun.
  rewrite Hrun. exists reasons, tr1. split; [done|]. split; [exact Hnone|].
  rewrite Hcalls. unfold tr0. cbn [BatchRun.consoleLog BatchRun.processorCalls].
  by rewrite map_app, map_map.
Qed.

(** Ten files in batches of three, two at a time, and a processor whose
    third call fails: the fourth batch had been started, and the results
    of the first two are not returned. *)
Lemma processBatches_stops_witness :
  exists tr1,
    BatchRun.processBatches (MoreExamples.resolvedFiles 10)
      (MoreExamples.failingAt 2)
      {| BatchRun.batchSize := Some 3%nat;
         BatchRun.maxConcurrency := Some 2%nat;
         BatchRun.delayBetweenBatches := None |} MoreExamples.emptyTrace
    = BatchRun.Returned (FirstRejected [ThrownError Examples.networkError]) tr1
    /\ length (BatchRun.processorCalls tr1) = 4%nat.
Proof.
  destruct (processBatches_stops_at_rejection (MoreExamples.failingAt 2)
              (MoreExamples.resolvedFiles 10)
              {| BatchRun.batchSize := Some 3%nat;
                 BatchRun.maxConcurrency := Some 2%nat;
                 BatchRun.delayBetweenBatches := None |} MoreExamples.emptyTrace
              2%nat (ThrownError Examples.networkError)
              ltac:(simpl; lia) ltac:(simpl; lia) ltac:(vm_compute; lia))
    as (reasons & tr1 & Hrun & Hnone & Hcalls).
  - intros n b p Hn. unfold MoreExamples.failingAt.
    destruct (Nat.eqb_spec n 2) as [->|_]; [simpl in Hn; lia | done].
  - intros b p. reflexivity.
  - rewrite Hnone in Hrun.
    + exists tr1. split; [exact Hrun|].
      apply (f_equal length) in Hcalls. rewrite length_map in Hcalls.
      rewrite Hcalls. reflexivity.
    + intros n b p Hn. unfold MoreExamples.failingAt.
      destruct (Nat.eqb_spec n 2) as [->|_]; [simpl in Hn; lia | done].
Defined.

(** With a [maxConcurrency] of 0 the loop over the groups never moves on:
    whatever the number of iterations observed, it is still running, it
    has not called the processor, and it has slept once in every
    iteration when the delay is positive. *)
Theorem processBatches_zero_concurrency_never_returns {T}
    (processor : nat -> list ResolvedFile -> BatchRun.BatchProgress -> Outcome T)
    (batches : list (list ResolvedFile)) (nFiles : nat) (delay : Z) (fuel i : nat)
    (results : list T) (done_ : nat) (tr : BatchRun.Trace) :
  (i < length batches)%nat ->
  exists tr1,
    BatchRun.groupLoop processor batches (length batches) nFiles fuel 0 delay i
      results done_ tr = BatchRun.GroupsRunning tr1
    /\ BatchRun.processorCalls tr1 = BatchRun.processorCalls tr
    /\ BatchRun.slept tr1
       = BatchRun.slept tr ++ (if 0 <? delay then replicate fuel delay else [])
    /\ BatchRun.logged tr1 = BatchRun.logged tr.
Proof.
  intros Hi. revert results done_ tr.
  induction fuel as [|fuel IH]; intros results done_ tr;
    cbn [BatchRun.groupLoop];
    destruct (Nat.ltb_spec i (length batches)) as [_|]; try lia.
  - exists tr. split; [done|]. split; [done|].
    split; [|done]. destruct (0 <? delay); by rewrite app_nil_r.
  - rewrite Nat.add_0_r.
    replace (Nat.min i (length batches) - i)%nat with 0%nat by lia.
    cbn [BatchRun.callLoop HFClient.promiseAll BatchRun.countLoop].
    destruct (Nat.ltb_spec (Nat.min i (length batches)) (length batches))
      as [_|]; [|lia].
    rewrite andb_true_r.
    destruct (IH (results ++ [])
                (done_)
                (if 0 <? delay then BatchRun.sleep delay tr else tr))
      as (tr1 & Hrun & Hcalls & Hslept & Hlogged).
    exists tr1. split; [exact Hrun|].
    destruct (0 <? delay); cbn [BatchRun.sleep BatchRun.processorCalls
                                 BatchRun.slept BatchRun.logged replicate] in *.
    + split; [done|]. split; [|done]. by rewrite Hslept, <- app_assoc.
    + by repeat split.
Qed.

(** One file and no concurrency: after a thousand iterations the loop is
    still running, and nothing was passed to the processor. *)
Lemma processBatches_zero_concurrency_witness :
  exists tr1,
    BatchRun.groupLoop MoreExamples.numbering [MoreExamples.resolvedFiles 1] 1 1
      1000 0 100 0 [] 0 MoreExamples.emptyTrace = BatchRun.GroupsRunning tr1
    /\ BatchRun.processorCalls tr1 = []
    /\ BatchRun.slept tr1 = replicate 1000 100.
Proof.
  destruct (processBatches_zero_concurrency_never_returns MoreExamples.numbering
              [MoreExamples.resolvedFiles 1] 1 100 1000 0 [] 0
              MoreExamples.emptyTrace ltac:(simpl; lia))
    as (tr1 & Hrun & Hcalls & Hslept & _).
  exists tr1. split; [exact Hrun|]. split; [exact Hcalls | exact Hslept].
Defined.
